(** * TenderGuardian: the sealed-record integrity core

    A shallow embedding of [backend/encryption_utils.py], of the handlers
    [seal_bid], [check_compliance], [tender_update] and [get_audit_log] and
    the CORS configuration of [backend/server.py], and of the API tester
    [backend_test.py], with the properties the specification states about
    them and further properties read off the code.

    Conventions.
    - A Python [bytes] value is a [list ascii] (one [ascii] per octet).
    - A Python [str] is a [string] holding its UTF-8 code units, so
      [str.encode('utf-8')] is the conversion to the list of its octets and
      string concatenation commutes with encoding.
    - A text that has no UTF-8 encoding (one holding a lone surrogate) is
      outside the model of the server: on every string [encode_utf8] is
      total. Where such a text matters, in the secret of the environment and
      in what the tester prints, it is held as octets that are no well-formed
      UTF-8, which [valid_utf8] tells apart.
    - The primitives the repository imports (the AES block permutation,
      SHA3-512, SHA-256) are section variables in the statements, with the
      contracts of their standards as hypotheses; modules [AES], [SHA256]
      and [SHA3] define them, and the contracts are proved of these.
      Everything the repository itself computes (key derivation, padding,
      chaining, fingerprinting, update hashing, projection, ordering) is
      defined here.
    - Handlers run in a state-and-exception monad over a [World] that holds
      the process environment, the two collections, the entropy source, the
      clock and a fault plan for the external calls. *)

From Stdlib Require Import Strings.String Strings.Ascii Arith.PeanoNat Bool.Bool.
From Stdlib Require Import NArith Lia Btauto.
From stdpp Require Import base list strings gmap sorting pretty finite vector.

Local Open Scope string_scope.
Set Default Proof Using "Type".

(** ** Bytes and strings *)

Abbreviation bytes := (list ascii).

(** [s.encode('utf-8')] *)
Definition encode_utf8 (s : string) : bytes := list_ascii_of_string s.

(** [b.decode('utf-8')] on octets that are valid UTF-8. *)
Definition decode_utf8 (b : bytes) : string := string_of_list_ascii b.

(** [bytes([n])] for [n < 256]. *)
Definition bchr (n : nat) : ascii := ascii_of_nat n.

(** [b[0]] as an integer. *)
Definition bord (a : ascii) : nat := nat_of_ascii a.

(** Octet-wise exclusive or, as the chaining mode applies it to blocks. *)
Definition xor_byte (a b : ascii) : ascii :=
  match a, b with
  | Ascii a0 a1 a2 a3 a4 a5 a6 a7, Ascii b0 b1 b2 b3 b4 b5 b6 b7 =>
      Ascii (xorb a0 b0) (xorb a1 b1) (xorb a2 b2) (xorb a3 b3)
            (xorb a4 b4) (xorb a5 b5) (xorb a6 b6) (xorb a7 b7)
  end.

Fixpoint strxor (x y : bytes) : bytes :=
  match x, y with
  | a :: x', b :: y' => xor_byte a b :: strxor x' y'
  | _, _ => []
  end.

(** [b.ljust(width, fill)] *)
Definition ljust (width : nat) (fill : ascii) (b : bytes) : bytes :=
  b ++ replicate (width - length b) fill.

(** ** Exceptions and results *)

Inductive call :=
  | FileRead | Urandom | CipherLib | DigestLib | Uuid4 | Clock
  | InsertBid | InsertUpdate | FindBids.

Global Instance call_eq_dec : EqDecision call.
Proof. solve_decision. Defined.

Inductive exn :=
  | ValueError (msg : string)
  | LibraryError (c : call) (msg : string)
  | HTTPException (status_code : nat) (detail : string)
  | ResponseValidationError (field : string).

Inductive result (A : Type) :=
  | Ok (a : A)
  | Raise (e : exn).
Arguments Ok {A} a.
Arguments Raise {A} e.

(** [str(e)] *)
Definition str_exn (e : exn) : string :=
  match e with
  | ValueError msg => msg
  | LibraryError _ msg => msg
  | HTTPException code detail => detail
  | ResponseValidationError field => field
  end.

(** ** Crypto.Util.Padding *)

(** [pad(data_to_pad, block_size)] with the default style [pkcs7]. *)
Definition pad (data_to_pad : bytes) (block_size : nat) : bytes :=
  let padding_len := block_size - length data_to_pad `mod` block_size in
  data_to_pad ++ replicate padding_len (bchr padding_len).

(** [unpad(padded_data, block_size)] with the default style [pkcs7]. *)
Definition unpad (padded_data : bytes) (block_size : nat) : result bytes :=
  let pdata_len := length padded_data in
  if decide (pdata_len = 0) then
    Raise (ValueError "Zero-length input cannot be unpadded")
  else if decide (pdata_len `mod` block_size ≠ 0) then
    Raise (ValueError "Input data is not padded")
  else
    let padding_len := bord (List.last padded_data zero) in
    if decide (padding_len < 1 ∨ block_size `min` pdata_len < padding_len) then
      Raise (ValueError "Padding is incorrect.")
    else if decide (drop (pdata_len - padding_len) padded_data
                    ≠ replicate padding_len (bchr padding_len)) then
      Raise (ValueError "PKCS#7 padding is incorrect.")
    else Ok (take (pdata_len - padding_len) padded_data).

(** ** Splitting into cipher blocks *)

Fixpoint chunks_fuel (fuel n : nat) (l : bytes) : list bytes :=
  match fuel with
  | 0 => []
  | S fuel' =>
      match l with
      | [] => []
      | _ => take n l :: chunks_fuel fuel' n (drop n l)
      end
  end.

Definition chunks (n : nat) (l : bytes) : list bytes := chunks_fuel (length l) n l.

Definition AES_block_size : nat := 16.

(** ** hexdigest and base64 *)

Definition hex_digit (n : nat) : ascii :=
  match String.get n "0123456789abcdef" with
  | Some c => c
  | None => "0"%char
  end.

(** The text [hashlib]'s [hexdigest()] returns for the octets of a digest. *)
Fixpoint hexdigest (b : bytes) : string :=
  match b with
  | [] => ""
  | a :: b' =>
      String (hex_digit (bord a / 16)) (String (hex_digit (bord a `mod` 16)) (hexdigest b'))
  end.

(** The value of a hexadecimal digit, as [bytes.fromhex] reads it. *)
Definition unhex_digit (c : ascii) : nat :=
  let n := bord c in
  if decide (48 ≤ n ≤ 57)%nat then n - 48
  else if decide (97 ≤ n ≤ 102)%nat then n - 87
  else 0.

(** A collision of a digest: two different messages with one digest. *)
Definition collision (digest : bytes → bytes) (x y : bytes) : Prop :=
  x ≠ y ∧ digest x = digest y.

Definition b64_digit (n : nat) : ascii :=
  match String.get n
    "ABCDEFGHIJKLMNOPQRSTUVWXYZabcdefghijklmnopqrstuvwxyz0123456789+/" with
  | Some c => c
  | None => "="%char
  end.

(** [base64.b64encode(b)]: three octets give four digits; a last group of one
    or two octets is completed with [=]. *)
Fixpoint b64encode (b : bytes) : bytes :=
  match b with
  | [] => []
  | [x] =>
      [b64_digit (bord x / 4); b64_digit (bord x `mod` 4 * 16); "="%char; "="%char]
  | [x; y] =>
      [b64_digit (bord x / 4);
       b64_digit (bord x `mod` 4 * 16 + bord y / 16);
       b64_digit (bord y `mod` 16 * 4); "="%char]
  | x :: y :: z :: rest =>
      b64_digit (bord x / 4)
      :: b64_digit (bord x `mod` 4 * 16 + bord y / 16)
      :: b64_digit (bord y `mod` 16 * 4 + bord z / 64)
      :: b64_digit (bord z `mod` 64)
      :: b64encode rest
  end.

(** The value of a base64 digit. *)
Definition unb64_digit (c : ascii) : nat :=
  let n := bord c in
  if decide (65 ≤ n ≤ 90)%nat then n - 65
  else if decide (97 ≤ n ≤ 122)%nat then n - 71
  else if decide (48 ≤ n ≤ 57)%nat then n + 4
  else if decide (n = 43) then 62
  else if decide (n = 47) then 63
  else 0.

(** [base64.b64decode(s)] on well-formed base64 text. *)
Fixpoint b64decode (s : bytes) : bytes :=
  match s with
  | a :: b :: c :: d :: rest =>
      let byte0 := bchr (unb64_digit a * 4 + unb64_digit b / 16) in
      let byte1 := bchr (unb64_digit b `mod` 16 * 16 + unb64_digit c / 4) in
      let byte2 := bchr (unb64_digit c `mod` 4 * 64 + unb64_digit d) in
      if decide (c = "="%char) then [byte0]
      else if decide (d = "="%char) then [byte0; byte1]
      else byte0 :: byte1 :: byte2 :: b64decode rest
  | _ => []
  end.

(** ** Documents of the persistence collaborator *)

Inductive value :=
  | VStr (s : string)
  | VObjectId (n : nat).

Global Instance value_eq_dec : EqDecision value.
Proof. solve_decision. Defined.

Abbreviation document := (gmap string value).

(** ** The world a handler runs in *)

Record World := mkWorld {
  environ : gmap string string;          (* os.environ *)
  bids : list document;                  (* db.bids, in insertion order *)
  tender_updates : list document;        (* db.tender_updates *)
  entropy : nat → ascii;                 (* the octets os.urandom will deliver *)
  entropy_pos : nat;
  clock : nat → string;                  (* isoformat of successive clock readings *)
  clock_pos : nat;
  next_oid : nat;                        (* ObjectId generator *)
  faults : call → option string;         (* external calls that raise, with message *)
  log : list string                      (* records emitted through logging *)
}.

Definition set_bids (l : list document) (w : World) : World :=
  mkWorld (environ w) l (tender_updates w) (entropy w) (entropy_pos w)
          (clock w) (clock_pos w) (next_oid w) (faults w) (log w).

Definition set_tender_updates (l : list document) (w : World) : World :=
  mkWorld (environ w) (bids w) l (entropy w) (entropy_pos w)
          (clock w) (clock_pos w) (next_oid w) (faults w) (log w).

Definition set_entropy_pos (n : nat) (w : World) : World :=
  mkWorld (environ w) (bids w) (tender_updates w) (entropy w) n
          (clock w) (clock_pos w) (next_oid w) (faults w) (log w).

Definition set_clock_pos (n : nat) (w : World) : World :=
  mkWorld (environ w) (bids w) (tender_updates w) (entropy w) (entropy_pos w)
          (clock w) n (next_oid w) (faults w) (log w).

Definition set_next_oid (n : nat) (w : World) : World :=
  mkWorld (environ w) (bids w) (tender_updates w) (entropy w) (entropy_pos w)
          (clock w) (clock_pos w) n (faults w) (log w).

Definition set_environ (e : gmap string string) (w : World) : World :=
  mkWorld e (bids w) (tender_updates w) (entropy w) (entropy_pos w)
          (clock w) (clock_pos w) (next_oid w) (faults w) (log w).

Definition set_faults (f : call → option string) (w : World) : World :=
  mkWorld (environ w) (bids w) (tender_updates w) (entropy w) (entropy_pos w)
          (clock w) (clock_pos w) (next_oid w) f (log w).

(** ** The state-and-exception monad of handlers *)

Definition M (A : Type) : Type := World → result A * World.

Global Instance M_ret : MRet M := λ A a w, (Ok a, w).

Global Instance M_bind : MBind M := λ A B f m w,
  match m w with
  | (Ok a, w') => f a w'
  | (Raise e, w') => (Raise e, w')
  end.

(** [raise e] *)
Definition raise {A} (e : exn) : M A := λ w, (Raise e, w).

(** [try: body except Exception as e: handler(e)] *)
Definition try_except {A} (body : M A) (handler : exn → M A) : M A := λ w,
  match body w with
  | (Ok a, w') => (Ok a, w')
  | (Raise e, w') => handler e w'
  end.

Definition lift {A} (r : result A) : M A := λ w, (r, w).

(** An external call raises when the world's fault plan says so. *)
Definition lib_call (c : call) : M unit := λ w,
  match faults w c with
  | Some msg => (Raise (LibraryError c msg), w)
  | None => (Ok (), w)
  end.

(** [os.environ.get(name, dflt)] *)
Definition os_environ_get (name dflt : string) : M string := λ w,
  (Ok (default dflt (environ w !! name)), w).

(** [os.urandom(n)] *)
Definition urandom (n : nat) : M bytes := λ w,
  (Ok (entropy w <$> seq (entropy_pos w) n), set_entropy_pos (entropy_pos w + n) w).

(** [Crypto.Random.get_random_bytes(n)] *)
Definition get_random_bytes (n : nat) : M bytes :=
  _ ← lib_call Urandom; urandom n.

(** [str(uuid.uuid4())]: sixteen octets of [os.urandom] with the version and
    variant bits set, printed as 8-4-4-4-12 hexadecimal digits. *)
Definition set_version4 (a : ascii) : ascii :=
  match a with
  | Ascii b0 b1 b2 b3 _ _ _ _ => Ascii b0 b1 b2 b3 false false true false
  end.

Definition set_variant (a : ascii) : ascii :=
  match a with
  | Ascii b0 b1 b2 b3 b4 b5 _ _ => Ascii b0 b1 b2 b3 b4 b5 false true
  end.

Definition uuid_str (r : bytes) : string :=
  let r := alter set_variant 8 (alter set_version4 6 r) in
  hexdigest (take 4 r) +:+ "-" +:+ hexdigest (take 2 (drop 4 r)) +:+ "-"
  +:+ hexdigest (take 2 (drop 6 r)) +:+ "-" +:+ hexdigest (take 2 (drop 8 r)) +:+ "-"
  +:+ hexdigest (drop 10 r).

Definition uuid4 : M string :=
  _ ← lib_call Uuid4; r ← urandom 16; mret (uuid_str r).

(** [datetime.now(timezone.utc).isoformat()] *)
Definition read_clock : M string := λ w,
  (Ok (clock w (clock_pos w)), set_clock_pos (S (clock_pos w)) w).

Definition now_isoformat : M string :=
  _ ← lib_call Clock; read_clock.

(** [collection.insert_one(doc)]: the store assigns [_id] when the document
    has none and appends; a store fault raises and stores nothing. *)
Definition with_id (n : nat) (doc : document) : document :=
  match doc !! "_id" with
  | Some _ => doc
  | None => <["_id" := VObjectId n]> doc
  end.

Definition append_bid (doc : document) : M unit := λ w,
  (Ok (), set_next_oid (S (next_oid w)) (set_bids (bids w ++ [with_id (next_oid w) doc]) w)).

Definition append_tender_update (doc : document) : M unit := λ w,
  (Ok (), set_next_oid (S (next_oid w))
            (set_tender_updates (tender_updates w ++ [with_id (next_oid w) doc]) w)).

Definition db_bids_insert_one (doc : document) : M unit :=
  _ ← lib_call InsertBid; append_bid doc.

Definition db_tender_updates_insert_one (doc : document) : M unit :=
  _ ← lib_call InsertUpdate; append_tender_update doc.

(** ** The query surface of the store *)

(** The order the store sorts a field by: a missing field (null) comes before
    every string, a string before every ObjectId; strings compare octet by
    octet, ObjectIds by their counter. *)
Definition bson_class (o : option value) : nat :=
  match o with
  | None => 0
  | Some (VStr _) => 1
  | Some (VObjectId _) => 2
  end.

Definition bson_leb (x y : option value) : bool :=
  match x, y with
  | Some (VStr a), Some (VStr b) => String.leb a b
  | Some (VObjectId a), Some (VObjectId b) => Nat.leb a b
  | _, _ => Nat.leb (bson_class x) (bson_class y)
  end.

(** [d1] may stand before [d2] in [.sort(field, -1)]. *)
Definition sorts_before_desc (field : string) (d1 d2 : document) : Prop :=
  bson_leb (d2 !! field) (d1 !! field) = true.

Global Instance sorts_before_desc_dec field d1 d2 : Decision (sorts_before_desc field d1 d2).
Proof. unfold sorts_before_desc. apply _. Defined.

(** An inclusion projection: the fields marked 1 are kept, and [_id] unless
    it is marked 0. *)
Definition keeps (spec : list (string * nat)) (k : string) : Prop :=
  (k, 1) ∈ spec ∨ (k = "_id" ∧ ("_id", 0) ∉ spec).

Global Instance keeps_dec spec k : Decision (keeps spec k).
Proof. unfold keeps. apply _. Defined.

Definition project (spec : list (string * nat)) (doc : document) : document :=
  filter (λ kv, keeps spec kv.1) doc.

(** [collection.find({}, spec).sort(field, -1).to_list(limit)]: a read of the
    collection; the world is left as it is. *)
Definition read_bids (spec : list (string * nat)) (field : string) (limit : nat)
  : M (list document) := λ w,
  (Ok (project spec <$> take limit (merge_sort (sorts_before_desc field) (bids w))), w).

Definition db_bids_find_sort_to_list (spec : list (string * nat)) (field : string)
    (limit : nat) : M (list document) :=
  _ ← lib_call FindBids; read_bids spec field limit.

(** ** Request and response models of server.py *)

Record SealBidResponse := mkSealBidResponse {
  sbr_success : bool;
  sbr_bidHash : string;
  sbr_message : string;
  sbr_bidderId : string
}.

Record TenderUpdate := mkTenderUpdate {
  tu_tenderId : string;
  tu_updateContent : string;
  tu_updatedBy : string
}.

(** Parsing a request body: [updatedBy] defaults to ["system"]. *)
Definition parse_TenderUpdate (tenderId updateContent : string) (updatedBy : option string)
  : TenderUpdate :=
  mkTenderUpdate tenderId updateContent (default "system" updatedBy).

Record TenderUpdateResponse := mkTenderUpdateResponse {
  tur_success : bool;
  tur_updateHash : string;
  tur_timestamp : string
}.

Record AuditLogEntry := mkAuditLogEntry {
  ale_tenderId : string;
  ale_bidHash : string;
  ale_timestamp : string;
  ale_bidderId : string;
  ale_status : string
}.

Global Instance result_ret : MRet result := λ A a, Ok a.

Global Instance result_bind : MBind result := λ A B f r,
  match r with
  | Ok a => f a
  | Raise e => Raise e
  end.

(** A required [str] field of a response model. *)
Definition required_str (field : string) (doc : document) : result string :=
  match doc !! field with
  | Some (VStr s) => Ok s
  | _ => Raise (ResponseValidationError field)
  end.

(** Validation of one returned item against [AuditLogEntry]
    ([extra="ignore"]: other keys are dropped). *)
Definition validate_AuditLogEntry (doc : document) : result AuditLogEntry :=
  tenderId ← required_str "tenderId" doc;
  bidHash ← required_str "bidHash" doc;
  timestamp ← required_str "timestamp" doc;
  bidderId ← required_str "bidderId" doc;
  status ← required_str "status" doc;
  mret (mkAuditLogEntry tenderId bidHash timestamp bidderId status).

Fixpoint validate_list (docs : list document) : result (list AuditLogEntry) :=
  match docs with
  | [] => Ok []
  | d :: ds =>
      e ← validate_AuditLogEntry d;
      es ← validate_list ds;
      mret (e :: es)
  end.

(** The JSON object an [AuditLogEntry] is sent as. *)
Definition dump_AuditLogEntry (e : AuditLogEntry) : gmap string string :=
  {[ "tenderId" := ale_tenderId e; "bidHash" := ale_bidHash e;
     "timestamp" := ale_timestamp e; "bidderId" := ale_bidderId e;
     "status" := ale_status e ]}.

(** [get_audit_log] of server.py. *)
Definition audit_projection : list (string * nat) :=
  [("_id", 0); ("tenderId", 1); ("bidHash", 1); ("timestamp", 1); ("bidderId", 1);
   ("status", 1)].

Definition get_audit_log : M (list document) :=
  try_except
    (bids ← db_bids_find_sort_to_list audit_projection "timestamp" 1000;
     mret bids)
    (λ e, raise (HTTPException 500 ("Failed to fetch audit log: " +:+ str_exn e))).

(** The route [GET /audit-log] with [response_model=List[AuditLogEntry]]:
    what the handler returns is validated, then sent. *)
Definition audit_log_route : M (list AuditLogEntry) :=
  bids ← get_audit_log; lift (validate_list bids).

(** ** The library primitives

    The theorems of this file hold for every block permutation and every
    digest that meet the contracts stated with them. The primitives the
    program does call are defined here from their standards (FIPS 197,
    FIPS 180-4, FIPS 202), so that the model runs on concrete inputs and the
    contracts are shown to hold of them. *)

Module AES.

Local Infix "⊕" := xor_byte (at level 50, left associativity).

(** Multiplication by x in GF(2^8), modulo x^8 + x^4 + x^3 + x + 1. *)
Definition xtime (a : ascii) : ascii :=
  match a with
  | Ascii b0 b1 b2 b3 b4 b5 b6 b7 =>
      Ascii b7 (xorb b0 b7) b1 (xorb b2 b7) (xorb b3 b7) b4 b5 b6
  end.

Definition mul2 (a : ascii) : ascii := xtime a.
Definition mul3 (a : ascii) : ascii := xtime a ⊕ a.
Definition mul9 (a : ascii) : ascii := xtime (xtime (xtime a)) ⊕ a.
Definition mul11 (a : ascii) : ascii := xtime (xtime (xtime a)) ⊕ xtime a ⊕ a.
Definition mul13 (a : ascii) : ascii := xtime (xtime (xtime a)) ⊕ xtime (xtime a) ⊕ a.
Definition mul14 (a : ascii) : ascii :=
  xtime (xtime (xtime a)) ⊕ xtime (xtime a) ⊕ xtime a.

Definition mix_column (a b c d : ascii) : bytes :=
  [mul2 a ⊕ mul3 b ⊕ c ⊕ d; a ⊕ mul2 b ⊕ mul3 c ⊕ d;
   a ⊕ b ⊕ mul2 c ⊕ mul3 d; mul3 a ⊕ b ⊕ c ⊕ mul2 d].

Definition inv_mix_column (a b c d : ascii) : bytes :=
  [mul14 a ⊕ mul11 b ⊕ mul13 c ⊕ mul9 d; mul9 a ⊕ mul14 b ⊕ mul11 c ⊕ mul13 d;
   mul13 a ⊕ mul9 b ⊕ mul14 c ⊕ mul11 d; mul11 a ⊕ mul13 b ⊕ mul9 c ⊕ mul14 d].

(** The product in GF(2^8), the inverse as the 254th power, the S-box. *)
Definition gmul (a b : ascii) : ascii :=
  match b with
  | Ascii b0 b1 b2 b3 b4 b5 b6 b7 =>
      let pick (bit : bool) (x : ascii) := if bit then x else zero in
      let a1 := xtime a in
      let a2 := xtime a1 in
      let a3 := xtime a2 in
      let a4 := xtime a3 in
      let a5 := xtime a4 in
      let a6 := xtime a5 in
      let a7 := xtime a6 in
      pick b0 a ⊕ pick b1 a1 ⊕ pick b2 a2 ⊕ pick b3 a3
      ⊕ pick b4 a4 ⊕ pick b5 a5 ⊕ pick b6 a6 ⊕ pick b7 a7
  end.

Definition ginv (a : ascii) : ascii :=
  let a2 := gmul a a in
  let a4 := gmul a2 a2 in
  let a8 := gmul a4 a4 in
  let a16 := gmul a8 a8 in
  let a32 := gmul a16 a16 in
  let a64 := gmul a32 a32 in
  let a128 := gmul a64 a64 in
  gmul a128 (gmul a64 (gmul a32 (gmul a16 (gmul a8 (gmul a4 a2))))).

Definition affine (a : ascii) : ascii :=
  match a with
  | Ascii b0 b1 b2 b3 b4 b5 b6 b7 =>
      let t (x y z u v : bool) := xorb (xorb (xorb (xorb x y) z) u) v in
      Ascii (negb (t b0 b4 b5 b6 b7)) (negb (t b1 b5 b6 b7 b0)) (t b2 b6 b7 b0 b1)
            (t b3 b7 b0 b1 b2) (t b4 b0 b1 b2 b3) (negb (t b5 b1 b2 b3 b4))
            (negb (t b6 b2 b3 b4 b5)) (t b7 b3 b4 b5 b6)
  end.

Definition sbox_table : bytes :=
  Eval vm_compute in (λ n, affine (ginv (bchr n))) <$> seq 0 256.

Definition inv_sbox_table : bytes :=
  Eval vm_compute in
    (λ n, bchr (default 0 (fst <$> list_find (λ y, y = bchr n) sbox_table)))
    <$> seq 0 256.

Definition sbox (a : ascii) : ascii := nth (bord a) sbox_table zero.
Definition inv_sbox (a : ascii) : ascii := nth (bord a) inv_sbox_table zero.

(** The state is the block in column order: octet r + 4c is row r of
    column c. *)
Definition sub_bytes (s : bytes) : bytes := sbox <$> s.
Definition inv_sub_bytes (s : bytes) : bytes := inv_sbox <$> s.

Definition shift_rows (s : bytes) : bytes :=
  (λ i, nth (i `mod` 4 + 4 * ((i / 4 + i `mod` 4) `mod` 4)) s zero) <$> seq 0 16.

Definition inv_shift_rows (s : bytes) : bytes :=
  (λ i, nth (i `mod` 4 + 4 * ((i / 4 + 4 - i `mod` 4) `mod` 4)) s zero) <$> seq 0 16.

Fixpoint mix_columns (s : bytes) : bytes :=
  match s with
  | a :: b :: c :: d :: rest => mix_column a b c d ++ mix_columns rest
  | _ => []
  end.

Fixpoint inv_mix_columns (s : bytes) : bytes :=
  match s with
  | a :: b :: c :: d :: rest => inv_mix_column a b c d ++ inv_mix_columns rest
  | _ => []
  end.

Definition add_round_key (round_key s : bytes) : bytes :=
  strxor s (resize 16 zero round_key).

(** Key expansion of a 32-octet key into 60 words, 15 round keys. *)
Definition rot_word (w : bytes) : bytes := drop 1 w ++ take 1 w.

Definition rcon (j : nat) : bytes := [Nat.iter (j - 1) xtime one; zero; zero; zero].

Fixpoint expand (count : nat) (w : list bytes) : list bytes :=
  match count with
  | 0 => w
  | S count' =>
      let i := length w in
      let prev := nth (i - 1) w [] in
      let temp :=
        if decide (i `mod` 8 = 0) then strxor (sbox <$> rot_word prev) (rcon (i / 8))
        else if decide (i `mod` 8 = 4) then sbox <$> prev
        else prev in
      expand count' (w ++ [strxor (nth (i - 8) w []) temp])
  end.

Definition round_keys (key : bytes) : list bytes :=
  let w := expand 52 (chunks 4 (resize 32 zero key)) in
  (λ r, mjoin (take 4 (drop (4 * r) w))) <$> seq 0 15.

Definition encrypt_round (s round_key : bytes) : bytes :=
  add_round_key round_key (mix_columns (shift_rows (sub_bytes s))).

Definition decrypt_round (s round_key : bytes) : bytes :=
  inv_sub_bytes (inv_shift_rows (inv_mix_columns (add_round_key round_key s))).

(** The cipher of FIPS 197 with fourteen rounds. *)
Definition encrypt_block (key block : bytes) : bytes :=
  let rks := round_keys key in
  let s := add_round_key (nth 0 rks []) (resize 16 zero block) in
  let s := foldl encrypt_round s (take 13 (drop 1 rks)) in
  add_round_key (nth 14 rks []) (shift_rows (sub_bytes s)).

(** The inverse cipher. *)
Definition decrypt_block (key block : bytes) : bytes :=
  let rks := round_keys key in
  let s :=
    inv_sub_bytes (inv_shift_rows (add_round_key (nth 14 rks []) (resize 16 zero block))) in
  let s := foldl decrypt_round s (rev (take 13 (drop 1 rks))) in
  add_round_key (nth 0 rks []) s.

End AES.

Module SHA256.

Local Open Scope N_scope.

Definition w32 (x : N) : N := x mod 2 ^ 32.
Definition add32 (x y : N) : N := w32 (x + y).
Definition rotr (n x : N) : N := N.lor (N.shiftr x n) (w32 (N.shiftl x (32 - n))).
Definition shr (n x : N) : N := N.shiftr x n.
Definition not32 (x : N) : N := N.lxor x (2 ^ 32 - 1).
Definition Ch (x y z : N) : N := N.lxor (N.land x y) (N.land (not32 x) z).
Definition Maj (x y z : N) : N :=
  N.lxor (N.lxor (N.land x y) (N.land x z)) (N.land y z).
Definition Sigma0 (x : N) : N := N.lxor (N.lxor (rotr 2 x) (rotr 13 x)) (rotr 22 x).
Definition Sigma1 (x : N) : N := N.lxor (N.lxor (rotr 6 x) (rotr 11 x)) (rotr 25 x).
Definition sigma0 (x : N) : N := N.lxor (N.lxor (rotr 7 x) (rotr 18 x)) (shr 3 x).
Definition sigma1 (x : N) : N := N.lxor (N.lxor (rotr 17 x) (rotr 19 x)) (shr 10 x).

(** The first primes, by trial division. *)
Definition is_prime (n : nat) : bool :=
  forallb (λ d, negb (Nat.eqb (n `mod` d) 0)) (seq 2 (n - 2)).

Definition primes (count : nat) : list N :=
  N.of_nat <$> take count (filter (λ n, is_prime n = true) (seq 2 400)).

(** The integer cube root, one bit at a time. *)
Definition icbrt (n : N) : N :=
  foldl (λ r b, let r' := r + 2 ^ N.of_nat b in if r' * r' * r' <=? n then r' else r)
        0 (rev (seq 0 41)).

(** The round constants: 32 fraction bits of the cube roots of the first 64
    primes; the initial hash value: of the square roots of the first 8. *)
Definition K : list N :=
  Eval vm_compute in (λ p, w32 (icbrt (p * 2 ^ 96))) <$> primes 64.

Definition H0 : list N :=
  Eval vm_compute in (λ p, w32 (N.sqrt (p * 2 ^ 64))) <$> primes 8.

Definition be32 (x : N) : bytes :=
  (λ i, ascii_of_N (N.shiftr x (8 * i) mod 256)) <$> [3; 2; 1; 0].

Definition be64 (x : N) : bytes :=
  (λ i, ascii_of_N (N.shiftr x (8 * i) mod 256)) <$> [7; 6; 5; 4; 3; 2; 1; 0].

Definition word_of (b : bytes) : N := foldl (λ acc a, acc * 256 + N_of_ascii a) 0 b.

(** Padding to a multiple of 64 octets: 0x80, zeros, the length in bits. *)
Definition padded (message : bytes) : bytes :=
  let len := length message in
  let zeros := ((119 - len `mod` 64) `mod` 64)%nat in
  message ++ ascii_of_N 128 :: replicate zeros zero ++ be64 (8 * N.of_nat len).

Definition nthN (l : list N) (i : nat) : N := nth i l 0.

(** The message schedule of one block of sixteen words. *)
Fixpoint schedule (count : nat) (w : list N) : list N :=
  match count with
  | O => w
  | S count' =>
      let t := length w in
      schedule count'
        (w ++ [add32 (add32 (sigma1 (nthN w (t - 2))) (nthN w (t - 7)))
                     (add32 (sigma0 (nthN w (t - 15))) (nthN w (t - 16)))])
  end.

Definition state : Type := N * N * N * N * N * N * N * N.

Definition round (s : state) (kw : N * N) : state :=
  let '(a, b, c, d, e, f, g, h) := s in
  let t1 := add32 (add32 (add32 h (Sigma1 e)) (add32 (Ch e f g) kw.1)) kw.2 in
  let t2 := add32 (Sigma0 a) (Maj a b c) in
  (add32 t1 t2, a, b, c, add32 d t1, e, f, g).

Definition compress (s : state) (block : bytes) : state :=
  let '(a, b, c, d, e, f, g, h) := s in
  let '(a', b', c', d', e', f', g', h') :=
    foldl round s (zip K (schedule 48 (word_of <$> chunks 4 block))) in
  (add32 a a', add32 b b', add32 c c', add32 d d',
   add32 e e', add32 f f', add32 g g', add32 h h').

Definition initial : state :=
  (nthN H0 0, nthN H0 1, nthN H0 2, nthN H0 3, nthN H0 4, nthN H0 5, nthN H0 6, nthN H0 7).

(** [hashlib.sha256(message).digest()] *)
Definition sha256 (message : bytes) : bytes :=
  let '(a, b, c, d, e, f, g, h) := foldl compress initial (chunks 64 (padded message)) in
  be32 a ++ be32 b ++ be32 c ++ be32 d ++ be32 e ++ be32 f ++ be32 g ++ be32 h.

End SHA256.

Module SHA3.

Definition w64 (x : N) : N := (x mod 2 ^ 64)%N.

Definition rotl (n : nat) (x : N) : N :=
  N.lor (w64 (N.shiftl x (N.of_nat n))) (N.shiftr x (N.of_nat (64 - n))).

Definition not64 (x : N) : N := N.lxor x (2 ^ 64 - 1)%N.

(** The state: 25 lanes of 64 bits, lane (x, y) at index x + 5y. *)
Definition lane (s : list N) (x y : nat) : N := nth (x `mod` 5 + 5 * (y `mod` 5)) s 0%N.

(** Round constants, from the linear feedback shift register of degree 8. *)
Definition lfsr_step (r : N) : N :=
  if N.testbit r 7 then (N.lxor (N.shiftl r 1) 0x71 mod 256)%N else N.shiftl r 1.

Fixpoint round_constants (rounds : nat) (r : N) : list N :=
  match rounds with
  | O => []
  | S rounds' =>
      let '(rc, r') :=
        foldl (λ '(rc, r) j,
                 (if N.testbit r 0 then N.lor rc (2 ^ (2 ^ N.of_nat j - 1))%N else rc,
                  lfsr_step r))
              (0%N, r) (seq 0 7) in
      rc :: round_constants rounds' r'
  end.

Definition RC : list N := Eval vm_compute in round_constants 24 1%N.

(** Rotation offsets, along the walk from (1, 0) by (x, y) -> (y, 2x + 3y). *)
Fixpoint offsets_walk (steps t x y : nat) : list (nat * nat) :=
  match steps with
  | O => []
  | S steps' =>
      (x + 5 * y, ((t + 1) * (t + 2) / 2) `mod` 64)
      :: offsets_walk steps' (S t) y ((2 * x + 3 * y) `mod` 5)
  end.

Definition offset (i : nat) : nat :=
  match list_find (λ p, p.1 = i) (offsets_walk 24 0 1 0) with
  | Some (_, (_, r)) => r
  | None => 0
  end.

Definition ROT : list nat := Eval vm_compute in offset <$> seq 0 25.

Definition theta (s : list N) : list N :=
  let c x := foldr N.lxor 0%N ((λ y, lane s x y) <$> seq 0 5) in
  let d x := N.lxor (c (x + 4)) (rotl 1 (c (x + 1))) in
  (λ i, N.lxor (nth i s 0%N) (d (i `mod` 5))) <$> seq 0 25.

(** rho and pi: the lane at (x, y) is the lane at (x + 3y, x), rotated. *)
Definition rho_pi (s : list N) : list N :=
  (λ i, let x := i `mod` 5 in
        let y := i / 5 in
        let src := (x + 3 * y) `mod` 5 + 5 * x in
        rotl (nth src ROT 0) (nth src s 0%N)) <$> seq 0 25.

Definition chi (s : list N) : list N :=
  (λ i, let x := i `mod` 5 in
        let y := i / 5 in
        N.lxor (lane s x y) (N.land (not64 (lane s (x + 1) y)) (lane s (x + 2) y)))
  <$> seq 0 25.

Definition iota (rc : N) (s : list N) : list N :=
  match s with
  | [] => []
  | a :: s' => N.lxor a rc :: s'
  end.

Definition keccak_f (s : list N) : list N :=
  foldl (λ s rc, iota rc (chi (rho_pi (theta s)))) s RC.

Definition le64 (x : N) : bytes :=
  (λ i, ascii_of_N (N.shiftr x (8 * N.of_nat i) mod 256)) <$> seq 0 8.

Definition lane_of (b : bytes) : N := foldr (λ a acc, (acc * 256 + N_of_ascii a)%N) 0%N b.

(** SHA3-512 absorbs 72 octets at a time. *)
Definition rate : nat := 72.

(** The suffix 01 and the padding 10*1, to a multiple of the rate. *)
Definition padded (message : bytes) : bytes :=
  let q := rate - length message `mod` rate in
  if decide (q = 1) then message ++ [ascii_of_N 0x86]
  else message ++ ascii_of_N 0x06 :: replicate (q - 2) zero ++ [ascii_of_N 0x80].

Definition absorb (s : list N) (block : bytes) : list N :=
  let ls := lane_of <$> chunks 8 block in
  keccak_f ((λ i, N.lxor (nth i s 0%N) (nth i ls 0%N)) <$> seq 0 25).

(** [hashlib.sha3_512(message).digest()] *)
Definition sha3_512 (message : bytes) : bytes :=
  let s := foldl absorb (replicate 25 0%N) (chunks rate (padded message)) in
  mjoin ((λ i, le64 (nth i s 0%N)) <$> seq 0 8).

End SHA3.

(** A world at rest: nothing configured, empty collections, a counting
    entropy source, a clock that advances one second per reading, no fault. *)
Definition quiet_clock (n : nat) : string :=
  "2024-05-01T10:00:" +:+ String (bchr (48 + n / 10 `mod` 6)) (String (bchr (48 + n `mod` 10)) "+00:00").

Definition quiet_world : World :=
  mkWorld ∅ [] [] (λ n, bchr (7 * n `mod` 256)) 0 quiet_clock 0 0 (λ _, None) [].

(** ** encryption_utils.py and the handlers that use it

    The block permutation of AES and the two digests come from the cipher
    and hash libraries; they are variables here. *)

Section Core.

Variable aes_encrypt_block : bytes → bytes → bytes.   (* key, block *)
Variable aes_decrypt_block : bytes → bytes → bytes.
Variable sha3_512 : bytes → bytes.
Variable sha256 : bytes → bytes.

(** *** Crypto.Cipher.AES in CBC mode *)

Record CbcCipher := mkCbcCipher { cipher_key : bytes; cipher_iv : bytes }.

(** [AES.new(key, AES.MODE_CBC, iv)] *)
Definition AES_new_cbc (key iv : bytes) : result CbcCipher :=
  if decide (length key ∉ [16; 24; 32]) then
    Raise (ValueError "Incorrect AES key length")
  else if decide (length iv ≠ AES_block_size) then
    Raise (ValueError "Incorrect IV length (it must be 16 bytes long)")
  else Ok (mkCbcCipher key iv).

Fixpoint cbc_encrypt_blocks (key prev : bytes) (blocks : list bytes) : list bytes :=
  match blocks with
  | [] => []
  | p :: rest =>
      let c := aes_encrypt_block key (strxor p prev) in
      c :: cbc_encrypt_blocks key c rest
  end.

Fixpoint cbc_decrypt_blocks (key prev : bytes) (blocks : list bytes) : list bytes :=
  match blocks with
  | [] => []
  | c :: rest =>
      strxor (aes_decrypt_block key c) prev :: cbc_decrypt_blocks key c rest
  end.

(** [cipher.encrypt(plaintext)] *)
Definition cipher_encrypt (cipher : CbcCipher) (plaintext : bytes) : result bytes :=
  if decide (length plaintext `mod` AES_block_size ≠ 0) then
    Raise (ValueError "Data must be padded to 16 byte boundary in CBC mode")
  else
    Ok (concat (cbc_encrypt_blocks (cipher_key cipher) (cipher_iv cipher)
                  (chunks AES_block_size plaintext))).

(** [cipher.decrypt(ciphertext)] *)
Definition cipher_decrypt (cipher : CbcCipher) (ciphertext : bytes) : result bytes :=
  if decide (length ciphertext `mod` AES_block_size ≠ 0) then
    Raise (ValueError "Data must be padded to 16 byte boundary in CBC mode")
  else
    Ok (concat (cbc_decrypt_blocks (cipher_key cipher) (cipher_iv cipher)
                  (chunks AES_block_size ciphertext))).

(** *** encryption_utils.py *)

Definition DEV_KEY : string := "dev_aes_256_key_32_bytes_long_12345678901234567890".

Definition get_encryption_key : M bytes :=
  key ← os_environ_get "ENCRYPTION_KEY" DEV_KEY;
  mret (ljust 32 "0"%char (take 32 (encode_utf8 key))).

Definition encrypt_file_content (file_content : bytes) : M (bytes * bytes) :=
  key ← get_encryption_key;
  iv ← get_random_bytes 16;
  _ ← lib_call CipherLib;
  cipher ← lift (AES_new_cbc key iv);
  let padded_content := pad file_content AES_block_size in
  encrypted_content ← lift (cipher_encrypt cipher padded_content);
  mret (encrypted_content, iv).

Definition generate_sha3_512_hash (content : bytes) : M string :=
  _ ← lib_call DigestLib;
  mret (hexdigest (sha3_512 content)).

Definition generate_sha256_hash (content : string) : M string :=
  _ ← lib_call DigestLib;
  mret (hexdigest (sha256 (encode_utf8 content))).

(** The inverse operation a holder of the key applies to a stored payload:
    [unpad(AES.new(key, AES.MODE_CBC, iv).decrypt(encrypted_content), 16)].
    The repository imports [unpad] and has no decrypting function of its own. *)
Definition decrypt_file_content (key iv encrypted_content : bytes) : result bytes :=
  cipher ← AES_new_cbc key iv;
  padded ← cipher_decrypt cipher encrypted_content;
  unpad padded AES_block_size.

(** What a holder of the key does with a stored record: the two base64
    fields are decoded and the payload is decrypted. *)
Definition open_sealed_record (key : bytes) (doc : document) : result bytes :=
  match doc !! "encryptedFileBase64", doc !! "iv" with
  | Some (VStr payload), Some (VStr iv) =>
      decrypt_file_content key (b64decode (encode_utf8 iv))
        (b64decode (encode_utf8 payload))
  | _, _ => Raise (ValueError "not a sealed record")
  end.

(** *** server.py: seal_bid *)

(** [await file.read()] *)
Definition file_read (file : bytes) : M bytes :=
  _ ← lib_call FileRead; mret file.

Definition seal_bid (file : bytes) (tender_id : string) : M SealBidResponse :=
  try_except
    (file_content ← file_read file;
     '(encrypted_content, iv) ← encrypt_file_content file_content;
     bid_hash ← generate_sha3_512_hash encrypted_content;
     bidder_id ← uuid4;
     timestamp ← now_isoformat;
     let sealed_bid : document :=
       {[ "tenderId" := VStr tender_id;
          "bidHash" := VStr bid_hash;
          "timestamp" := VStr timestamp;
          "bidderId" := VStr bidder_id;
          "status" := VStr "SEALED";
          "encryptedFileBase64" := VStr (decode_utf8 (b64encode encrypted_content));
          "iv" := VStr (decode_utf8 (b64encode iv)) ]} in
     _ ← db_bids_insert_one sealed_bid;
     mret (mkSealBidResponse true bid_hash
             "Bid sealed successfully with AES-256 encryption" bidder_id))
    (λ e, raise (HTTPException 500 ("Failed to seal bid: " +:+ str_exn e))).

(** *** server.py: tender_update *)

Definition tender_update (update : TenderUpdate) : M TenderUpdateResponse :=
  try_except
    (let update_content :=
       tu_tenderId update +:+ ":" +:+ tu_updateContent update +:+ ":" +:+ tu_updatedBy update in
     update_hash ← generate_sha256_hash update_content;
     timestamp ← now_isoformat;
     let tender_update_doc : document :=
       {[ "tenderId" := VStr (tu_tenderId update);
          "updateContent" := VStr (tu_updateContent update);
          "updatedBy" := VStr (tu_updatedBy update);
          "updateHash" := VStr update_hash;
          "timestamp" := VStr timestamp ]} in
     _ ← db_tender_updates_insert_one tender_update_doc;
     mret (mkTenderUpdateResponse true update_hash timestamp))
    (λ e, raise (HTTPException 500 ("Failed to log tender update: " +:+ str_exn e))).

(** * Properties *)

Local Open Scope list_scope.
Local Open Scope nat_scope.

(** ** Octets *)

Lemma xor_byte_cancel (a b : ascii) : xor_byte (xor_byte a b) b = a.
Proof.
  destruct a, b; simpl.
  by rewrite !xorb_assoc, !xorb_nilpotent, !xorb_false_r.
Qed.

Lemma xor_byte_inj_l (a a' b : ascii) : xor_byte a b = xor_byte a' b → a = a'.
Proof.
  intros H. rewrite <- (xor_byte_cancel a b), H. apply xor_byte_cancel.
Qed.

Lemma strxor_length (x y : bytes) : length x = length y → length (strxor x y) = length x.
Proof.
  revert y. induction x as [|a x IH]; intros [|b y]; simpl; try done.
  intros [= H]. by rewrite IH.
Qed.

Lemma strxor_cancel (x y : bytes) : length x = length y → strxor (strxor x y) y = x.
Proof.
  revert y. induction x as [|a x IH]; intros [|b y]; simpl; try done.
  intros [= H]. by rewrite xor_byte_cancel, IH.
Qed.

Lemma bord_bchr (n : nat) : n < 256 → bord (bchr n) = n.
Proof. apply nat_ascii_embedding. Qed.

(** ** Blocks *)

Lemma chunks_fuel_concat (n fuel : nat) (l : bytes) :
  0 < n → length l ≤ fuel → concat (chunks_fuel fuel n l) = l.
Proof.
  intros Hn. revert l. induction fuel as [|fuel IH]; intros l Hl.
  - destruct l; [done | simpl in Hl; lia].
  - destruct l as [|a l]; [done |].
    cbn [chunks_fuel concat]. rewrite IH.
    + apply take_drop.
    + rewrite length_drop. simpl in *. lia.
Qed.

Lemma chunks_fuel_lengths (n fuel : nat) (l : bytes) (k : nat) :
  0 < n → length l ≤ fuel → length l = k * n →
  Forall (λ b, length b = n) (chunks_fuel fuel n l).
Proof.
  intros Hn. revert l k. induction fuel as [|fuel IH]; intros l k Hl Hk.
  - constructor.
  - destruct l as [|a l]; [constructor |].
    cbn [chunks_fuel]. destruct k as [|k]; [simpl in Hk; lia |].
    constructor.
    + rewrite length_take. simpl in *. lia.
    + apply (IH _ k).
      * rewrite length_drop. simpl in *. lia.
      * rewrite length_drop. simpl in *. lia.
Qed.

Lemma chunks_fuel_of_concat (n fuel : nat) (bs : list bytes) :
  0 < n → Forall (λ b, length b = n) bs → length (concat bs) ≤ fuel →
  chunks_fuel fuel n (concat bs) = bs.
Proof.
  intros Hn Hbs. revert fuel. induction Hbs as [|b bs Hb Hbs IH]; intros fuel Hf.
  - by destruct fuel.
  - simpl in *. rewrite length_app in Hf.
    destruct fuel as [|fuel]; [lia |].
    destruct b as [|a b]; [simpl in Hb; lia |].
    change (chunks_fuel (S fuel) n ((a :: b) ++ concat bs))
      with (take n ((a :: b) ++ concat bs)
            :: chunks_fuel fuel n (drop n ((a :: b) ++ concat bs))).
    rewrite take_app_length', drop_app_length' by done.
    rewrite IH; [done |]. simpl in Hf. lia.
Qed.

Lemma chunks_concat (n : nat) (l : bytes) : 0 < n → concat (chunks n l) = l.
Proof. intros. by apply chunks_fuel_concat. Qed.

Lemma chunks_lengths (n : nat) (l : bytes) :
  0 < n → length l `mod` n = 0 → Forall (λ b, length b = n) (chunks n l).
Proof.
  intros Hn Hmod. apply (chunks_fuel_lengths n _ l (length l / n)); [done.. |].
  pose proof (Nat.div_mod_eq (length l) n). lia.
Qed.

Lemma chunks_of_concat (n : nat) (bs : list bytes) :
  0 < n → Forall (λ b, length b = n) bs → chunks n (concat bs) = bs.
Proof. intros. by apply chunks_fuel_of_concat. Qed.

Lemma concat_blocks_length (n : nat) (bs : list bytes) :
  Forall (λ b, length b = n) bs → length (concat bs) = length bs * n.
Proof. induction 1; simpl; [done |]. rewrite length_app. lia. Qed.

(** ** Padding *)

Lemma pad_length_mod (data : bytes) (bs : nat) :
  0 < bs → length (pad data bs) `mod` bs = 0.
Proof.
  intros Hbs. unfold pad. rewrite length_app, length_replicate.
  pose proof (Nat.div_mod_eq (length data) bs) as Hdm.
  pose proof (Nat.mod_upper_bound (length data) bs ltac:(lia)) as Hlt.
  replace (length data + (bs - length data `mod` bs))
    with ((length data / bs + 1) * bs) by lia.
  apply Nat.Div0.mod_mul.
Qed.

Lemma pad_nonempty (data : bytes) (bs : nat) : 0 < bs → 0 < length (pad data bs).
Proof.
  intros Hbs. unfold pad. rewrite length_app, length_replicate.
  pose proof (Nat.mod_upper_bound (length data) bs ltac:(lia)). lia.
Qed.

Lemma last_app_replicate (l : bytes) (n : nat) (x d : ascii) :
  0 < n → List.last (l ++ replicate n x) d = x.
Proof.
  intros Hn. destruct n as [|n]; [lia |].
  rewrite replicate_S_end, app_assoc. apply last_last.
Qed.

Lemma unpad_pad (data : bytes) (bs : nat) :
  0 < bs → bs < 256 → unpad (pad data bs) bs = Ok data.
Proof.
  intros Hbs Hsmall. unfold unpad.
  pose proof (pad_length_mod data bs Hbs) as Hmod.
  pose proof (pad_nonempty data bs Hbs) as Hne.
  rewrite decide_False by lia.
  rewrite decide_False by (intros H; by apply H).
  unfold pad in *. set (n := bs - length data `mod` bs) in *.
  assert (1 ≤ n ≤ bs) as Hn.
  { pose proof (Nat.mod_upper_bound (length data) bs ltac:(lia)). subst n. lia. }
  rewrite last_app_replicate by lia.
  rewrite bord_bchr by lia.
  rewrite length_app, length_replicate in *.
  rewrite decide_False by lia.
  replace (length data + n - n) with (length data) by lia.
  rewrite drop_app_length, take_app_length.
  rewrite decide_False; [done |]. intros H; by apply H.
Qed.

(** ** Hexadecimal text *)

Lemma unhex_hex (a : ascii) :
  bchr (16 * unhex_digit (hex_digit (bord a / 16))
        + unhex_digit (hex_digit (bord a `mod` 16))) = a.
Proof. destruct a as [[] [] [] [] [] [] [] []]; vm_compute; reflexivity. Qed.

Lemma hexdigest_length (b : bytes) : String.length (hexdigest b) = 2 * length b.
Proof.
  induction b as [|a b IH]; cbn [hexdigest String.length length]; [done |].
  rewrite IH. lia.
Qed.

Lemma hex_pair_inj (a a' : ascii) :
  hex_digit (bord a / 16) = hex_digit (bord a' / 16) →
  hex_digit (bord a `mod` 16) = hex_digit (bord a' `mod` 16) → a = a'.
Proof.
  intros H1 H2. rewrite <- (unhex_hex a), <- (unhex_hex a'). by rewrite H1, H2.
Qed.

Lemma hexdigest_inj (b b' : bytes) : hexdigest b = hexdigest b' → b = b'.
Proof.
  revert b'. induction b as [|a b IH]; intros [|a' b']; cbn [hexdigest]; try done.
  intros H. injection H as H1 H2 H3.
  f_equal; [by apply hex_pair_inj | by apply IH].
Qed.

Lemma encode_utf8_inj (s s' : string) : encode_utf8 s = encode_utf8 s' → s = s'.
Proof.
  unfold encode_utf8. intros H.
  rewrite <- (string_of_list_ascii_of_string s), <- (string_of_list_ascii_of_string s').
  by rewrite H.
Qed.

Lemma xor_byte_comm (a b : ascii) : xor_byte a b = xor_byte b a.
Proof. destruct a, b; simpl. f_equal; apply xorb_comm. Qed.

Lemma strxor_inj_r (b x y : bytes) :
  length x = length b → length y = length b → strxor b x = strxor b y → x = y.
Proof.
  revert x y. induction b as [|a b IH]; intros [|c x] [|d y]; simpl; try done.
  intros [= Hx] [= Hy] [= H1 H2]. f_equal; [| by apply IH].
  rewrite !(xor_byte_comm a) in H1. by apply xor_byte_inj_l in H1.
Qed.

(** ** Base64 text *)

Lemma list_ind3 {A} (P : list A → Prop) :
  P [] → (∀ x, P [x]) → (∀ x y, P [x; y]) →
  (∀ x y z l, P l → P (x :: y :: z :: l)) → ∀ l, P l.
Proof.
  intros H0 H1 H2 H3. fix IH 1.
  intros [|x [|y [|z l]]]; [exact H0 | apply H1 | apply H2 | apply H3, IH].
Qed.

Lemma b64_digit_spec (n : nat) :
  n < 64 → unb64_digit (b64_digit n) = n ∧ b64_digit n ≠ "="%char.
Proof.
  intros Hn. do 64 (destruct n as [|n]; [by vm_compute |]). lia.
Qed.

Lemma bord_bound (a : ascii) : bord a < 256.
Proof. apply nat_ascii_bounded. Qed.

Lemma bchr_bord (a : ascii) : bchr (bord a) = a.
Proof. apply ascii_nat_embedding. Qed.

(** Quotients and remainders by constants, named and bounded for [lia]. *)
Ltac divmod_elim :=
  repeat match goal with
  | |- context [Nat.div ?a ?b] =>
      lazymatch a with
      | context [Nat.div _ _] => fail
      | context [Nat.modulo _ _] => fail
      | _ => idtac
      end;
      let H1 := fresh in
      let H2 := fresh in
      pose proof (Nat.div_mod_eq a b) as H1;
      pose proof (Nat.mod_upper_bound a b ltac:(lia)) as H2;
      generalize dependent (Nat.modulo a b); generalize dependent (Nat.div a b); intros
  | |- context [Nat.modulo ?a ?b] =>
      lazymatch a with
      | context [Nat.div _ _] => fail
      | context [Nat.modulo _ _] => fail
      | _ => idtac
      end;
      let H1 := fresh in
      let H2 := fresh in
      pose proof (Nat.div_mod_eq a b) as H1;
      pose proof (Nat.mod_upper_bound a b ltac:(lia)) as H2;
      generalize dependent (Nat.modulo a b); generalize dependent (Nat.div a b); intros
  end.

Ltac divmod := divmod_elim; lia.

Lemma b64_first (x y : nat) :
  x < 256 → y < 256 → x / 4 * 4 + (x `mod` 4 * 16 + y / 16) / 16 = x.
Proof. intros. divmod. Qed.

Lemma b64_second (x y z : nat) :
  x < 256 → y < 256 → z < 256 →
  (x `mod` 4 * 16 + y / 16) `mod` 16 * 16 + (y `mod` 16 * 4 + z / 64) / 4 = y.
Proof. intros. divmod. Qed.

Lemma b64_third (y z : nat) :
  y < 256 → z < 256 → (y `mod` 16 * 4 + z / 64) `mod` 4 * 64 + z `mod` 64 = z.
Proof. intros. divmod. Qed.

Lemma b64_digit_bounds (x y z : nat) :
  x < 256 → y < 256 → z < 256 →
  x / 4 < 64 ∧ x `mod` 4 * 16 + y / 16 < 64 ∧ y `mod` 16 * 4 + z / 64 < 64
  ∧ z `mod` 64 < 64 ∧ x `mod` 4 * 16 < 64 ∧ y `mod` 16 * 4 < 64.
Proof. intros. repeat split; divmod. Qed.

Lemma b64decode_b64encode (b : bytes) : b64decode (b64encode b) = b.
Proof.
  induction b as [|x|x y|x y z b IH] using list_ind3.
  - done.
  - pose proof (bord_bound x) as Hx.
    destruct (b64_digit_bounds (bord x) 0 0 Hx) as (H0 & _ & _ & _ & H1 & _); [lia.. |].
    destruct (b64_digit_spec _ H0) as [E0 _]. destruct (b64_digit_spec _ H1) as [E1 _].
    cbn [b64encode b64decode]. rewrite decide_True by done.
    rewrite E0, E1. f_equal. rewrite <- (bchr_bord x) at 3. f_equal.
    pose proof (b64_first (bord x) 0 Hx). divmod.
  - pose proof (bord_bound x) as Hx. pose proof (bord_bound y) as Hy.
    destruct (b64_digit_bounds (bord x) (bord y) 0 Hx Hy) as (H0 & H1 & _ & _ & _ & H2);
      [lia |].
    destruct (b64_digit_spec _ H0) as [E0 _]. destruct (b64_digit_spec _ H1) as [E1 _].
    destruct (b64_digit_spec _ H2) as [E2 N2].
    cbn [b64encode b64decode]. rewrite decide_False by done. rewrite decide_True by done.
    rewrite E0, E1, E2. f_equal; [| f_equal].
    + rewrite <- (bchr_bord x) at 3. f_equal. by apply b64_first.
    + rewrite <- (bchr_bord y) at 3. f_equal.
      pose proof (b64_second (bord x) (bord y) 0 Hx Hy). divmod.
  - pose proof (bord_bound x) as Hx. pose proof (bord_bound y) as Hy.
    pose proof (bord_bound z) as Hz.
    destruct (b64_digit_bounds (bord x) (bord y) (bord z) Hx Hy Hz)
      as (H0 & H1 & H2 & H3 & _ & _).
    destruct (b64_digit_spec _ H0) as [E0 _]. destruct (b64_digit_spec _ H1) as [E1 _].
    destruct (b64_digit_spec _ H2) as [E2 N2]. destruct (b64_digit_spec _ H3) as [E3 N3].
    cbn [b64encode b64decode]. rewrite !decide_False by done.
    rewrite E0, E1, E2, E3, IH. f_equal; [| f_equal; [| f_equal]].
    + rewrite <- (bchr_bord x) at 3. f_equal. by apply b64_first.
    + rewrite <- (bchr_bord y) at 3. f_equal. by apply b64_second.
    + rewrite <- (bchr_bord z) at 3. f_equal. by apply b64_third.
Qed.

Lemma encode_decode_utf8 (b : bytes) : encode_utf8 (decode_utf8 b) = b.
Proof. apply list_ascii_of_string_of_list_ascii. Qed.

(** ** The monad *)

Lemma bind_Ok_inv {A B} (m : M A) (f : A → M B) (w w' : World) (b : B) :
  (m ≫= f) w = (Ok b, w') → ∃ a w1, m w = (Ok a, w1) ∧ f a w1 = (Ok b, w').
Proof.
  unfold mbind, M_bind. destruct (m w) as [[a|e] w1]; [eauto | done].
Qed.

Lemma bind_Ok {A B} (m : M A) (f : A → M B) (w w1 : World) (a : A) :
  m w = (Ok a, w1) → (m ≫= f) w = f a w1.
Proof. unfold mbind, M_bind. by intros ->. Qed.

Lemma bind_Raise {A B} (m : M A) (f : A → M B) (w w1 : World) (e : exn) :
  m w = (Raise e, w1) → (m ≫= f) w = (Raise e, w1).
Proof. unfold mbind, M_bind. by intros ->. Qed.

Lemma lib_call_None (c : call) (w : World) :
  faults w c = None → lib_call c w = (Ok (), w).
Proof. unfold lib_call. by intros ->. Qed.

Lemma lib_call_Some (c : call) (w : World) (msg : string) :
  faults w c = Some msg → lib_call c w = (Raise (LibraryError c msg), w).
Proof. unfold lib_call. by intros ->. Qed.

(** ** Key derivation *)

(** The key the process derives from its environment. *)
Definition derived_key (w : World) : bytes :=
  ljust 32 "0"%char
    (take 32 (encode_utf8 (default DEV_KEY (environ w !! "ENCRYPTION_KEY"%string)))).

Lemma get_encryption_key_run (w : World) :
  get_encryption_key w = (Ok (derived_key w), w).
Proof. reflexivity. Qed.

Lemma ljust_take_length (n : nat) (fill : ascii) (b : bytes) :
  length (ljust n fill (take n b)) = n.
Proof.
  unfold ljust. rewrite length_app, length_replicate, length_take. lia.
Qed.

Lemma derived_key_length (w : World) : length (derived_key w) = 32.
Proof. apply ljust_take_length. Qed.

(** ** Encryption *)

(** The initialization vector the next call of [get_random_bytes(16)] draws. *)
Definition next_iv (w : World) : bytes := entropy w <$> seq (entropy_pos w) 16.

Lemma next_iv_length (w : World) : length (next_iv w) = 16.
Proof. unfold next_iv. by rewrite length_fmap, length_seq. Qed.

(** The ciphertext of [content] under [key] and [iv]. *)
Definition cbc_ciphertext (key iv content : bytes) : bytes :=
  concat (cbc_encrypt_blocks key iv (chunks AES_block_size (pad content AES_block_size))).

Lemma AES_new_cbc_ok (key iv : bytes) :
  length key = 32 → length iv = 16 → AES_new_cbc key iv = Ok (mkCbcCipher key iv).
Proof.
  intros Hk Hiv. unfold AES_new_cbc. rewrite Hk, Hiv.
  rewrite decide_False by (intros H; apply H; compute_done).
  by rewrite decide_False by (intros H; by apply H).
Qed.

Lemma cipher_encrypt_pad (cipher : CbcCipher) (content : bytes) :
  cipher_encrypt cipher (pad content AES_block_size)
  = Ok (cbc_ciphertext (cipher_key cipher) (cipher_iv cipher) content).
Proof.
  unfold cipher_encrypt.
  rewrite decide_False; [done |].
  intros H; apply H. apply pad_length_mod. unfold AES_block_size. lia.
Qed.

(** [encrypt_file_content] raises only when the entropy source or the cipher
    library does; otherwise it returns the CBC ciphertext of the padded
    content under the derived key, with the sixteen fresh octets as IV. *)
Lemma encrypt_file_content_run (content : bytes) (w : World) :
  encrypt_file_content content w =
    match faults w Urandom with
    | Some msg => (Raise (LibraryError Urandom msg), w)
    | None =>
        let w' := set_entropy_pos (entropy_pos w + 16) w in
        match faults w CipherLib with
        | Some msg => (Raise (LibraryError CipherLib msg), w')
        | None => (Ok (cbc_ciphertext (derived_key w) (next_iv w) content, next_iv w), w')
        end
    end.
Proof.
  unfold encrypt_file_content.
  rewrite (bind_Ok _ _ _ _ _ (get_encryption_key_run w)).
  unfold get_random_bytes.
  destruct (faults w Urandom) as [msg|] eqn:Hu.
  - erewrite bind_Raise; [done |]. erewrite bind_Raise; [done |].
    by apply lib_call_Some.
  - erewrite bind_Ok; [| erewrite bind_Ok; [| by apply lib_call_None]; reflexivity].
    fold (next_iv w). cbn zeta.
    set (w' := set_entropy_pos _ w).
    change (faults w CipherLib) with (faults w' CipherLib).
    destruct (faults w' CipherLib) as [msg|] eqn:Hc.
    + erewrite bind_Raise; [done |]. by apply lib_call_Some.
    + erewrite bind_Ok; [| by apply lib_call_None].
      unfold lift at 1. erewrite bind_Ok; [| rewrite AES_new_cbc_ok;
        [reflexivity | apply derived_key_length | apply next_iv_length]].
      erewrite bind_Ok; [| unfold lift; rewrite cipher_encrypt_pad; reflexivity].
      reflexivity.
Qed.

(** ** Running the external calls *)

Lemma file_read_run (file : bytes) (w : World) :
  file_read file w =
    match faults w FileRead with
    | Some msg => (Raise (LibraryError FileRead msg), w)
    | None => (Ok file, w)
    end.
Proof. unfold file_read, mbind, M_bind, lib_call. by destruct (faults w FileRead). Qed.

Lemma generate_sha3_512_hash_run (content : bytes) (w : World) :
  generate_sha3_512_hash content w =
    match faults w DigestLib with
    | Some msg => (Raise (LibraryError DigestLib msg), w)
    | None => (Ok (hexdigest (sha3_512 content)), w)
    end.
Proof.
  unfold generate_sha3_512_hash, mbind, M_bind, lib_call.
  by destruct (faults w DigestLib).
Qed.

Lemma generate_sha256_hash_run (content : string) (w : World) :
  generate_sha256_hash content w =
    match faults w DigestLib with
    | Some msg => (Raise (LibraryError DigestLib msg), w)
    | None => (Ok (hexdigest (sha256 (encode_utf8 content))), w)
    end.
Proof.
  unfold generate_sha256_hash, mbind, M_bind, lib_call.
  by destruct (faults w DigestLib).
Qed.

Lemma uuid4_run (w : World) :
  uuid4 w =
    match faults w Uuid4 with
    | Some msg => (Raise (LibraryError Uuid4 msg), w)
    | None => (Ok (uuid_str (next_iv w)), set_entropy_pos (entropy_pos w + 16) w)
    end.
Proof. unfold uuid4, mbind, M_bind, lib_call. by destruct (faults w Uuid4). Qed.

Lemma now_isoformat_run (w : World) :
  now_isoformat w =
    match faults w Clock with
    | Some msg => (Raise (LibraryError Clock msg), w)
    | None => (Ok (clock w (clock_pos w)), set_clock_pos (S (clock_pos w)) w)
    end.
Proof. unfold now_isoformat, mbind, M_bind, lib_call. by destruct (faults w Clock). Qed.

Lemma db_bids_insert_one_run (doc : document) (w : World) :
  db_bids_insert_one doc w =
    match faults w InsertBid with
    | Some msg => (Raise (LibraryError InsertBid msg), w)
    | None => append_bid doc w
    end.
Proof.
  unfold db_bids_insert_one, mbind, M_bind, lib_call.
  by destruct (faults w InsertBid).
Qed.

Lemma db_tender_updates_insert_one_run (doc : document) (w : World) :
  db_tender_updates_insert_one doc w =
    match faults w InsertUpdate with
    | Some msg => (Raise (LibraryError InsertUpdate msg), w)
    | None => append_tender_update doc w
    end.
Proof.
  unfold db_tender_updates_insert_one, mbind, M_bind, lib_call.
  by destruct (faults w InsertUpdate).
Qed.

Lemma db_bids_find_sort_to_list_run spec field limit (w : World) :
  db_bids_find_sort_to_list spec field limit w =
    match faults w FindBids with
    | Some msg => (Raise (LibraryError FindBids msg), w)
    | None => read_bids spec field limit w
    end.
Proof.
  unfold db_bids_find_sort_to_list, mbind, M_bind, lib_call.
  by destruct (faults w FindBids).
Qed.

(** ** seal_bid, step by step *)

(** The record [seal_bid] assembles in memory. *)
Definition sealed_document (tender_id bid_hash timestamp bidder_id : string)
    (encrypted_content iv : bytes) : document :=
  {[ "tenderId" := VStr tender_id;
     "bidHash" := VStr bid_hash;
     "timestamp" := VStr timestamp;
     "bidderId" := VStr bidder_id;
     "status" := VStr "SEALED";
     "encryptedFileBase64" := VStr (decode_utf8 (b64encode encrypted_content));
     "iv" := VStr (decode_utf8 (b64encode iv)) ]}.

(** The calls [seal_bid] makes before [insert_one], in order. *)
Definition seal_calls_before_insert : list call :=
  [FileRead; Urandom; CipherLib; DigestLib; Uuid4; Clock].

Definition seal_calls : list call := seal_calls_before_insert ++ [InsertBid].

Ltac run_call lem c :=
  cbv beta iota zeta; rewrite lem;
  cbn [faults set_entropy_pos set_clock_pos set_next_oid set_bids];
  let msg := fresh "msg" in
  let Hf := fresh "Hf" in
  destruct (faults _ c) as [msg|] eqn:Hf.

(** With no fault planned, [seal_bid] returns its success response and the
    world has one more bid: the assembled record, with the store's [_id]. *)
Lemma seal_bid_success (file : bytes) (tender_id : string) (w : World) :
  (∀ c, c ∈ seal_calls → faults w c = None) →
  let ct := cbc_ciphertext (derived_key w) (next_iv w) file in
  let bid_hash := hexdigest (sha3_512 ct) in
  let bidder_id := uuid_str (next_iv (set_entropy_pos (entropy_pos w + 16) w)) in
  let doc := sealed_document tender_id bid_hash (clock w (clock_pos w)) bidder_id
               ct (next_iv w) in
  ∃ w', seal_bid file tender_id w
        = (Ok (mkSealBidResponse true bid_hash
                 "Bid sealed successfully with AES-256 encryption" bidder_id), w')
      ∧ bids w' = bids w ++ [with_id (next_oid w) doc]
      ∧ tender_updates w' = tender_updates w
      ∧ environ w' = environ w
      ∧ log w' = log w.
Proof.
  intros Hnone. cbn zeta.
  assert (∀ c, c ∈ seal_calls → faults w c = None) as H by done.
  unfold seal_bid, try_except, mbind, M_bind.
  rewrite file_read_run, (H FileRead) by compute_done.
  rewrite encrypt_file_content_run, (H Urandom), (H CipherLib)
    by compute_done.
  cbv beta iota zeta. rewrite generate_sha3_512_hash_run. cbn [faults set_entropy_pos].
  rewrite (H DigestLib) by compute_done.
  rewrite uuid4_run. cbn [faults set_entropy_pos].
  rewrite (H Uuid4) by compute_done.
  rewrite now_isoformat_run. cbn [faults set_entropy_pos].
  rewrite (H Clock) by compute_done.
  rewrite db_bids_insert_one_run. cbn [faults set_entropy_pos set_clock_pos].
  rewrite (H InsertBid) by compute_done.
  eexists. split; [reflexivity |]. done.
Qed.

(** Whatever the faults, [seal_bid] either leaves the bids as they were and
    raises, or appends one record and returns. *)
Lemma seal_bid_cases (file : bytes) (tender_id : string) (w : World) :
  (∃ c msg w', c ∈ seal_calls ∧ faults w c = Some msg
     ∧ seal_bid file tender_id w
       = (Raise (HTTPException 500 ("Failed to seal bid: " +:+ msg)), w')
     ∧ bids w' = bids w ∧ tender_updates w' = tender_updates w)
  ∨ (∀ c, c ∈ seal_calls → faults w c = None).
Proof.
  unfold seal_bid, try_except, mbind, M_bind.
  run_call file_read_run FileRead.
  { left. exists FileRead, msg. eexists. split; [compute_done | done]. }
  run_call encrypt_file_content_run Urandom.
  { left. exists Urandom, msg. eexists. split; [compute_done | done]. }
  cbv beta iota zeta. destruct (faults w CipherLib) as [msg|] eqn:Hc.
  { left. exists CipherLib, msg. eexists. split; [compute_done | done]. }
  run_call generate_sha3_512_hash_run DigestLib.
  { left. exists DigestLib, msg. eexists. split; [compute_done | done]. }
  run_call uuid4_run Uuid4.
  { left. exists Uuid4, msg. eexists. split; [compute_done | done]. }
  run_call now_isoformat_run Clock.
  { left. exists Clock, msg. eexists. split; [compute_done | done]. }
  run_call db_bids_insert_one_run InsertBid.
  { left. exists InsertBid, msg. eexists. split; [compute_done | done]. }
  right. intros c Hin. unfold seal_calls, seal_calls_before_insert in Hin.
  cbn [app] in Hin. repeat (apply elem_of_cons in Hin as [-> | Hin]; [done |]).
  by apply elem_of_nil in Hin.
Qed.

Lemma seal_bid_Ok_inv (file : bytes) (tender_id : string) (w w' : World)
    (r : SealBidResponse) :
  seal_bid file tender_id w = (Ok r, w') →
  let ct := cbc_ciphertext (derived_key w) (next_iv w) file in
  let bidder_id := uuid_str (next_iv (set_entropy_pos (entropy_pos w + 16) w)) in
  (∀ c, c ∈ seal_calls → faults w c = None)
  ∧ r = mkSealBidResponse true (hexdigest (sha3_512 ct))
          "Bid sealed successfully with AES-256 encryption" bidder_id
  ∧ bids w' = bids w ++ [with_id (next_oid w)
                           (sealed_document tender_id (hexdigest (sha3_512 ct))
                              (clock w (clock_pos w)) bidder_id ct (next_iv w))]
  ∧ tender_updates w' = tender_updates w
  ∧ environ w' = environ w
  ∧ log w' = log w.
Proof.
  intros Hrun. cbv zeta.
  destruct (seal_bid_cases file tender_id w)
    as [(c & msg & w1 & _ & _ & Hraise & _) | Hnone]; [congruence |].
  split; [done |].
  destruct (seal_bid_success file tender_id w Hnone) as (w2 & Hok & Hb & Hu & He & Hl).
  rewrite Hrun in Hok. by injection Hok as -> ->.
Qed.

Lemma sealed_document_lookup tender_id bid_hash timestamp bidder_id ct iv (n : nat) :
  let doc := with_id n (sealed_document tender_id bid_hash timestamp bidder_id ct iv) in
  doc !! "tenderId" = Some (VStr tender_id)
  ∧ doc !! "bidHash" = Some (VStr bid_hash)
  ∧ doc !! "timestamp" = Some (VStr timestamp)
  ∧ doc !! "bidderId" = Some (VStr bidder_id)
  ∧ doc !! "status" = Some (VStr "SEALED")
  ∧ doc !! "encryptedFileBase64" = Some (VStr (decode_utf8 (b64encode ct)))
  ∧ doc !! "iv" = Some (VStr (decode_utf8 (b64encode iv)))
  ∧ doc !! "_id" = Some (VObjectId n).
Proof. cbv zeta. repeat split; reflexivity. Qed.

(** ** Claims about key derivation *)

(** C6, as the code has it. Key derivation never fails and never signals a
    configuration error: the configured secret, or the development default
    when none is configured, is cut to its first 32 octets and filled on the
    right with the digit 0 up to 32 octets; the key returned is always of
    exactly 256 bits, and the environment is left as it was. *)
Theorem get_encryption_key_total (w : World) :
  let secret := encode_utf8 (default DEV_KEY (environ w !! "ENCRYPTION_KEY"%string)) in
  ∃ key, get_encryption_key w = (Ok key, w)
       ∧ key = take 32 secret ++ replicate (32 - length secret) "0"%char
       ∧ length key = 32.
Proof.
  cbv zeta. exists (derived_key w). split; [done |]. split.
  - unfold derived_key, ljust. f_equal. f_equal. rewrite length_take. lia.
  - apply derived_key_length.
Qed.

(** ** Claims about seal_bid *)

(** C8. A failure of any step that precedes the append (reading the upload,
    drawing the IV, the cipher, the digest, the bidder id, the clock) makes
    [seal_bid] raise its HTTP 500 error and leaves both collections exactly
    as they were; more generally every raising run leaves them unchanged, and
    a returning run has appended exactly one record. *)
Theorem seal_failure_commits_nothing (file : bytes) (tender_id : string) (w : World) :
  ((∃ c, c ∈ seal_calls_before_insert ∧ is_Some (faults w c)) →
     ∃ detail w', seal_bid file tender_id w = (Raise (HTTPException 500 detail), w')
                ∧ bids w' = bids w ∧ tender_updates w' = tender_updates w)
  ∧ (∀ e w', seal_bid file tender_id w = (Raise e, w') →
       bids w' = bids w ∧ tender_updates w' = tender_updates w)
  ∧ (∀ r w', seal_bid file tender_id w = (Ok r, w') →
       ∃ doc, bids w' = bids w ++ [doc] ∧ tender_updates w' = tender_updates w).
Proof.
  destruct (seal_bid_cases file tender_id w)
    as [(c & msg & w1 & Hc & Hf & Hraise & Hb & Hu) | Hnone].
  - split; [| split].
    + intros _. by eexists _, w1.
    + intros e w' He. rewrite Hraise in He. by injection He as <- <-.
    + intros r w' Hr. congruence.
  - destruct (seal_bid_success file tender_id w Hnone) as (w2 & Hok & Hb & Hu & _).
    split; [| split].
    + intros (c & Hc & [msg Hmsg]). rewrite Hnone in Hmsg; [done |].
      apply elem_of_app. by left.
    + intros e w' He. congruence.
    + intros r w' Hr. rewrite Hok in Hr. injection Hr as <- <-. by eexists.
Qed.

(** The first 32 octets of the development default. *)
Definition DEV_KEY_32 : string := "dev_aes_256_key_32_bytes_long_12".

Lemma derived_key_unset (w : World) :
  environ w !! "ENCRYPTION_KEY"%string = None → derived_key w = encode_utf8 DEV_KEY_32.
Proof. unfold derived_key. by intros ->. Qed.

Lemma derived_key_set (w : World) (secret : string) (e : gmap string string) :
  e !! "ENCRYPTION_KEY"%string = Some secret →
  derived_key (set_environ e w) = ljust 32 "0"%char (take 32 (encode_utf8 secret)).
Proof. unfold derived_key. cbn [environ set_environ]. by intros ->. Qed.

(** C7, as the code has it. When no key secret is configured and no
    external call faults, [seal_bid] succeeds under the development fallback
    key (the first 32 octets of the default text); it writes no log record
    and sets no flag: response, stored record and log are exactly those of a
    process whose secret is configured to a text with these 32 leading
    octets. *)
Theorem seal_with_fallback_key (file : bytes) (tender_id : string) (w : World) :
  environ w !! "ENCRYPTION_KEY"%string = None →
  (∀ c, c ∈ seal_calls → faults w c = None) →
  ∃ r w',
    seal_bid file tender_id w = (Ok r, w')
    ∧ sbr_success r = true
    ∧ sbr_bidHash r
      = hexdigest (sha3_512 (cbc_ciphertext (encode_utf8 DEV_KEY_32) (next_iv w) file))
    ∧ log w' = log w
    ∧ ∀ secret, take 32 (encode_utf8 secret) = encode_utf8 DEV_KEY_32 →
        ∃ w'', seal_bid file tender_id
                 (set_environ (<["ENCRYPTION_KEY"%string := secret]> (environ w)) w)
               = (Ok r, w'')
             ∧ bids w'' = bids w' ∧ log w'' = log w'.
Proof.
  intros Hunset Hnone.
  destruct (seal_bid_success file tender_id w Hnone) as (w' & Hok & Hb & Hu & He & Hl).
  eexists _, w'. split; [exact Hok |]. split; [done |].
  rewrite (derived_key_unset w Hunset) in *.
  split; [done |]. split; [done |].
  intros secret Hsecret.
  set (w0 := set_environ _ w).
  destruct (seal_bid_success file tender_id w0 Hnone) as (w'' & Hok' & Hb' & _ & _ & Hl').
  assert (derived_key w0 = encode_utf8 DEV_KEY_32) as Hk.
  { unfold w0. rewrite (derived_key_set w secret) by apply lookup_insert_eq.
    by rewrite Hsecret. }
  rewrite Hk in Hok', Hb'.
  exists w''. split; [exact Hok' |]. split; [by rewrite Hb, Hb' | by rewrite Hl, Hl'].
Qed.

(** ** tender_update, step by step *)

(** The text [tender_update] hashes. *)
Definition update_message (u : TenderUpdate) : string :=
  tu_tenderId u +:+ ":" +:+ tu_updateContent u +:+ ":" +:+ tu_updatedBy u.

Definition update_document (u : TenderUpdate) (update_hash timestamp : string) : document :=
  {[ "tenderId" := VStr (tu_tenderId u);
     "updateContent" := VStr (tu_updateContent u);
     "updatedBy" := VStr (tu_updatedBy u);
     "updateHash" := VStr update_hash;
     "timestamp" := VStr timestamp ]}.

Definition update_calls : list call := [DigestLib; Clock; InsertUpdate].

Lemma tender_update_run (u : TenderUpdate) (w : World) :
  tender_update u w =
    let fail msg w' :=
      (Raise (HTTPException 500 ("Failed to log tender update: " +:+ msg)), w') in
    let update_hash := hexdigest (sha256 (encode_utf8 (update_message u))) in
    let timestamp := clock w (clock_pos w) in
    match faults w DigestLib with
    | Some msg => fail msg w
    | None =>
        match faults w Clock with
        | Some msg => fail msg w
        | None =>
            let w1 := set_clock_pos (S (clock_pos w)) w in
            match faults w InsertUpdate with
            | Some msg => fail msg w1
            | None =>
                (Ok (mkTenderUpdateResponse true update_hash timestamp),
                 (append_tender_update (update_document u update_hash timestamp) w1).2)
            end
        end
    end.
Proof.
  unfold tender_update, try_except, mbind, M_bind.
  run_call generate_sha256_hash_run DigestLib; [done |].
  run_call now_isoformat_run Clock; [done |].
  run_call db_tender_updates_insert_one_run InsertUpdate; done.
Qed.

Lemma tender_update_Ok_inv (u : TenderUpdate) (w w' : World) (r : TenderUpdateResponse) :
  tender_update u w = (Ok r, w') →
  r = mkTenderUpdateResponse true (hexdigest (sha256 (encode_utf8 (update_message u))))
        (clock w (clock_pos w))
  ∧ tender_updates w'
    = tender_updates w
      ++ [with_id (next_oid w)
            (update_document u (hexdigest (sha256 (encode_utf8 (update_message u))))
               (clock w (clock_pos w)))]
  ∧ bids w' = bids w.
Proof.
  rewrite tender_update_run. cbv zeta.
  destruct (faults w DigestLib); [done |].
  destruct (faults w Clock); [done |].
  destruct (faults w InsertUpdate); [done |].
  by intros [= <- <-].
Qed.

(** ** Claims about tender_update *)

(** C3. [tender_update] returns, when none of its external calls faults,
    and whenever it returns the hash in the response and in the stored
    record is the hexadecimal SHA-256 digest of the UTF-8 octets of
    tenderId ":" updateContent ":" updatedBy, in that order. Hence two calls
    with the same three fields give the same hash, in whatever world they
    run, and two calls whose concatenated texts differ give different hashes,
    SHA-256 not colliding on the two texts. *)
Theorem update_hash_spec (u1 u2 : TenderUpdate) (w1 w2 : World) :
  let digest_of u :=
    hexdigest (sha256 (encode_utf8
      (tu_tenderId u +:+ ":" +:+ tu_updateContent u +:+ ":" +:+ tu_updatedBy u))) in
  ((∀ c, c ∈ update_calls → faults w1 c = None) →
     ∃ r1 w1', tender_update u1 w1 = (Ok r1, w1'))
  ∧ ∀ r1 r2 w1' w2',
      tender_update u1 w1 = (Ok r1, w1') →
      tender_update u2 w2 = (Ok r2, w2') →
      tur_updateHash r1 = digest_of u1
      ∧ (∃ doc, tender_updates w1' = tender_updates w1 ++ [doc]
              ∧ doc !! "updateHash" = Some (VStr (tur_updateHash r1)))
      ∧ (u1 = u2 → tur_updateHash r1 = tur_updateHash r2)
      ∧ (update_message u1 ≠ update_message u2 →
         ¬ collision sha256 (encode_utf8 (update_message u1))
                            (encode_utf8 (update_message u2)) →
         tur_updateHash r1 ≠ tur_updateHash r2).
Proof.
  cbv zeta. split.
  - intros Hnone. rewrite tender_update_run. cbv zeta.
    rewrite !Hnone by compute_done. by eexists _, _.
  - intros r1 r2 w1' w2' H1 H2.
    apply tender_update_Ok_inv in H1 as (-> & Hdoc & _).
    apply tender_update_Ok_inv in H2 as (-> & _ & _).
    cbn [tur_updateHash]. split; [done |]. split; [| split].
    + eexists. split; [exact Hdoc | reflexivity].
    + by intros ->.
    + intros Hne Hnc Hhex. apply hexdigest_inj in Hhex. apply Hnc. split; [| done].
      intros Henc. by apply encode_utf8_inj in Henc.
Qed.

(** C10. The updates ("a:b", "c", "x") and ("a", "b:c", "x") differ, yet
    both concatenate to "a:b:c:x": in every world [tender_update] gives
    both the same outcome, and when it returns, the same update hash. The
    hash does not identify the triple of fields. *)
Theorem delimiter_collision :
  let u1 := mkTenderUpdate "a:b" "c" "x" in
  let u2 := mkTenderUpdate "a" "b:c" "x" in
  u1 ≠ u2
  ∧ ∀ w : World,
      (tender_update u1 w).1 = (tender_update u2 w).1
      ∧ ((∀ c, c ∈ update_calls → faults w c = None) →
          ∃ r1 r2 w1 w2,
            tender_update u1 w = (Ok r1, w1) ∧ tender_update u2 w = (Ok r2, w2)
            ∧ tur_updateHash r1 = hexdigest (sha256 (encode_utf8 "a:b:c:x"))
            ∧ tur_updateHash r2 = tur_updateHash r1).
Proof.
  cbv zeta. split; [done |]. intros w.
  rewrite !tender_update_run. cbv zeta.
  change (update_message (mkTenderUpdate "a:b" "c" "x")) with "a:b:c:x"%string.
  change (update_message (mkTenderUpdate "a" "b:c" "x")) with "a:b:c:x"%string.
  split.
  - destruct (faults w DigestLib); [done |].
    destruct (faults w Clock); [done |].
    by destruct (faults w InsertUpdate).
  - intros Hnone. rewrite !Hnone by compute_done.
    by eexists _, _, _, _.
Qed.

(** ** The order of the store *)

Lemma ascii_compare_refl (a : ascii) : Ascii.compare a a = Eq.
Proof. unfold Ascii.compare. apply N.compare_refl. Qed.

Lemma ascii_compare_Lt_trans (a b c : ascii) :
  Ascii.compare a b = Lt → Ascii.compare b c = Lt → Ascii.compare a c = Lt.
Proof.
  unfold Ascii.compare. rewrite !N.compare_lt_iff. apply N.lt_trans.
Qed.

Lemma string_compare_trans (a b c : string) :
  String.compare a b ≠ Gt → String.compare b c ≠ Gt → String.compare a c ≠ Gt.
Proof.
  revert b c. induction a as [|x a IH]; intros [|y b] [|z c]; simpl; try done.
  destruct (Ascii.compare x y) eqn:Exy; [| | done];
    (destruct (Ascii.compare y z) eqn:Eyz; [| | done]).
  - apply Ascii.compare_eq_iff in Exy as ->. apply Ascii.compare_eq_iff in Eyz as ->.
    rewrite ascii_compare_refl. apply IH.
  - apply Ascii.compare_eq_iff in Exy as ->. by rewrite Eyz.
  - apply Ascii.compare_eq_iff in Eyz as <-. by rewrite Exy.
  - by rewrite (ascii_compare_Lt_trans x y z).
Qed.

Lemma string_leb_trans (a b c : string) :
  String.leb a b = true → String.leb b c = true → String.leb a c = true.
Proof.
  unfold String.leb. intros Hab Hbc.
  pose proof (string_compare_trans a b c) as H.
  destruct (String.compare a b); try done;
    destruct (String.compare b c); try done;
    destruct (String.compare a c); try done; by destruct H.
Qed.

Lemma bson_leb_total (x y : option value) : bson_leb x y = true ∨ bson_leb y x = true.
Proof.
  destruct x as [[a|a]|], y as [[b|b]|]; simpl; auto.
  - apply String.leb_total.
  - destruct (Nat.leb_spec a b); [by left |]. right. apply Nat.leb_le. lia.
Qed.

Lemma bson_leb_trans (x y z : option value) :
  bson_leb x y = true → bson_leb y z = true → bson_leb x z = true.
Proof.
  destruct x as [[a|a]|], y as [[b|b]|], z as [[c|c]|]; simpl; try done.
  - apply string_leb_trans.
  - rewrite !Nat.leb_le. lia.
Qed.

Global Instance sorts_before_desc_total field : Total (sorts_before_desc field).
Proof. intros d1 d2. unfold sorts_before_desc. destruct (bson_leb_total (d2 !! field) (d1 !! field)); auto. Qed.

Global Instance sorts_before_desc_trans field : Transitive (sorts_before_desc field).
Proof. intros d1 d2 d3 H12 H23. unfold sorts_before_desc in *. by eapply bson_leb_trans. Qed.

Lemma StronglySorted_take {A} (R : relation A) (n : nat) (l : list A) :
  StronglySorted R l → StronglySorted R (take n l).
Proof.
  intros Hl. revert n. induction Hl as [|x l Hl IH Hx]; intros [|n]; simpl;
    try constructor.
  - apply IH.
  - by apply Forall_take.
Qed.

(** ** Projection and validation *)

Definition audit_fields : gset string :=
  {[ "tenderId"; "bidHash"; "timestamp"; "bidderId"; "status" ]}.

Lemma keeps_audit_projection (k : string) : keeps audit_projection k ↔ k ∈ audit_fields.
Proof.
  unfold keeps, audit_projection, audit_fields. split.
  - intros [H | [_ H]].
    + rewrite !elem_of_cons, elem_of_nil in H.
      destruct H as [H|[H|[H|[H|[H|[H|[]]]]]]]; simplify_eq; compute_done.
    + exfalso. apply H. by left.
  - intros H. left.
    rewrite !elem_of_union, !elem_of_singleton in H.
    destruct H as [[[[-> | ->] | ->] | ->] | ->]; compute_done.
Qed.

Lemma project_lookup_Some spec (d : document) (k : string) (v : value) :
  project spec d !! k = Some v ↔ d !! k = Some v ∧ keeps spec k.
Proof. unfold project. by rewrite map_lookup_filter_Some. Qed.

Lemma project_lookup_keep spec (d : document) (k : string) :
  keeps spec k → project spec d !! k = d !! k.
Proof.
  intros Hk. apply option_eq. intros v. rewrite project_lookup_Some.
  split; [by intros [? _] | by intros ?].
Qed.

Lemma project_audit_dom (d : document) : dom (project audit_projection d) ⊆ audit_fields.
Proof.
  intros k [v Hv]%elem_of_dom. apply project_lookup_Some in Hv as [_ Hk].
  by apply keeps_audit_projection.
Qed.

Lemma dump_dom (e : AuditLogEntry) : dom (dump_AuditLogEntry e) = audit_fields.
Proof.
  unfold dump_AuditLogEntry, audit_fields.
  rewrite !dom_insert_L, dom_singleton_L. compute_done.
Qed.

Lemma validate_AuditLogEntry_Ok (d : document) (e : AuditLogEntry) :
  validate_AuditLogEntry d = Ok e →
  d !! "tenderId" = Some (VStr (ale_tenderId e))
  ∧ d !! "bidHash" = Some (VStr (ale_bidHash e))
  ∧ d !! "timestamp" = Some (VStr (ale_timestamp e))
  ∧ d !! "bidderId" = Some (VStr (ale_bidderId e))
  ∧ d !! "status" = Some (VStr (ale_status e)).
Proof.
  unfold validate_AuditLogEntry, required_str, mbind, result_bind, mret, result_ret.
  destruct (d !! "tenderId") as [[?|?]|]; try done.
  destruct (d !! "bidHash") as [[?|?]|]; try done.
  destruct (d !! "timestamp") as [[?|?]|]; try done.
  destruct (d !! "bidderId") as [[?|?]|]; try done.
  destruct (d !! "status") as [[?|?]|]; try done.
  by intros [= <-].
Qed.

Lemma validate_list_Ok (docs : list document) (entries : list AuditLogEntry) :
  validate_list docs = Ok entries →
  Forall2 (λ d e, validate_AuditLogEntry d = Ok e) docs entries.
Proof.
  revert entries. induction docs as [|d docs IH]; intros entries; simpl.
  - intros [= <-]. constructor.
  - unfold mbind, result_bind, mret, result_ret.
    destruct (validate_AuditLogEntry d) as [e|] eqn:He; [| done].
    destruct (validate_list docs) as [es|]; [| done].
    intros [= <-]. constructor; [done | by apply IH].
Qed.

(** A validated document that has no other field is the entry itself. *)
Lemma validated_document_is_entry (d : document) (e : AuditLogEntry) :
  dom d ⊆ audit_fields → validate_AuditLogEntry d = Ok e →
  d = VStr <$> dump_AuditLogEntry e.
Proof.
  intros Hdom (H1 & H2 & H3 & H4 & H5)%validate_AuditLogEntry_Ok.
  apply map_eq. intros k. rewrite lookup_fmap.
  destruct (decide (k ∈ audit_fields)) as [Hk | Hk].
  - unfold audit_fields in Hk. rewrite !elem_of_union, !elem_of_singleton in Hk.
    destruct Hk as [[[[-> | ->] | ->] | ->] | ->]; by rewrite ?H1, ?H2, ?H3, ?H4, ?H5.
  - assert (d !! k = None) as ->.
    { apply not_elem_of_dom. intros Hin. by apply Hk, Hdom. }
    assert (dump_AuditLogEntry e !! k = None) as ->; [| done].
    apply not_elem_of_dom. by rewrite dump_dom.
Qed.

(** ** get_audit_log, step by step *)

Definition sorted_bids (w : World) : list document :=
  take 1000 (merge_sort (sorts_before_desc "timestamp") (bids w)).

Lemma get_audit_log_run (w : World) :
  get_audit_log w =
    match faults w FindBids with
    | Some msg => (Raise (HTTPException 500 ("Failed to fetch audit log: " +:+ msg)), w)
    | None => (Ok (project audit_projection <$> sorted_bids w), w)
    end.
Proof.
  unfold get_audit_log, try_except, mbind, M_bind.
  rewrite db_bids_find_sort_to_list_run. by destruct (faults w FindBids).
Qed.

Lemma audit_log_route_run (w : World) :
  audit_log_route w =
    match faults w FindBids with
    | Some msg => (Raise (HTTPException 500 ("Failed to fetch audit log: " +:+ msg)), w)
    | None => (validate_list (project audit_projection <$> sorted_bids w), w)
    end.
Proof.
  unfold audit_log_route, mbind, M_bind. rewrite get_audit_log_run.
  by destruct (faults w FindBids).
Qed.

Lemma sorted_bids_sorted (w : World) :
  StronglySorted (sorts_before_desc "timestamp") (sorted_bids w).
Proof. apply StronglySorted_take, StronglySorted_merge_sort; apply _. Qed.

Lemma sorted_bids_length (w : World) : length (sorted_bids w) ≤ 1000.
Proof. unfold sorted_bids. rewrite length_take. lia. Qed.

Lemma projected_bids_sorted (w : World) :
  StronglySorted (sorts_before_desc "timestamp") (project audit_projection <$> sorted_bids w).
Proof.
  eapply StronglySorted_fmap; [| apply sorted_bids_sorted].
  intros d1 d2. unfold sorts_before_desc.
  rewrite !project_lookup_keep; [done | |]; apply keeps_audit_projection;
    compute_done.
Qed.

(** The order of the entries sent: a later or equal timestamp text first. *)
Definition newer_first (e1 e2 : AuditLogEntry) : Prop :=
  String.leb (ale_timestamp e2) (ale_timestamp e1) = true.

Lemma validated_sorted (docs : list document) (entries : list AuditLogEntry) :
  Forall2 (λ d e, validate_AuditLogEntry d = Ok e) docs entries →
  StronglySorted (sorts_before_desc "timestamp") docs →
  StronglySorted newer_first entries.
Proof.
  intros Hv. induction Hv as [|d e docs entries Hde Hv IH]; intros Hs.
  - constructor.
  - apply StronglySorted_inv in Hs as [Hs Hd]. constructor; [by apply IH |].
    apply validate_AuditLogEntry_Ok in Hde as (_ & _ & Ht & _).
    clear IH Hs. induction Hv as [|d' e' docs entries Hde' Hv IH]; [constructor |].
    apply Forall_cons in Hd as [Hd Hds]. constructor; [| by apply IH].
    apply validate_AuditLogEntry_Ok in Hde' as (_ & _ & Ht' & _).
    unfold sorts_before_desc in Hd. rewrite Ht, Ht' in Hd. exact Hd.
Qed.

(** ** Stores written by seal_bid *)

(** A record the audit route can send: the five fields, as strings. *)
Definition audit_ready (d : document) : Prop :=
  ∀ field, field ∈ audit_fields → ∃ s, d !! field = Some (VStr s).

Lemma sealed_document_ready tender_id bid_hash timestamp bidder_id ct iv (n : nat) :
  audit_ready (with_id n (sealed_document tender_id bid_hash timestamp bidder_id ct iv)).
Proof.
  intros field Hf. unfold audit_fields in Hf.
  rewrite !elem_of_union, !elem_of_singleton in Hf.
  destruct Hf as [[[[-> | ->] | ->] | ->] | ->]; by eexists.
Qed.

Lemma validate_ready (d : document) :
  audit_ready d → ∃ e, validate_AuditLogEntry (project audit_projection d) = Ok e.
Proof.
  intros Hd. unfold validate_AuditLogEntry, required_str.
  assert (∀ field, field ∈ audit_fields →
            ∃ s, project audit_projection d !! field = Some (VStr s)) as Hp.
  { intros field Hf. rewrite project_lookup_keep by by apply keeps_audit_projection.
    by apply Hd. }
  destruct (Hp "tenderId"%string ltac:(compute_done)) as [s1 ->].
  destruct (Hp "bidHash"%string ltac:(compute_done)) as [s2 ->].
  destruct (Hp "timestamp"%string ltac:(compute_done)) as [s3 ->].
  destruct (Hp "bidderId"%string ltac:(compute_done)) as [s4 ->].
  destruct (Hp "status"%string ltac:(compute_done)) as [s5 ->].
  by eexists.
Qed.

Lemma validate_list_ready (ds : list document) :
  Forall audit_ready ds → ∃ es, validate_list (project audit_projection <$> ds) = Ok es.
Proof.
  induction 1 as [|d ds Hd Hds [es IH]]; [by eexists |].
  destruct (validate_ready d Hd) as [e He].
  cbn [fmap list_fmap validate_list]. fold (fmap (M:=list) (project audit_projection) ds).
  rewrite He, IH. by eexists.
Qed.

Lemma sorted_bids_ready (w : World) :
  Forall audit_ready (bids w) → Forall audit_ready (sorted_bids w).
Proof.
  intros Hw. apply Forall_take.
  by rewrite (merge_sort_Permutation (sorts_before_desc "timestamp") (bids w)).
Qed.

(** [seal_bid] keeps the store listable, however it ends. *)
Lemma seal_bid_keeps_ready (file : bytes) (tender_id : string) (w : World) :
  Forall audit_ready (bids w) →
  Forall audit_ready (bids (seal_bid file tender_id w).2).
Proof.
  intros Hw.
  destruct (seal_bid file tender_id w) as [[r | e] w'] eqn:Hrun; cbn [snd].
  - apply seal_bid_Ok_inv in Hrun as (_ & _ & -> & _).
    apply Forall_app. split; [done |]. apply Forall_singleton, sealed_document_ready.
  - destruct (seal_bid_cases file tender_id w)
      as [(c & msg & w1 & _ & _ & Hraise & Hb & _) | Hnone].
    + rewrite Hrun in Hraise. injection Hraise as _ <-. by rewrite Hb.
    + destruct (seal_bid_success file tender_id w Hnone) as (w2 & Hok & _). congruence.
Qed.

(** ** Claims about the audit trail *)

(** C4. Every item [get_audit_log] returns is a projection of a stored
    record onto tenderId, bidHash, timestamp, bidderId and status: it holds
    no other field, so neither the encrypted payload nor the IV; and every
    entry the route sends has exactly these five fields, being one of those
    items unchanged. The handler returns whenever the store answers, and the
    route sends its entries whenever the stored records have the five
    fields, as the records [seal_bid] writes do. *)
Theorem audit_entries_fields (w : World) :
  (faults w FindBids = None → ∃ docs, get_audit_log w = (Ok docs, w))
  ∧ (faults w FindBids = None → Forall audit_ready (bids w) →
       ∃ entries, audit_log_route w = (Ok entries, w))
  ∧ (∀ docs w', get_audit_log w = (Ok docs, w') →
       Forall (λ d : document, dom d ⊆ audit_fields
                 ∧ d !! "encryptedFileBase64" = None ∧ d !! "iv" = None) docs)
  ∧ (∀ entries w', audit_log_route w = (Ok entries, w') →
       Forall (λ e, dom (dump_AuditLogEntry e) = audit_fields
                    ∧ dump_AuditLogEntry e !! "encryptedFileBase64" = None
                    ∧ dump_AuditLogEntry e !! "iv" = None) entries
       ∧ ∃ docs, get_audit_log w = (Ok docs, w')
               ∧ Forall2 (λ (d : document) e, d = VStr <$> dump_AuditLogEntry e)
                   docs entries).
Proof.
  rewrite audit_log_route_run, get_audit_log_run.
  destruct (faults w FindBids) as [msg|]; (split; [| split; [| split]]); try done.
  - intros _. by eexists.
  - intros _ Hready.
    destruct (validate_list_ready _ (sorted_bids_ready w Hready)) as [es ->].
    by eexists.
  - intros docs w' [= <- <-]. apply Forall_fmap, Forall_forall. intros d _.
    pose proof (project_audit_dom d) as Hdom. split; [done |].
    split; apply not_elem_of_dom; intros Hin; apply Hdom in Hin;
      revert Hin; compute_done.
  - intros entries w' [= Hv <-]. apply validate_list_Ok in Hv. split.
    + apply Forall_forall. intros e _. split; [apply dump_dom |].
      split; apply not_elem_of_dom; rewrite dump_dom; compute_done.
    + eexists. split; [done |].
      apply Forall2_fmap_l. apply Forall2_fmap_l in Hv.
      eapply Forall2_impl; [exact Hv |]. intros d e He. cbn beta in *.
      apply validated_document_is_entry; [apply project_audit_dom | done].
Qed.

(** C5. Whatever the order in which the records were appended, the items
    [get_audit_log] returns, and the entries the route sends, stand in
    non-increasing order of their timestamp; there are at most 1000 of them,
    taken from the front of a sorted rearrangement of the stored records;
    and the read leaves the world, the stored records included, exactly as it
    was, whether it returns or raises. *)
Theorem audit_log_sorted_limited_pure (w : World) :
  (∀ docs w', get_audit_log w = (Ok docs, w') →
     StronglySorted (sorts_before_desc "timestamp") docs
     ∧ length docs ≤ 1000
     ∧ ∃ sorted, sorted ≡ₚ bids w
               ∧ docs = project audit_projection <$> take 1000 sorted)
  ∧ (∀ entries w', audit_log_route w = (Ok entries, w') →
       StronglySorted newer_first entries ∧ length entries ≤ 1000)
  ∧ (∀ r w', get_audit_log w = (r, w') → w' = w)
  ∧ (∀ r w', audit_log_route w = (r, w') → w' = w).
Proof.
  rewrite audit_log_route_run, get_audit_log_run.
  destruct (faults w FindBids) as [msg|]; (split; [| split; [| split]]); try done;
    try (by intros r w' [= _ <-]).
  - intros docs w' [= <- <-]. split; [apply projected_bids_sorted |]. split.
    + rewrite length_fmap. apply sorted_bids_length.
    + exists (merge_sort (sorts_before_desc "timestamp") (bids w)).
      split; [apply merge_sort_Permutation | done].
  - intros entries w' [= Hv <-]. apply validate_list_Ok in Hv. split.
    + eapply validated_sorted; [exact Hv | apply projected_bids_sorted].
    + apply Forall2_length in Hv. rewrite <- Hv, length_fmap.
      apply sorted_bids_length.
Qed.

Section DigestContract.

(** SHA3-512 returns 64 octets. *)
Hypothesis sha3_512_length : ∀ message, length (sha3_512 message) = 64.

(** C2. A seal operation returns when no external call faults, and for
    every seal operation that returns, the fingerprint in the response and in
    the stored record is the hexadecimal text of the SHA3-512 digest of the
    encrypted payload, the octets the record stores in base64 and
    [encrypt_file_content] returned, not of the uploaded content; it has 128
    characters, and the IV stored with it has exactly 16 octets. *)
Theorem seal_fingerprint (file : bytes) (tender_id : string) (w : World) :
  ((∀ c, c ∈ seal_calls → faults w c = None) →
     ∃ r w', seal_bid file tender_id w = (Ok r, w'))
  ∧ ∀ r w', seal_bid file tender_id w = (Ok r, w') →
      ∃ (payload iv_text : string) (doc : document),
        let ct := b64decode (encode_utf8 payload) in
        let iv := b64decode (encode_utf8 iv_text) in
        bids w' = bids w ++ [doc]
        ∧ doc !! "encryptedFileBase64" = Some (VStr payload)
        ∧ doc !! "iv" = Some (VStr iv_text)
        ∧ doc !! "bidHash" = Some (VStr (sbr_bidHash r))
        ∧ (encrypt_file_content file w).1 = Ok (ct, iv)
        ∧ sbr_bidHash r = hexdigest (sha3_512 ct)
        ∧ String.length (sbr_bidHash r) = 128
        ∧ length iv = 16.
Proof using sha3_512_length.
  split.
  - intros Hnone.
    destruct (seal_bid_success file tender_id w Hnone) as (w' & Hrun & _).
    by eexists _, w'.
  - intros r w' Hrun. apply seal_bid_Ok_inv in Hrun as (Hnone & -> & Hb & _).
    match type of Hb with context [with_id ?n (sealed_document ?t ?h ?ts ?id ?ct ?iv)] =>
      pose proof (sealed_document_lookup t h ts id ct iv n)
        as (_ & Hh & _ & _ & _ & He & Hi & _)
    end.
    eexists _, _, _. cbv zeta.
    split; [exact Hb |]. split; [exact He |]. split; [exact Hi |].
    split; [exact Hh |].
    rewrite !encode_decode_utf8, !b64decode_b64encode. cbn [sbr_bidHash].
    split.
    { rewrite encrypt_file_content_run.
      by rewrite (Hnone Urandom), (Hnone CipherLib) by compute_done. }
    split; [done |]. split; [| apply next_iv_length].
    by rewrite hexdigest_length, sha3_512_length.
Qed.

End DigestContract.

Section CipherContract.

(** AES is a keyed permutation of sixteen-octet blocks. *)
Hypothesis aes_block_length : ∀ key block,
  length block = 16 → length (aes_encrypt_block key block) = 16.
Hypothesis aes_decrypt_encrypt : ∀ key block,
  length key = 32 → length block = 16 →
  aes_decrypt_block key (aes_encrypt_block key block) = block.

Lemma cbc_encrypt_blocks_lengths (key prev : bytes) (blocks : list bytes) :
  length prev = 16 → Forall (λ b, length b = 16) blocks →
  Forall (λ b, length b = 16) (cbc_encrypt_blocks key prev blocks).
Proof using aes_block_length.
  intros Hp Hb. revert prev Hp. induction Hb as [|b bs Hb Hbs IH]; intros prev Hp.
  - constructor.
  - simpl. assert (length (aes_encrypt_block key (strxor b prev)) = 16) as Hc.
    { apply aes_block_length. rewrite strxor_length; congruence. }
    constructor; [done | by apply IH].
Qed.

Lemma cbc_blocks_roundtrip (key prev : bytes) (blocks : list bytes) :
  length key = 32 → length prev = 16 → Forall (λ b, length b = 16) blocks →
  cbc_decrypt_blocks key prev (cbc_encrypt_blocks key prev blocks) = blocks.
Proof using aes_block_length aes_decrypt_encrypt.
  intros Hk Hp Hb. revert prev Hp. induction Hb as [|b bs Hb Hbs IH]; intros prev Hp.
  - done.
  - simpl. assert (length (strxor b prev) = 16) as Hx.
    { rewrite strxor_length; congruence. }
    rewrite aes_decrypt_encrypt, strxor_cancel by congruence.
    rewrite IH; [done |]. by apply aes_block_length.
Qed.

Lemma decrypt_cbc_ciphertext (key iv content : bytes) :
  length key = 32 → length iv = 16 →
  decrypt_file_content key iv (cbc_ciphertext key iv content) = Ok content.
Proof using aes_block_length aes_decrypt_encrypt.
  intros Hk Hiv. unfold decrypt_file_content.
  rewrite AES_new_cbc_ok by done. cbn [mbind result_bind].
  pose proof (chunks_lengths AES_block_size (pad content AES_block_size)
                ltac:(unfold AES_block_size; lia)
                (pad_length_mod content AES_block_size ltac:(unfold AES_block_size; lia)))
    as Hch.
  pose proof (cbc_encrypt_blocks_lengths key iv _ Hiv Hch) as Hct.
  unfold cipher_decrypt, cbc_ciphertext. cbn [cipher_key cipher_iv].
  rewrite decide_False.
  2:{ intros H; apply H. rewrite (concat_blocks_length 16) by done.
      apply Nat.Div0.mod_mul. }
  rewrite chunks_of_concat by (done || (unfold AES_block_size; lia)).
  rewrite cbc_blocks_roundtrip by done.
  rewrite chunks_concat by (unfold AES_block_size; lia).
  apply unpad_pad; unfold AES_block_size; lia.
Qed.

Lemma derived_key_environ (w w' : World) :
  environ w' = environ w → derived_key w' = derived_key w.
Proof. unfold derived_key. by intros ->. Qed.

(** C1. Round trip: whatever [encrypt_file_content] returns for a content
    decrypts, under the key the process derives and the IV returned with it
    (AES-256-CBC decryption, then unpadding), to exactly that content; it
    does return when neither the entropy source nor the cipher library
    faults; and the record a returning [seal_bid] stores opens, under the
    process key, to the uploaded content. *)
Theorem encrypt_decrypt_roundtrip (content : bytes) (w : World) :
  (faults w Urandom = None → faults w CipherLib = None →
     ∃ ct iv w', encrypt_file_content content w = (Ok (ct, iv), w'))
  ∧ (∀ ct iv w', encrypt_file_content content w = (Ok (ct, iv), w') →
       get_encryption_key w' = (Ok (derived_key w), w')
       ∧ decrypt_file_content (derived_key w) iv ct = Ok content)
  ∧ (∀ tender_id r w', seal_bid content tender_id w = (Ok r, w') →
       ∃ doc, bids w' = bids w ++ [doc]
            ∧ get_encryption_key w' = (Ok (derived_key w), w')
            ∧ open_sealed_record (derived_key w) doc = Ok content).
Proof using aes_block_length aes_decrypt_encrypt.
  rewrite encrypt_file_content_run. split; [| split].
  - intros -> ->. by eexists _, _, _.
  - intros ct iv w'.
    destruct (faults w Urandom); [done |]. cbv zeta.
    destruct (faults w CipherLib); [done |].
    intros [= <- <- <-]. split; [done |].
    apply decrypt_cbc_ciphertext; [apply derived_key_length | apply next_iv_length].
  - intros tender_id r w' Hrun.
    apply seal_bid_Ok_inv in Hrun as (_ & _ & Hb & _ & He & _).
    eexists. split; [exact Hb |]. split.
    { rewrite get_encryption_key_run. by rewrite (derived_key_environ w w' He). }
    unfold open_sealed_record.
    match goal with |- context [with_id ?n (sealed_document ?t ?h ?ts ?id ?ct ?iv)] =>
      pose proof (sealed_document_lookup t h ts id ct iv n)
        as (_ & _ & _ & _ & _ & -> & -> & _)
    end.
    rewrite !encode_decode_utf8, !b64decode_b64encode.
    apply decrypt_cbc_ciphertext; [apply derived_key_length | apply next_iv_length].
Qed.

Lemma cbc_ciphertext_iv_inj (key iv1 iv2 content : bytes) :
  length key = 32 → length iv1 = 16 → length iv2 = 16 →
  cbc_ciphertext key iv1 content = cbc_ciphertext key iv2 content → iv1 = iv2.
Proof using aes_block_length aes_decrypt_encrypt.
  intros Hk H1 H2. unfold cbc_ciphertext.
  assert (0 < AES_block_size) as Hpos by (unfold AES_block_size; lia).
  pose proof (chunks_lengths AES_block_size (pad content AES_block_size) Hpos
                (pad_length_mod content AES_block_size Hpos)) as Hch.
  pose proof (chunks_concat AES_block_size (pad content AES_block_size) Hpos) as Hcat.
  pose proof (pad_nonempty content AES_block_size Hpos) as Hne.
  destruct (chunks AES_block_size (pad content AES_block_size)) as [|b rest].
  { simpl in Hcat. rewrite <- Hcat in Hne. simpl in Hne. lia. }
  apply Forall_cons in Hch as [Hb Hrest]. unfold AES_block_size in Hb.
  cbn [cbc_encrypt_blocks concat]. intros Heq.
  apply app_inj_1 in Heq as [Heq _].
  2:{ rewrite !aes_block_length; [done | |]; rewrite strxor_length; congruence. }
  apply (f_equal (aes_decrypt_block key)) in Heq.
  rewrite !aes_decrypt_encrypt in Heq by (done || (rewrite strxor_length; congruence)).
  apply strxor_inj_r in Heq; congruence.
Qed.

(** X26. Two seal operations on one content, under one process key, whose IVs
    differ, store different ciphertexts; each fingerprint is the SHA3-512
    hexadecimal digest of its own operation's ciphertext; and the two
    fingerprints differ, SHA3-512 not colliding on these two ciphertexts. *)
Theorem reseal_changes_fingerprint (file : bytes) (tender_a tender_b : string)
    (wa wb wa' wb' : World) (ra rb : SealBidResponse) :
  seal_bid file tender_a wa = (Ok ra, wa') →
  seal_bid file tender_b wb = (Ok rb, wb') →
  derived_key wa = derived_key wb →
  next_iv wa ≠ next_iv wb →
  ¬ collision sha3_512 (cbc_ciphertext (derived_key wa) (next_iv wa) file)
                       (cbc_ciphertext (derived_key wb) (next_iv wb) file) →
  cbc_ciphertext (derived_key wa) (next_iv wa) file
    ≠ cbc_ciphertext (derived_key wb) (next_iv wb) file
  ∧ sbr_bidHash ra = hexdigest (sha3_512 (cbc_ciphertext (derived_key wa) (next_iv wa) file))
  ∧ sbr_bidHash rb = hexdigest (sha3_512 (cbc_ciphertext (derived_key wb) (next_iv wb) file))
  ∧ sbr_bidHash ra ≠ sbr_bidHash rb.
Proof using aes_block_length aes_decrypt_encrypt.
  intros Ha Hb Hkey Hiv Hnc.
  apply seal_bid_Ok_inv in Ha as (_ & -> & _).
  apply seal_bid_Ok_inv in Hb as (_ & -> & _).
  cbn [sbr_bidHash].
  assert (cbc_ciphertext (derived_key wa) (next_iv wa) file
          ≠ cbc_ciphertext (derived_key wb) (next_iv wb) file) as Hct.
  { rewrite <- Hkey. intros Heq. apply Hiv.
    apply (cbc_ciphertext_iv_inj (derived_key wa) _ _ file);
      [apply derived_key_length | apply next_iv_length | apply next_iv_length | done]. }
  repeat split; [done |].
  intros Hhex. apply hexdigest_inj in Hhex. apply Hnc. by split.
Qed.

End CipherContract.

(** * Further properties of encryption_utils.py and of the handlers

    What the code shows beyond the statements above: its outcomes on every
    input and fault, the shape of what it stores, what the fingerprint does
    and does not cover, and how the handlers compose. *)

(** ** Auxiliary facts on texts and blocks *)

Lemma string_length_app (s1 s2 : string) :
  String.length (s1 +:+ s2) = String.length s1 + String.length s2.
Proof. induction s1 as [|a s1 IH]; simpl; [done | by rewrite IH]. Qed.

Lemma encode_utf8_app (s1 s2 : string) :
  encode_utf8 (s1 +:+ s2) = encode_utf8 s1 ++ encode_utf8 s2.
Proof. induction s1 as [|a s1 IH]; simpl; [done | by rewrite IH]. Qed.

Lemma decode_encode_utf8 (s : string) : decode_utf8 (encode_utf8 s) = s.
Proof. apply string_of_list_ascii_of_string. Qed.

Lemma encode_utf8_length (s : string) : length (encode_utf8 s) = String.length s.
Proof. induction s as [|a s IH]; simpl; [done | by rewrite IH]. Qed.

Lemma xor_byte_shift (a i d : ascii) :
  xor_byte (xor_byte a d) (xor_byte i d) = xor_byte a i.
Proof.
  destruct a, i, d; simpl. f_equal; btauto.
Qed.

Lemma strxor_shift (p iv delta : bytes) :
  length p = length delta → length iv = length delta →
  strxor (strxor p delta) (strxor iv delta) = strxor p iv.
Proof.
  revert iv delta. induction p as [|a p IH]; intros [|i iv] [|d delta]; simpl; try done.
  intros [= Hp] [= Hi]. by rewrite xor_byte_shift, IH.
Qed.

Lemma xor_byte_zero_r (a : ascii) : xor_byte a zero = a.
Proof. destruct a; simpl. by rewrite !xorb_false_r. Qed.

Lemma strxor_zero_r (p : bytes) (n : nat) :
  length p = n → strxor p (replicate n zero) = p.
Proof.
  revert n. induction p as [|a p IH]; intros [|n]; simpl; try done.
  intros [= Hp]. by rewrite xor_byte_zero_r, IH.
Qed.

(** A text of whole blocks splits into its first block and the blocks of
    the rest. *)
Lemma chunks_cons (n : nat) (block rest : bytes) :
  0 < n → length block = n → length rest `mod` n = 0 →
  chunks n (block ++ rest) = block :: chunks n rest.
Proof.
  intros Hn Hb Hr.
  rewrite <- (chunks_concat n rest Hn) at 1.
  change (block ++ concat (chunks n rest)) with (concat (block :: chunks n rest)).
  apply chunks_of_concat; [done |]. constructor; [done | by apply chunks_lengths].
Qed.

Lemma pad_app (head tail : bytes) (bs : nat) :
  length head = bs → 0 < bs →
  pad (head ++ tail) bs = head ++ pad tail bs.
Proof.
  intros Hh Hbs. unfold pad. rewrite length_app, Hh, <- app_assoc.
  replace ((bs + length tail) `mod` bs) with (length tail `mod` bs); [done |].
  rewrite <- (Nat.Div0.mod_add (length tail) 1 bs). f_equal. lia.
Qed.

Lemma pad_length (data : bytes) (bs : nat) :
  0 < bs → length (pad data bs) = bs * (length data / bs + 1).
Proof.
  intros Hbs. unfold pad. rewrite length_app, length_replicate.
  pose proof (Nat.div_mod_eq (length data) bs) as Hdm.
  pose proof (Nat.mod_upper_bound (length data) bs ltac:(lia)) as Hlt.
  lia.
Qed.

Lemma cbc_encrypt_blocks_count (key prev : bytes) (blocks : list bytes) :
  length (cbc_encrypt_blocks key prev blocks) = length blocks.
Proof.
  revert prev. induction blocks as [|b blocks IH]; intros prev; simpl; [done |].
  by rewrite IH.
Qed.

(** ** Texts with a UTF-8 encoding

    A text is held as its octets. [s.encode('utf-8')] raises on a text
    that holds a lone surrogate, and so does [print] on a UTF-8 terminal;
    the octets of a lone surrogate U+D800..U+DFFF are ED A0..BF 80..BF,
    which well-formed UTF-8 leaves out, as it leaves out the octets the
    environment decoder escapes. [valid_utf8] tests well-formedness octet by
    octet, after table 3-7 of the Unicode standard. *)

Inductive utf8_state :=
  | U_start        (* between two characters *)
  | U_tail1        (* one more continuation octet 80..BF *)
  | U_tail2        (* two more *)
  | U_tail3        (* three more *)
  | U_E0           (* after E0: A0..BF, then one more *)
  | U_ED           (* after ED: 80..9F, then one more *)
  | U_F0           (* after F0: 90..BF, then two more *)
  | U_F4.          (* after F4: 80..8F, then two more *)

Definition octet_in (lo hi : nat) (c : ascii) : bool :=
  (lo <=? nat_of_ascii c) && (nat_of_ascii c <=? hi).

Definition utf8_step (q : utf8_state) (c : ascii) : option utf8_state :=
  match q with
  | U_start =>
      if octet_in 0 127 c then Some U_start
      else if octet_in 194 223 c then Some U_tail1
      else if octet_in 224 224 c then Some U_E0
      else if octet_in 237 237 c then Some U_ED
      else if octet_in 225 239 c then Some U_tail2
      else if octet_in 240 240 c then Some U_F0
      else if octet_in 241 243 c then Some U_tail3
      else if octet_in 244 244 c then Some U_F4
      else None
  | U_tail1 => if octet_in 128 191 c then Some U_start else None
  | U_tail2 => if octet_in 128 191 c then Some U_tail1 else None
  | U_tail3 => if octet_in 128 191 c then Some U_tail2 else None
  | U_E0 => if octet_in 160 191 c then Some U_tail1 else None
  | U_ED => if octet_in 128 159 c then Some U_tail1 else None
  | U_F0 => if octet_in 144 191 c then Some U_tail2 else None
  | U_F4 => if octet_in 128 143 c then Some U_tail2 else None
  end.

Fixpoint utf8_run (q : utf8_state) (s : string) : option utf8_state :=
  match s with
  | EmptyString => Some q
  | String c s' =>
      match utf8_step q c with
      | Some q' => utf8_run q' s'
      | None => None
      end
  end.

Definition valid_utf8 (s : string) : bool :=
  match utf8_run U_start s with
  | Some U_start => true
  | _ => false
  end.

Lemma utf8_run_app (q : utf8_state) (a b : string) :
  utf8_run q (a +:+ b)
  = match utf8_run q a with
    | Some q' => utf8_run q' b
    | None => None
    end.
Proof.
  revert q. induction a as [|c a IH]; intros q; [done |].
  change (String c a +:+ b) with (String c (a +:+ b)). cbn [utf8_run].
  destruct (utf8_step q c); [apply IH | done].
Qed.

(** After a text that has an encoding, what follows decides. *)
Lemma valid_utf8_app (a b : string) :
  valid_utf8 a = true → valid_utf8 (a +:+ b) = valid_utf8 b.
Proof.
  unfold valid_utf8. rewrite utf8_run_app.
  by destruct (utf8_run U_start a) as [[] |].
Qed.

Lemma valid_utf8_app_true (a b : string) :
  valid_utf8 a = true → valid_utf8 b = true → valid_utf8 (a +:+ b) = true.
Proof. intros Ha Hb. by rewrite valid_utf8_app. Qed.

Lemma valid_utf8_digit (n : N) (s : string) :
  valid_utf8 s = true → valid_utf8 (String (pretty_N_char n) s) = true.
Proof.
  intros Hs. change (String ?c s) with (String c "" +:+ s).
  rewrite valid_utf8_app; [done |]. unfold pretty_N_char. by repeat case_match.
Qed.

Lemma valid_utf8_pretty_N_go (n : N) (s : string) :
  valid_utf8 s = true → valid_utf8 (pretty_N_go n s) = true.
Proof.
  revert s. induction (N.lt_wf_0 n) as [n _ IH]; intros s Hs.
  destruct (decide (n = 0)%N) as [-> | Hn]; [by rewrite pretty_N_go_0 |].
  rewrite pretty_N_go_step by lia. apply IH; [apply N.div_lt; lia |].
  by apply valid_utf8_digit.
Qed.

(** A number in decimal has an encoding. *)
Lemma valid_utf8_pretty (n : nat) : valid_utf8 (pretty n) = true.
Proof.
  unfold pretty, pretty_nat, pretty, pretty_N.
  case_decide; [done |]. by apply valid_utf8_pretty_N_go.
Qed.

(** ** Outcomes of the handlers *)

(** The message of the first call of a list that the fault plan makes raise. *)
Fixpoint first_fault (w : World) (calls : list call) : option string :=
  match calls with
  | [] => None
  | c :: calls' =>
      match faults w c with
      | Some msg => Some msg
      | None => first_fault w calls'
      end
  end.

Lemma first_fault_None (w : World) (calls : list call) :
  first_fault w calls = None ↔ ∀ c, c ∈ calls → faults w c = None.
Proof.
  induction calls as [|c calls IH]; simpl.
  - split; [| done]. intros _ c Hc. by apply elem_of_nil in Hc.
  - destruct (faults w c) as [msg|] eqn:Hc.
    + split; [done |]. intros H. assert (c ∈ c :: calls) as Hin by by left. apply H in Hin. congruence.
    + rewrite IH. split.
      * intros H c' [-> | Hin]%elem_of_cons; [done | by apply H].
      * intros H c' Hin. apply H. by right.
Qed.

(** The secret the process is configured with, if any, is a text with a
    UTF-8 encoding. (The environment decoder escapes other octets to lone
    surrogates, on which [key.encode('utf-8')] raises.) *)
Definition secret_has_encoding (w : World) : Prop :=
  ∀ secret, environ w !! "ENCRYPTION_KEY" = Some secret → valid_utf8 secret = true.

(** X1. Once the route has taken the form and calls it, [seal_bid] turns
    down no file and no tender id. With a secret that has a UTF-8 encoding,
    or none, it fails only when an external call raises, with HTTP status
    500 and the detail "Failed to seal bid: " followed by the message of the
    first call that raised; the checks of the cipher library on key length,
    IV length and block alignment never fire, also for the empty file.
    Otherwise it returns success, the fixed message, the fingerprint of the
    ciphertext and the fresh bidder id. *)
Theorem seal_bid_outcome (file : bytes) (tender_id : string) (w : World) :
  secret_has_encoding w →
  (seal_bid file tender_id w).1
  = match first_fault w seal_calls with
    | Some msg => Raise (HTTPException 500 ("Failed to seal bid: " +:+ msg))
    | None =>
        Ok (mkSealBidResponse true
              (hexdigest (sha3_512 (cbc_ciphertext (derived_key w) (next_iv w) file)))
              "Bid sealed successfully with AES-256 encryption"
              (uuid_str (next_iv (set_entropy_pos (entropy_pos w + 16) w))))
    end.
Proof.
  intros _. unfold seal_bid, try_except, mbind, M_bind.
  cbn [first_fault seal_calls seal_calls_before_insert app].
  run_call file_read_run FileRead; [done |].
  run_call encrypt_file_content_run Urandom; [done |].
  cbv beta iota zeta. destruct (faults w CipherLib) as [msg|] eqn:Hc; [done |].
  run_call generate_sha3_512_hash_run DigestLib; [done |].
  run_call uuid4_run Uuid4; [done |].
  run_call now_isoformat_run Clock; [done |].
  run_call db_bids_insert_one_run InsertBid; done.
Qed.

(** X2. The record a returning [seal_bid] appends has exactly eight fields:
    the tender id as the caller gave it, the fingerprint and the bidder id
    of the response, the clock's reading, the status SEALED, the two base64
    texts, and the [_id] the store assigned. The bidder id is a text of 36
    characters and the IV text has 24, and the response says success with
    the fixed message. *)
Theorem sealed_record_shape (file : bytes) (tender_id : string) (w w' : World)
    (r : SealBidResponse) :
  seal_bid file tender_id w = (Ok r, w') →
  ∃ (doc : document) (payload iv_text : string),
    bids w' = bids w ++ [doc]
    ∧ dom doc = {[ "_id"; "tenderId"; "bidHash"; "timestamp"; "bidderId"; "status";
                   "encryptedFileBase64"; "iv" ]}
    ∧ doc !! "_id" = Some (VObjectId (next_oid w))
    ∧ doc !! "tenderId" = Some (VStr tender_id)
    ∧ doc !! "bidHash" = Some (VStr (sbr_bidHash r))
    ∧ doc !! "bidderId" = Some (VStr (sbr_bidderId r))
    ∧ doc !! "timestamp" = Some (VStr (clock w (clock_pos w)))
    ∧ doc !! "status" = Some (VStr "SEALED")
    ∧ doc !! "encryptedFileBase64" = Some (VStr payload)
    ∧ doc !! "iv" = Some (VStr iv_text)
    ∧ String.length iv_text = 24
    ∧ String.length (sbr_bidderId r) = 36
    ∧ sbr_success r = true
    ∧ sbr_message r = "Bid sealed successfully with AES-256 encryption".
Proof.
  intros Hrun. apply seal_bid_Ok_inv in Hrun as (_ & -> & Hb & _).
  eexists _, _, _. split; [exact Hb |].
  split.
  { match goal with |- dom (with_id ?n ?d) = _ =>
      change (with_id n d) with (<["_id" := VObjectId n]> d) end.
    unfold sealed_document. rewrite !dom_insert_L, dom_singleton_L. compute_done. }
  repeat (split; [reflexivity |]). reflexivity.
Qed.

(** ** Key derivation *)

Lemma ljust_zero_extension (n k : nat) (fill : ascii) (b : bytes) :
  length b + k ≤ n →
  ljust n fill (take n (b ++ replicate k fill)) = ljust n fill (take n b).
Proof.
  intros Hk. unfold ljust.
  rewrite !take_ge by (rewrite ?length_app, ?length_replicate; lia).
  rewrite length_app, length_replicate, <- app_assoc, <- replicate_add.
  do 2 f_equal. lia.
Qed.

(** X3. Only the first 32 octets of the configured secret reach the key:
    two secrets that agree on them give one key. A secret shorter than 32
    octets gives the key of the same secret followed by digits 0, so the two
    cannot be told apart; and a secret that is set but empty does not fall
    back to the development default, it gives the key of thirty-two digits
    0. *)
Theorem key_keeps_32_octets (w : World) (secret : string) :
  let configured s := set_environ (<["ENCRYPTION_KEY"%string := s]> (environ w)) w in
  (∀ other, take 32 (encode_utf8 other) = take 32 (encode_utf8 secret) →
     (get_encryption_key (configured other)).1 = (get_encryption_key (configured secret)).1)
  ∧ (∀ k other, length (encode_utf8 secret) + k ≤ 32 →
       encode_utf8 other = encode_utf8 secret ++ replicate k "0"%char →
       (get_encryption_key (configured other)).1
       = (get_encryption_key (configured secret)).1)
  ∧ (get_encryption_key (configured "")).1 = Ok (replicate 32 "0"%char).
Proof.
  cbv zeta. rewrite !get_encryption_key_run. cbn [fst].
  split; [| split].
  - intros other Hsame. rewrite get_encryption_key_run. cbn [fst]. f_equal.
    rewrite !(derived_key_set w _ _ (lookup_insert_eq _ _ _)). by rewrite Hsame.
  - intros k other Hk Hother. rewrite get_encryption_key_run. cbn [fst]. f_equal.
    rewrite !(derived_key_set w _ _ (lookup_insert_eq _ _ _)), Hother.
    by apply ljust_zero_extension.
  - f_equal. by rewrite (derived_key_set w _ _ (lookup_insert_eq _ _ _)).
Qed.

(** ** What the fingerprint covers *)

(** Exclusive or of the first block of a content and of the IV with one
    and the same mask leaves the ciphertext as it was. *)
Lemma cbc_ciphertext_shift (key iv delta content : bytes) :
  16 ≤ length content → length delta = 16 → length iv = 16 →
  cbc_ciphertext key (strxor iv delta) (strxor (take 16 content) delta ++ drop 16 content)
  = cbc_ciphertext key iv content.
Proof.
  intros Hc Hd Hiv. unfold cbc_ciphertext.
  assert (0 < AES_block_size) as Hpos by (unfold AES_block_size; lia).
  assert (length (take 16 content) = 16) as Ht by (rewrite length_take; lia).
  assert (length (strxor (take 16 content) delta) = 16) as Hx.
  { rewrite strxor_length; congruence. }
  rewrite <- (take_drop 16 content) at 3.
  rewrite !pad_app by done.
  assert (length (pad (drop 16 content) AES_block_size) `mod` AES_block_size = 0) as Hmod
    by by apply pad_length_mod.
  rewrite !chunks_cons by done.
  cbn [cbc_encrypt_blocks]. by rewrite strxor_shift by congruence.
Qed.

Lemma first_block_changes (content delta : bytes) :
  16 ≤ length content → length delta = 16 → delta ≠ replicate 16 zero →
  strxor (take 16 content) delta ++ drop 16 content ≠ content.
Proof.
  intros Hc Hd Hne Heq. apply Hne.
  assert (length (take 16 content) = 16) as Ht by (rewrite length_take; lia).
  rewrite <- (take_drop 16 content) in Heq at 3.
  apply app_inj_1 in Heq as [Heq _]; [| rewrite strxor_length; congruence].
  apply (strxor_inj_r (take 16 content)); [congruence | by rewrite length_replicate |].
  by rewrite Heq, strxor_zero_r.
Qed.

(** X4. The fingerprint covers the ciphertext alone, not the IV and so not
    the content. Take a content of at least one block and any mask of 16
    octets: the content with its first block masked, sealed under the same
    key with the masked IV, stores the same payload and gets the same
    fingerprint, although the two contents differ as soon as the mask is not
    zero. *)
Theorem fingerprint_ignores_iv (file delta : bytes) (tender_a tender_b : string)
    (wa wb wa' wb' : World) (ra rb : SealBidResponse) :
  16 ≤ length file → length delta = 16 →
  derived_key wa = derived_key wb →
  next_iv wb = strxor (next_iv wa) delta →
  seal_bid file tender_a wa = (Ok ra, wa') →
  seal_bid (strxor (take 16 file) delta ++ drop 16 file) tender_b wb = (Ok rb, wb') →
  sbr_bidHash ra = sbr_bidHash rb
  ∧ (delta ≠ replicate 16 zero → strxor (take 16 file) delta ++ drop 16 file ≠ file)
  ∧ ∃ (da db : document) (payload : string),
      bids wa' = bids wa ++ [da] ∧ bids wb' = bids wb ++ [db]
      ∧ da !! "encryptedFileBase64" = Some (VStr payload)
      ∧ db !! "encryptedFileBase64" = Some (VStr payload)
      ∧ da !! "bidHash" = Some (VStr (sbr_bidHash ra))
      ∧ db !! "bidHash" = Some (VStr (sbr_bidHash ra)).
Proof.
  intros Hlen Hd Hkey Hiv Ha Hb.
  apply seal_bid_Ok_inv in Ha as (_ & -> & Hba & _).
  apply seal_bid_Ok_inv in Hb as (_ & -> & Hbb & _).
  rewrite <- Hkey, Hiv in Hbb. rewrite <- Hkey, Hiv. cbn [sbr_bidHash].
  rewrite cbc_ciphertext_shift in * by (done || apply next_iv_length).
  split; [done |]. split; [by apply first_block_changes |].
  eexists _, _, _. split; [exact Hba |]. split; [exact Hbb |].
  repeat split; reflexivity.
Qed.

(** ** Size of the ciphertext *)

Section BlockLength.

Hypothesis aes_block_length : ∀ key block,
  length block = 16 → length (aes_encrypt_block key block) = 16.

Lemma cbc_ciphertext_length (key iv content : bytes) :
  length iv = 16 →
  length (cbc_ciphertext key iv content) = 16 * (length content / 16 + 1).
Proof using aes_block_length.
  intros Hiv. unfold cbc_ciphertext.
  assert (0 < AES_block_size) as Hpos by (unfold AES_block_size; lia).
  pose proof (chunks_lengths AES_block_size (pad content AES_block_size) Hpos
                (pad_length_mod content AES_block_size Hpos)) as Hch.
  rewrite (concat_blocks_length 16)
    by by apply (cbc_encrypt_blocks_lengths aes_block_length).
  rewrite cbc_encrypt_blocks_count.
  pose proof (concat_blocks_length _ _ Hch) as Hcat.
  rewrite chunks_concat, pad_length in Hcat by done.
  unfold AES_block_size in *. lia.
Qed.

(** X5. The ciphertext [encrypt_file_content] returns is longer than the
    content by 1 to 16 octets: its length is the next multiple of 16 strictly
    above the length of the content, so an empty content gives one block and
    a content of whole blocks gets one block more. The IV has 16 octets, and
    the call has drawn exactly these 16 octets from the entropy source. *)
Theorem ciphertext_length (content ct iv : bytes) (w w' : World) :
  encrypt_file_content content w = (Ok (ct, iv), w') →
  length ct = 16 * (length content / 16 + 1)
  ∧ length content < length ct ≤ length content + 16
  ∧ length iv = 16
  ∧ iv = entropy w <$> seq (entropy_pos w) 16
  ∧ entropy_pos w' = entropy_pos w + 16.
Proof using aes_block_length.
  rewrite encrypt_file_content_run.
  destruct (faults w Urandom); [done |]. cbv zeta.
  destruct (faults w CipherLib); [done |].
  intros [= <- <- <-].
  pose proof (cbc_ciphertext_length (derived_key w) (next_iv w) content (next_iv_length w))
    as Hct.
  pose proof (Nat.div_mod_eq (length content) 16) as Hdm.
  pose proof (Nat.mod_upper_bound (length content) 16 ltac:(lia)) as Hlt.
  split; [done |]. split; [lia |]. split; [apply next_iv_length |]. done.
Qed.

End BlockLength.

(** ** A stored IV can be altered under an unchanged fingerprint *)

Section Tampering.

Hypothesis aes_block_length : ∀ key block,
  length block = 16 → length (aes_encrypt_block key block) = 16.
Hypothesis aes_decrypt_encrypt : ∀ key block,
  length key = 32 → length block = 16 →
  aes_decrypt_block key (aes_encrypt_block key block) = block.

(** X6. In a record [seal_bid] stored for a content of at least one block,
    replace the IV by the IV masked with any 16 octets. Payload and
    fingerprint are untouched, the fingerprint is still the digest of the
    payload, and the record now opens, under the process key, to the content
    with its first block masked: the fingerprint does not detect the
    change. *)
Theorem stored_iv_is_not_fingerprinted (file delta : bytes) (tender_id : string)
    (w w' : World) (r : SealBidResponse) :
  16 ≤ length file → length delta = 16 →
  seal_bid file tender_id w = (Ok r, w') →
  ∃ (doc : document) (iv : bytes) (payload : string),
    let tampered : document :=
      <["iv" := VStr (decode_utf8 (b64encode (strxor iv delta)))]> doc in
    bids w' = bids w ++ [doc]
    ∧ doc !! "iv" = Some (VStr (decode_utf8 (b64encode iv)))
    ∧ doc !! "encryptedFileBase64" = Some (VStr payload)
    ∧ open_sealed_record (derived_key w) doc = Ok file
    ∧ tampered !! "encryptedFileBase64" = Some (VStr payload)
    ∧ tampered !! "bidHash" = Some (VStr (sbr_bidHash r))
    ∧ sbr_bidHash r = hexdigest (sha3_512 (b64decode (encode_utf8 payload)))
    ∧ open_sealed_record (derived_key w) tampered
      = Ok (strxor (take 16 file) delta ++ drop 16 file)
    ∧ (delta ≠ replicate 16 zero → strxor (take 16 file) delta ++ drop 16 file ≠ file).
Proof using aes_block_length aes_decrypt_encrypt.
  intros Hlen Hd Hrun. apply seal_bid_Ok_inv in Hrun as (_ & -> & Hb & _).
  eexists _, (next_iv w), _. cbv zeta.
  split; [exact Hb |]. split; [reflexivity |]. split; [reflexivity |].
  pose proof (next_iv_length w) as Hiv.
  assert (length (strxor (next_iv w) delta) = 16) as Hx.
  { rewrite strxor_length; congruence. }
  split.
  { unfold open_sealed_record.
    match goal with |- context [with_id ?n (sealed_document ?t ?h ?ts ?id ?ct ?iv)] =>
      pose proof (sealed_document_lookup t h ts id ct iv n)
        as (_ & _ & _ & _ & _ & -> & -> & _)
    end.
    rewrite !encode_decode_utf8, !b64decode_b64encode.
    by apply (decrypt_cbc_ciphertext aes_block_length aes_decrypt_encrypt);
      [apply derived_key_length |]. }
  split; [reflexivity |]. split; [reflexivity |].
  split; [by rewrite encode_decode_utf8, b64decode_b64encode |].
  split; [| by apply first_block_changes].
  unfold open_sealed_record.
  rewrite lookup_insert_ne by done. rewrite lookup_insert_eq.
  match goal with |- context [with_id ?n (sealed_document ?t ?h ?ts ?id ?ct ?iv)] =>
    pose proof (sealed_document_lookup t h ts id ct iv n)
      as (_ & _ & _ & _ & _ & -> & _)
  end.
  rewrite !encode_decode_utf8, !b64decode_b64encode.
  rewrite <- (cbc_ciphertext_shift (derived_key w) (next_iv w) delta file) by done.
  by apply (decrypt_cbc_ciphertext aes_block_length aes_decrypt_encrypt);
    [apply derived_key_length |].
Qed.

End Tampering.

(** ** tender_update: what it stores, and what its hash tells apart *)

(** What the audit route answers depends on the world only through the bids
    and the store's readiness to answer. *)
Lemma audit_log_route_frame (w w' : World) :
  faults w' FindBids = faults w FindBids → bids w' = bids w →
  (audit_log_route w').1 = (audit_log_route w).1.
Proof.
  intros Hf Hb. rewrite !audit_log_route_run, Hf. unfold sorted_bids. rewrite Hb.
  by destruct (faults w FindBids).
Qed.

(** X7. [tender_update] fails only when an external call raises, with HTTP
    status 500 and the detail "Failed to log tender update: " followed by the
    message of the first call that raised, and then neither collection has
    changed. Otherwise it appends exactly one record, of exactly six fields,
    whose hash and timestamp are those of the response. In both cases the
    bids, the log and what the audit route answers are as before. *)
Theorem tender_update_outcome (u : TenderUpdate) (w : World) :
  match first_fault w update_calls with
  | Some msg =>
      ∃ w', tender_update u w
            = (Raise (HTTPException 500 ("Failed to log tender update: " +:+ msg)), w')
          ∧ tender_updates w' = tender_updates w
          ∧ bids w' = bids w ∧ log w' = log w
          ∧ (audit_log_route w').1 = (audit_log_route w).1
  | None =>
      ∃ r w' (doc : document),
        tender_update u w = (Ok r, w')
        ∧ tur_success r = true
        ∧ tur_timestamp r = clock w (clock_pos w)
        ∧ tender_updates w' = tender_updates w ++ [doc]
        ∧ dom doc = {[ "_id"; "tenderId"; "updateContent"; "updatedBy"; "updateHash";
                       "timestamp" ]}
        ∧ doc !! "_id" = Some (VObjectId (next_oid w))
        ∧ doc !! "tenderId" = Some (VStr (tu_tenderId u))
        ∧ doc !! "updateContent" = Some (VStr (tu_updateContent u))
        ∧ doc !! "updatedBy" = Some (VStr (tu_updatedBy u))
        ∧ doc !! "updateHash" = Some (VStr (tur_updateHash r))
        ∧ doc !! "timestamp" = Some (VStr (tur_timestamp r))
        ∧ bids w' = bids w ∧ log w' = log w
        ∧ (audit_log_route w').1 = (audit_log_route w).1
  end.
Proof.
  rewrite tender_update_run. cbv zeta. cbn [first_fault update_calls].
  destruct (faults w DigestLib) as [msg|] eqn:Hd; [by eexists |].
  destruct (faults w Clock) as [msg|] eqn:Hc; [by eexists |].
  destruct (faults w InsertUpdate) as [msg|] eqn:Hi.
  { eexists. split; [reflexivity |]. repeat split; try reflexivity.
    by apply audit_log_route_frame. }
  eexists _, _, _. split; [reflexivity |].
  split; [done |]. split; [done |]. split; [reflexivity |].
  split.
  { match goal with |- dom (with_id ?n ?d) = _ =>
      change (with_id n d) with (<["_id" := VObjectId n]> d) end.
    unfold update_document. rewrite !dom_insert_L, dom_singleton_L. compute_done. }
  repeat (split; [reflexivity |]).
  by apply audit_log_route_frame.
Qed.

Lemma string_app_assoc (a b c : string) : (a +:+ b) +:+ c = a +:+ b +:+ c.
Proof.
  induction a as [|x a IH]; [done |].
  change (String x ((a +:+ b) +:+ c) = String x (a +:+ b +:+ c)). by f_equal.
Qed.

Lemma string_app_self_ne (a b : string) : b ≠ "" → a +:+ b ≠ a.
Proof.
  intros Hb Heq. apply (f_equal String.length) in Heq.
  rewrite string_length_app in Heq. destruct b; [done | simpl in Heq; lia].
Qed.

(** X8. The delimiter is ambiguous for every update, not for one example:
    moving a part of the tender id that follows a colon over to the front of
    the update content gives a different update with, in every world, the
    same outcome and so the same hash. *)
Theorem delimiter_shift_collision (a b c x : string) (w : World) :
  let u1 := mkTenderUpdate (a +:+ ":" +:+ b) c x in
  let u2 := mkTenderUpdate a (b +:+ ":" +:+ c) x in
  u1 ≠ u2
  ∧ (tender_update u1 w).1 = (tender_update u2 w).1
  ∧ ∀ r1 r2 w1 w2, tender_update u1 w = (Ok r1, w1) → tender_update u2 w = (Ok r2, w2) →
      tur_updateHash r1 = tur_updateHash r2.
Proof.
  cbv zeta.
  assert (update_message (mkTenderUpdate (a +:+ ":" +:+ b) c x)
          = update_message (mkTenderUpdate a (b +:+ ":" +:+ c) x)) as Hmsg.
  { unfold update_message. cbn [tu_tenderId tu_updateContent tu_updatedBy].
    by rewrite !string_app_assoc. }
  split; [| split].
  - intros [= Heq _]. by apply string_app_self_ne in Heq.
  - rewrite !tender_update_run. cbv zeta. rewrite Hmsg.
    destruct (faults w DigestLib); [done |].
    destruct (faults w Clock); [done |].
    by destruct (faults w InsertUpdate).
  - intros r1 r2 w1 w2 H1 H2.
    apply tender_update_Ok_inv in H1 as (-> & _). apply tender_update_Ok_inv in H2 as (-> & _).
    cbn [tur_updateHash]. by rewrite Hmsg.
Qed.

(** A text without the delimiter. *)
Definition colon_free (s : string) : Prop := ":"%char ∉ encode_utf8 s.

Global Instance colon_free_dec s : Decision (colon_free s).
Proof. unfold colon_free. apply _. Defined.

Lemma colon_split_octets (a a' r r' : bytes) :
  ":"%char ∉ a → ":"%char ∉ a' →
  a ++ ":"%char :: r = a' ++ ":"%char :: r' → a = a' ∧ r = r'.
Proof.
  revert a'. induction a as [|x a IH]; intros [|y a']; simpl.
  - by intros _ _ [= ->].
  - intros _ Hy [= <- _]. exfalso. apply Hy. by left.
  - intros Hx _ [= -> _]. exfalso. apply Hx. by left.
  - intros Hx Hy [= -> Heq].
    destruct (IH a') as [-> ->]; [| | done | done].
    + intros Hin. apply Hx. by right.
    + intros Hin. apply Hy. by right.
Qed.

Lemma colon_split (a a' r r' : string) :
  colon_free a → colon_free a' →
  a +:+ ":" +:+ r = a' +:+ ":" +:+ r' → a = a' ∧ r = r'.
Proof.
  intros Ha Ha' Heq. apply (f_equal encode_utf8) in Heq.
  rewrite !encode_utf8_app in Heq.
  apply colon_split_octets in Heq as [H1 H2]; [| done..].
  split; by apply encode_utf8_inj.
Qed.

Lemma update_message_inj (u1 u2 : TenderUpdate) :
  colon_free (tu_tenderId u1) → colon_free (tu_updateContent u1) →
  colon_free (tu_tenderId u2) → colon_free (tu_updateContent u2) →
  update_message u1 = update_message u2 → u1 = u2.
Proof.
  destruct u1 as [t1 c1 b1], u2 as [t2 c2 b2]. unfold update_message.
  cbn [tu_tenderId tu_updateContent tu_updatedBy].
  intros Ht1 Hc1 Ht2 Hc2 Heq.
  apply colon_split in Heq as [-> Heq]; [| done..].
  by apply colon_split in Heq as [-> ->].
Qed.

(** X9. When neither tender id nor update content holds a colon, the hashed
    text determines the three fields: two different such updates are hashed
    from different texts, and their hashes differ, SHA-256 not colliding on
    these two texts. A colon in updatedBy does no harm. *)
Theorem update_hash_identifies_colon_free (u1 u2 : TenderUpdate) (w1 w2 w1' w2' : World)
    (r1 r2 : TenderUpdateResponse) :
  colon_free (tu_tenderId u1) → colon_free (tu_updateContent u1) →
  colon_free (tu_tenderId u2) → colon_free (tu_updateContent u2) →
  u1 ≠ u2 →
  tender_update u1 w1 = (Ok r1, w1') →
  tender_update u2 w2 = (Ok r2, w2') →
  update_message u1 ≠ update_message u2
  ∧ (¬ collision sha256 (encode_utf8 (update_message u1)) (encode_utf8 (update_message u2)) →
     tur_updateHash r1 ≠ tur_updateHash r2).
Proof.
  intros Ht1 Hc1 Ht2 Hc2 Hne H1 H2.
  assert (update_message u1 ≠ update_message u2) as Hmsg.
  { intros Heq. by apply Hne, update_message_inj. }
  split; [done |]. intros Hnc.
  apply tender_update_Ok_inv in H1 as (-> & _). apply tender_update_Ok_inv in H2 as (-> & _).
  cbn [tur_updateHash]. intros Hhex. apply hexdigest_inj in Hhex. apply Hnc.
  split; [| done]. intros Henc. by apply encode_utf8_inj in Henc.
Qed.

(** The digits [hexdigest()] writes. *)
Definition lower_hex (c : ascii) : Prop := c ∈ encode_utf8 "0123456789abcdef".

Global Instance lower_hex_dec c : Decision (lower_hex c).
Proof. unfold lower_hex. apply _. Defined.

Lemma hex_digit_lower (n : nat) : n < 16 → lower_hex (hex_digit n).
Proof.
  intros Hn. do 16 (destruct n as [|n]; [compute_done |]). lia.
Qed.

Lemma hexdigest_lower (b : bytes) : Forall lower_hex (encode_utf8 (hexdigest b)).
Proof.
  induction b as [|a b IH]; [constructor |].
  cbn [hexdigest encode_utf8 list_ascii_of_string].
  pose proof (bord_bound a) as Ha.
  constructor; [| constructor; [| exact IH]]; apply hex_digit_lower.
  - apply Nat.Div0.div_lt_upper_bound. lia.
  - apply Nat.mod_upper_bound. lia.
Qed.

Section Sha256Contract.

(** SHA-256 returns 32 octets. *)
Hypothesis sha256_length : ∀ message, length (sha256 message) = 32.

(** X10. The update hash is a text of exactly 64 characters, each a digit
    or a lower-case letter a to f, in the response and in the stored
    record. *)
Theorem update_hash_text (u : TenderUpdate) (w w' : World) (r : TenderUpdateResponse) :
  tender_update u w = (Ok r, w') →
  String.length (tur_updateHash r) = 64
  ∧ Forall lower_hex (encode_utf8 (tur_updateHash r))
  ∧ ∃ doc : document,
      tender_updates w' = tender_updates w ++ [doc]
      ∧ doc !! "updateHash" = Some (VStr (tur_updateHash r)).
Proof using sha256_length.
  intros Hrun. apply tender_update_Ok_inv in Hrun as (-> & Hdoc & _).
  cbn [tur_updateHash]. split; [| split].
  - by rewrite hexdigest_length, sha256_length.
  - apply hexdigest_lower.
  - eexists. split; [exact Hdoc | reflexivity].
Qed.

End Sha256Contract.

(** ** The audit trail: which records are listed *)

(** X11. [get_audit_log] lists the newest records and drops only older
    ones: the stored records split into those listed and the rest, every
    listed record carries a timestamp at least that of every record left
    out, the list has exactly as many items as there are records, up to
    1000, and with at most 1000 records nothing is left out. *)
Theorem audit_log_keeps_newest (w w' : World) (docs : list document) :
  get_audit_log w = (Ok docs, w') →
  ∃ kept rest : list document,
    bids w ≡ₚ kept ++ rest
    ∧ docs = project audit_projection <$> kept
    ∧ length docs = length (bids w) `min` 1000
    ∧ (length (bids w) ≤ 1000 → rest = [])
    ∧ ∀ k r, k ∈ kept → r ∈ rest → sorts_before_desc "timestamp" k r.
Proof.
  rewrite get_audit_log_run. destruct (faults w FindBids); [done |].
  intros [= <- <-].
  set (sorted := merge_sort (sorts_before_desc "timestamp") (bids w)).
  assert (sorted ≡ₚ bids w) as Hperm by apply merge_sort_Permutation.
  exists (sorted_bids w), (drop 1000 sorted). unfold sorted_bids. fold sorted.
  split; [by rewrite take_drop |]. split; [done |]. split; [| split].
  - rewrite length_fmap, length_take, (Permutation_length Hperm). lia.
  - intros Hle. apply drop_ge. rewrite (Permutation_length Hperm). lia.
  - intros k r Hk Hr.
    apply (StronglySorted_app_1_elem_of _ (take 1000 sorted) (drop 1000 sorted)); [| done..].
    rewrite take_drop. apply StronglySorted_merge_sort; apply _.
Qed.

Lemma validate_projected_ready (d : document) (e : AuditLogEntry) :
  validate_AuditLogEntry (project audit_projection d) = Ok e → audit_ready d.
Proof.
  intros (H1 & H2 & H3 & H4 & H5)%validate_AuditLogEntry_Ok field Hf.
  unfold audit_fields in Hf. rewrite !elem_of_union, !elem_of_singleton in Hf.
  destruct Hf as [[[[-> | ->] | ->] | ->] | ->];
    match goal with H : project _ d !! ?k = Some _ |- ∃ _, d !! ?k = _ =>
      apply project_lookup_Some in H as [H _]; by eexists end.
Qed.

Lemma validate_AuditLogEntry_cases (d : document) :
  (∃ e, validate_AuditLogEntry d = Ok e)
  ∨ (∃ field, field ∈ audit_fields
              ∧ validate_AuditLogEntry d = Raise (ResponseValidationError field)).
Proof.
  unfold validate_AuditLogEntry, required_str, mbind, result_bind, mret, result_ret.
  destruct (d !! "tenderId") as [[?|?]|];
    [| right; exists "tenderId"%string; split; [compute_done | done]..].
  destruct (d !! "bidHash") as [[?|?]|];
    [| right; exists "bidHash"%string; split; [compute_done | done]..].
  destruct (d !! "timestamp") as [[?|?]|];
    [| right; exists "timestamp"%string; split; [compute_done | done]..].
  destruct (d !! "bidderId") as [[?|?]|];
    [| right; exists "bidderId"%string; split; [compute_done | done]..].
  destruct (d !! "status") as [[?|?]|];
    [| right; exists "status"%string; split; [compute_done | done]..].
  left. by eexists.
Qed.

Lemma validate_list_cases (ds : list document) :
  (∃ es, validate_list (project audit_projection <$> ds) = Ok es ∧ Forall audit_ready ds)
  ∨ (∃ field, field ∈ audit_fields
              ∧ validate_list (project audit_projection <$> ds)
                = Raise (ResponseValidationError field)
              ∧ ¬ Forall audit_ready ds).
Proof.
  induction ds as [|d ds IH]; [left; by eexists |].
  cbn [fmap list_fmap validate_list]. fold (fmap (M:=list) (project audit_projection) ds).
  unfold mbind, result_bind, mret, result_ret.
  destruct (validate_AuditLogEntry_cases (project audit_projection d))
    as [[e He] | (field & Hf & He)]; rewrite He.
  - destruct IH as [(es & -> & Hready) | (field & Hf & -> & Hnot)].
    + left. eexists. split; [done |]. constructor; [| done].
      by eapply validate_projected_ready.
    + right. exists field. split; [done |]. split; [done |].
      intros Hall. apply Hnot. by apply Forall_cons in Hall as [_ ?].
  - right. exists field. split; [done |]. split; [done |].
    intros Hall. apply Forall_cons in Hall as [Hd _].
    destruct (validate_ready d Hd) as [e' He']. congruence.
Qed.

(** X12. One stored record that lacks one of the five fields, or holds it
    otherwise than as a text, among the records to be listed, makes the whole
    audit route fail: the handler itself returns, and the validation of its
    result against the response model raises, naming one of the five fields.
    The route sends its entries exactly when every record to be listed has
    the five fields as texts. *)
Theorem unlistable_record_fails_route (w : World) :
  faults w FindBids = None →
  ((∃ entries, audit_log_route w = (Ok entries, w)) ↔ Forall audit_ready (sorted_bids w))
  ∧ (¬ Forall audit_ready (sorted_bids w) →
       ∃ field docs,
         field ∈ audit_fields
         ∧ get_audit_log w = (Ok docs, w)
         ∧ audit_log_route w = (Raise (ResponseValidationError field), w)).
Proof.
  intros Hfind. rewrite audit_log_route_run, get_audit_log_run, Hfind.
  destruct (validate_list_cases (sorted_bids w))
    as [(es & -> & Hready) | (field & Hf & -> & Hnot)].
  - split; [| done]. split; [done |]. intros _. by eexists.
  - split.
    + split; [by intros [entries [=]] | done].
    + intros _. by eexists field, _.
Qed.

(** X13. A bid just sealed is in the audit trail. When the stored records
    are listable and fewer than 1000, and the store answers, the route sends
    one entry more than there were records, and among the entries is one
    with the tender id of the request, the fingerprint and the bidder id of
    the response, the clock's reading and the status SEALED. *)
Theorem sealed_bid_is_listed (file : bytes) (tender_id : string) (w w' : World)
    (r : SealBidResponse) :
  Forall audit_ready (bids w) → length (bids w) < 1000 →
  seal_bid file tender_id w = (Ok r, w') →
  faults w' FindBids = None →
  ∃ entries,
    audit_log_route w' = (Ok entries, w')
    ∧ length entries = S (length (bids w))
    ∧ mkAuditLogEntry tender_id (sbr_bidHash r) (clock w (clock_pos w)) (sbr_bidderId r)
        "SEALED" ∈ entries.
Proof.
  intros Hready Hlen Hrun Hfind.
  pose proof (seal_bid_keeps_ready file tender_id w Hready) as Hready'.
  rewrite Hrun in Hready'. cbn [snd] in Hready'.
  apply seal_bid_Ok_inv in Hrun as (_ & -> & Hb & _).
  rewrite audit_log_route_run, Hfind.
  destruct (validate_list_ready _ (sorted_bids_ready w' Hready')) as [es Hes].
  rewrite Hes. exists es. split; [done |].
  set (sorted := merge_sort (sorts_before_desc "timestamp") (bids w')) in *.
  assert (sorted ≡ₚ bids w') as Hperm by apply merge_sort_Permutation.
  assert (sorted_bids w' = sorted) as Hall.
  { unfold sorted_bids. apply take_ge. fold sorted.
    rewrite (Permutation_length Hperm), Hb, length_app. simpl. lia. }
  rewrite Hall in Hes. apply validate_list_Ok in Hes.
  split.
  { rewrite <- (Forall2_length _ _ _ Hes), length_fmap, (Permutation_length Hperm), Hb,
      length_app. simpl. lia. }
  match type of Hb with _ = _ ++ [?d] => set (doc := d) in * end.
  assert (doc ∈ sorted) as Hin.
  { rewrite Hperm, Hb. apply elem_of_app. right. by left. }
  apply (list_elem_of_fmap_2 (project audit_projection)) in Hin.
  apply list_elem_of_lookup in Hin as [i Hi].
  destruct (Forall2_lookup_l _ _ _ _ _ Hes Hi) as (e & He & Hv).
  apply validate_AuditLogEntry_Ok in Hv as (H1 & H2 & H3 & H4 & H5).
  rewrite project_lookup_keep in H1, H2, H3, H4, H5
    by (apply keeps_audit_projection; compute_done).
  apply list_elem_of_lookup. exists i. rewrite He. f_equal.
  destruct e as [t h ts b s]. cbn in H1, H2, H3, H4, H5.
  by injection H1 as <-; injection H2 as <-; injection H3 as <-; injection H4 as <-;
    injection H5 as <-.
Qed.

End Core.

(** * server.py: the process configuration and the compliance check

    The allowed origins of the CORS middleware and the handler
    [check_compliance]. The chat library is a variable, as the cipher and
    the digests are above; what the repository computes itself, the prompt,
    the reading of the answer into violations, the error path, is defined
    here. *)

Local Open Scope list_scope.
Local Open Scope nat_scope.

(** ** [str] operations on UTF-8 text *)

(** [s.split(sep)] for a separator of one octet. *)
Fixpoint split (sep : ascii) (s : string) : list string :=
  match s with
  | "" => [""]
  | String a s' =>
      if decide (a = sep) then "" :: split sep s'
      else match split sep s' with
           | piece :: pieces => String a piece :: pieces
           | [] => [String a ""]
           end
  end%string.

(** [chr(n)], encoded. *)
Definition chr (n : N) : string :=
  (if decide (n < 0x80)%N then String (ascii_of_N n) ""
   else if decide (n < 0x800)%N then
     String (ascii_of_N (0xC0 + n / 64)) (String (ascii_of_N (0x80 + n mod 64)) "")
   else if decide (n < 0x10000)%N then
     String (ascii_of_N (0xE0 + n / 4096))
       (String (ascii_of_N (0x80 + n / 64 mod 64)) (String (ascii_of_N (0x80 + n mod 64)) ""))
   else
     String (ascii_of_N (0xF0 + n / 262144))
       (String (ascii_of_N (0x80 + n / 4096 mod 64))
          (String (ascii_of_N (0x80 + n / 64 mod 64))
             (String (ascii_of_N (0x80 + n mod 64)) ""))))%N%string.

(** An octet that continues a character begun before it: 10xxxxxx. *)
Definition is_continuation (a : ascii) : bool :=
  match a with
  | Ascii _ _ _ _ _ _ false true => true
  | _ => false
  end.

(** The characters of a text, each as the text of its octets. *)
Fixpoint chars (s : string) : list string :=
  match s with
  | "" => []
  | String a s' =>
      match chars s' with
      | String b c :: cs =>
          if is_continuation b then String a (String b c) :: cs
          else String a "" :: String b c :: cs
      | cs => String a "" :: cs
      end
  end%string.

(** The characters [str.isspace] accepts, which [str.strip()] removes. *)
Definition whitespace : list string :=
  Eval vm_compute in
    chr <$> [0x9; 0xA; 0xB; 0xC; 0xD; 0x1C; 0x1D; 0x1E; 0x1F; 0x20; 0x85; 0xA0; 0x1680;
             0x2000; 0x2001; 0x2002; 0x2003; 0x2004; 0x2005; 0x2006; 0x2007; 0x2008;
             0x2009; 0x200A; 0x2028; 0x2029; 0x202F; 0x205F; 0x3000]%N.

Definition isspace (c : string) : bool := bool_decide (c ∈ whitespace).

Fixpoint lstrip_chars (strips : string → bool) (cs : list string) : list string :=
  match cs with
  | [] => []
  | c :: cs' => if strips c then lstrip_chars strips cs' else cs
  end.

Definition rstrip_chars (strips : string → bool) (cs : list string) : list string :=
  rev (lstrip_chars strips (rev cs)).

(** [s.strip()] *)
Definition strip (s : string) : string :=
  String.concat "" (rstrip_chars isspace (lstrip_chars isspace (chars s))).

(** [s.lstrip(characters)] *)
Definition lstrip (characters s : string) : string :=
  String.concat "" (lstrip_chars (λ c, bool_decide (c ∈ chars characters)) (chars s)).

(** [s.startswith(prefix)] *)
Definition startswith (s prefix : string) : bool := String.prefix prefix s.

(** ** Facts on the text operations *)

Lemma split_nonempty (sep : ascii) (s : string) : split sep s ≠ [].
Proof.
  destruct s as [|a s]; [done |]. cbn [split].
  destruct (decide (a = sep)); [done |]. by destruct (split sep s).
Qed.

Lemma string_concat_cons (sep x y : string) (l : list string) :
  String.concat sep (x :: y :: l) = (x +:+ sep +:+ String.concat sep (y :: l))%string.
Proof. reflexivity. Qed.

(** Joining the pieces with the separator gives the text back. *)
Lemma join_split (sep : ascii) (s : string) :
  String.concat (String sep "") (split sep s) = s.
Proof.
  induction s as [|a s IH]; [done |]. cbn [split].
  pose proof (split_nonempty sep s) as Hne.
  destruct (split sep s) as [|piece pieces]; [done |].
  destruct (decide (a = sep)) as [-> | _].
  - rewrite string_concat_cons, IH. reflexivity.
  - destruct pieces as [|piece' pieces].
    + cbn [String.concat] in *. by rewrite IH.
    + rewrite string_concat_cons in *. by rewrite <- IH.
Qed.

Lemma split_no_sep (sep : ascii) (s : string) :
  Forall (λ piece, sep ∉ encode_utf8 piece) (split sep s).
Proof.
  induction s as [|a s IH].
  - constructor; [| constructor]. apply not_elem_of_nil.
  - cbn [split]. destruct (decide (a = sep)) as [-> | Hne].
    + constructor; [apply not_elem_of_nil | done].
    + destruct (split sep s) as [|piece pieces].
      * constructor; [| constructor]. cbn. intros [? | Hin%elem_of_nil]%elem_of_cons; done.
      * apply Forall_cons in IH as [Hp Hps]. constructor; [| done].
        cbn. intros [? | Hin]%elem_of_cons; done.
Qed.

Lemma split_length (sep : ascii) (s : string) :
  length (split sep s) = S (length (filter (λ a, a = sep) (encode_utf8 s))).
Proof.
  induction s as [|a s IH]; [done |]. cbn [split encode_utf8 list_ascii_of_string].
  rewrite filter_cons. destruct (decide (a = sep)) as [-> | Hne].
  - cbn [length]. by rewrite IH.
  - pose proof (split_nonempty sep s) as Hnil.
    destruct (split sep s) as [|piece pieces]; [done |]. exact IH.
Qed.

(** [v] occurs in [s]. *)
Definition occurs_in (v s : string) : Prop := ∃ pre post, s = (pre +:+ v +:+ post)%string.

Lemma string_app_nil_r (s : string) : (s +:+ "")%string = s.
Proof. induction s as [|a s IH]; [done |]. change (String a (s +:+ "") = String a s). by f_equal. Qed.

Lemma string_app_assoc' (a b c : string) : ((a +:+ b) +:+ c = a +:+ b +:+ c)%string.
Proof.
  induction a as [|x a IH]; [done |].
  change (String x ((a +:+ b) +:+ c) = String x (a +:+ b +:+ c)). by f_equal.
Qed.

Lemma occurs_in_refl (s : string) : occurs_in s s.
Proof. exists ""%string, ""%string. by rewrite string_app_nil_r. Qed.

Lemma occurs_in_trans (a b c : string) : occurs_in a b → occurs_in b c → occurs_in a c.
Proof.
  intros (p1 & q1 & ->) (p2 & q2 & ->).
  exists (p2 +:+ p1)%string, (q1 +:+ q2)%string. by rewrite !string_app_assoc'.
Qed.

Lemma occurs_in_concat (sep x : string) (l : list string) :
  x ∈ l → occurs_in x (String.concat sep l).
Proof.
  induction l as [|y l IH]; [by intros ?%elem_of_nil |].
  intros [-> | Hin]%elem_of_cons.
  - destruct l as [|z l]; [apply occurs_in_refl |].
    rewrite string_concat_cons. by exists ""%string, (sep +:+ String.concat sep (z :: l))%string.
  - destruct l as [|z l]; [by apply elem_of_nil in Hin |].
    rewrite string_concat_cons. eapply occurs_in_trans; [by apply IH |].
    exists (y +:+ sep)%string, ""%string. by rewrite string_app_nil_r, string_app_assoc'.
Qed.

Lemma occurs_in_split (sep : ascii) (piece s : string) :
  piece ∈ split sep s → occurs_in piece s.
Proof.
  intros Hin. rewrite <- (join_split sep s). by apply occurs_in_concat.
Qed.

Lemma string_concat_app (l1 l2 : list string) :
  String.concat "" (l1 ++ l2) = (String.concat "" l1 +:+ String.concat "" l2)%string.
Proof.
  induction l1 as [|x l1 IH]; [done |].
  destruct l1 as [|y l1].
  - destruct l2 as [|z l2]; [by rewrite string_app_nil_r |]. reflexivity.
  - change ((x :: y :: l1) ++ l2) with (x :: y :: (l1 ++ l2)).
    rewrite !string_concat_cons. change (y :: l1 ++ l2) with ((y :: l1) ++ l2).
    rewrite IH. cbn [String.append]. by rewrite string_app_assoc'.
Qed.

Lemma concat_chars (s : string) : String.concat "" (chars s) = s.
Proof.
  induction s as [|a s IH]; [done |]. cbn [chars].
  destruct (chars s) as [|[|b c] cs].
  - cbn in *. by rewrite <- IH.
  - destruct cs as [|c' cs]; cbn in *; by rewrite <- IH.
  - destruct (is_continuation b);
      (destruct cs as [|c' cs]; [cbn in *; by rewrite <- IH |]);
      rewrite !string_concat_cons in *; cbn in *; by rewrite <- IH.
Qed.

Lemma lstrip_chars_suffix (strips : string → bool) (cs : list string) :
  ∃ dropped, cs = dropped ++ lstrip_chars strips cs.
Proof.
  induction cs as [|c cs [dropped IH]]; [by exists [] |]. cbn [lstrip_chars].
  destruct (strips c); [| by exists []]. exists (c :: dropped). cbn. by f_equal.
Qed.

Lemma rstrip_chars_prefix (strips : string → bool) (cs : list string) :
  ∃ dropped, cs = rstrip_chars strips cs ++ dropped.
Proof.
  unfold rstrip_chars. destruct (lstrip_chars_suffix strips (rev cs)) as [dropped H].
  exists (rev dropped). apply (f_equal (@rev string)) in H. by rewrite rev_involutive, rev_app_distr in H.
Qed.

Lemma lstrip_chars_all (strips : string → bool) (cs : list string) :
  Forall (λ c, strips c = true) cs → lstrip_chars strips cs = [].
Proof. induction 1 as [|c cs Hc _ IH]; [done |]. cbn. by rewrite Hc. Qed.

Lemma strip_occurs (s : string) : occurs_in (strip s) s.
Proof.
  unfold strip.
  destruct (lstrip_chars_suffix isspace (chars s)) as [l Hl].
  destruct (rstrip_chars_prefix isspace (lstrip_chars isspace (chars s))) as [r Hr].
  exists (String.concat "" l), (String.concat "" r).
  rewrite <- !string_concat_app, <- Hr, <- Hl. symmetry. apply concat_chars.
Qed.

Lemma lstrip_occurs (characters s : string) : occurs_in (lstrip characters s) s.
Proof.
  unfold lstrip.
  destruct (lstrip_chars_suffix (λ c, bool_decide (c ∈ chars characters)) (chars s))
    as [l Hl].
  exists (String.concat "" l), ""%string.
  rewrite string_app_nil_r, <- string_concat_app, <- Hl. symmetry. apply concat_chars.
Qed.

(** ** The allowed origins *)

(** [os.environ.get('CORS_ORIGINS', '*').split(',')] *)
Definition cors_allow_origins : M (list string) :=
  origins ← os_environ_get "CORS_ORIGINS" "*";
  mret (split ","%char origins).

(** X14. The allowed origins are exactly the pieces of the configured text
    between its commas, with nothing trimmed and nothing dropped: joined with
    commas they give the text back, none holds a comma, there is one more of
    them than there are commas, so the list is never empty; with nothing
    configured it is the single wildcard, and the environment is only
    read. *)
Theorem cors_allow_origins_pieces (w : World) :
  let configured := default "*"%string (environ w !! "CORS_ORIGINS"%string) in
  ∃ origins,
    cors_allow_origins w = (Ok origins, w)
    ∧ String.concat "," origins = configured
    ∧ Forall (λ origin, ","%char ∉ encode_utf8 origin) origins
    ∧ length origins = S (length (filter (λ a, a = ","%char) (encode_utf8 configured)))
    ∧ (environ w !! "CORS_ORIGINS"%string = None → origins = ["*"%string]).
Proof.
  cbv zeta. eexists. split; [reflexivity |].
  split; [apply join_split |]. split; [apply split_no_sep |].
  split; [apply split_length |]. by intros ->.
Qed.

(** ** check_compliance *)

Record ComplianceCheckRequest := mkComplianceCheckRequest {
  ccq_tenderRequirements : string;
  ccq_bidSummary : string
}.

Record ComplianceCheckResponse := mkComplianceCheckResponse {
  ccr_success : bool;
  ccr_analysis : string;
  ccr_violations : list string
}.

Definition set_log (l : list string) (w : World) : World :=
  mkWorld (environ w) (bids w) (tender_updates w) (entropy w) (entropy_pos w)
          (clock w) (clock_pos w) (next_oid w) (faults w) l.

(** [logging.error(msg)]: the root logger is configured at level INFO, the
    record is emitted. *)
Definition logging_error (msg : string) : M unit := λ w,
  (Ok (), set_log (log w ++ [msg]) w).

(** [os.environ.get(name)] *)
Definition os_environ_lookup (name : string) : M (option string) := λ w,
  (Ok (environ w !! name), w).

Definition LF : ascii := ascii_of_nat 10.

Definition compliance_system_message : string :=
  "You are a procurement compliance assistant. Analyze tender requirements and bid summaries for compliance violations.".

(** The prompt of the handler, a text of nine lines around the two fields
    of the request. *)
Definition compliance_prompt (request : ComplianceCheckRequest) : string :=
  "You are a procurement compliance assistant." +:+ String LF (String LF
  "Tender requirements:") +:+ String LF
  (ccq_tenderRequirements request) +:+ String LF (String LF
  "Bid summary:") +:+ String LF
  (ccq_bidSummary request) +:+ String LF (String LF
  "Analyze the bid against tender requirements and list any violations or missing requirements in bullet points. Be specific and concise.").

(** The test of the loop over the lines of the answer:
    [line and (line.startswith('-') or line.startswith('•') or
    line.startswith('*'))]. *)
Definition is_bullet (line : string) : bool :=
  bool_decide (line ≠ "")
  && (startswith line "-" || startswith line "•" || startswith line "*").

(** The loop over the lines, [violations] being the list appended to. *)
Fixpoint collect_violations (lines violations : list string) : list string :=
  match lines with
  | [] => violations
  | line :: lines' =>
      let line := strip line in
      if is_bullet line then
        collect_violations lines' (violations ++ [strip (lstrip "-•* " line)])
      else collect_violations lines' violations
  end.

(** [if response: lines = response.split('\n'); ...] *)
Definition parse_violations (response : option string) : list string :=
  match response with
  | Some text =>
      if decide (text = ""%string) then [] else collect_violations (split LF text) []
  | None => []
  end.

Section Compliance.

(** [str(e)] for the framework's [HTTPException]; what it prints depends on
    the version of the framework. *)
Variable str_HTTPException : nat → string → string.

(** The chat library:
    [LlmChat(api_key, session_id, system_message).with_model(provider, model)
     .send_message(UserMessage(text))], which answers a text or nothing, or
    raises. *)
Variable llm_send_message :
  string → string → string → string → string → string → result (option string).

(** [str(e)] in the handler's [except] clause. *)
Definition str_exception (e : exn) : string :=
  match e with
  | HTTPException status_code detail => str_HTTPException status_code detail
  | _ => str_exn e
  end.

Definition check_compliance (request : ComplianceCheckRequest)
  : M ComplianceCheckResponse :=
  try_except
    (api_key ← os_environ_lookup "EMERGENT_LLM_KEY";
     _ ← (if decide (api_key = None ∨ api_key = Some ""%string)
          then raise (HTTPException 500 "EMERGENT_LLM_KEY not configured")
          else mret ());
     session ← uuid4;
     response ← lift (llm_send_message (default ""%string api_key)
                        ("compliance-" +:+ session) compliance_system_message
                        "gemini" "gemini-3-flash-preview" (compliance_prompt request));
     let violations := parse_violations response in
     mret (mkComplianceCheckResponse true
             (match response with
              | Some text => if decide (text = ""%string) then "No violations detected"%string
                             else text
              | None => "No violations detected"%string
              end)
             (match violations with
              | [] => ["No violations detected"%string]
              | _ => violations
              end)))
    (λ e,
       _ ← logging_error ("Compliance check failed: " +:+ str_exception e);
       raise (HTTPException 500 ("Compliance check failed: " +:+ str_exception e))).

(** *** check_compliance, step by step *)

(** What one line of the answer adds to the violations. *)
Definition violation_of (line : string) : list string :=
  if is_bullet (strip line) then [strip (lstrip "-•* " (strip line))] else [].

Lemma collect_violations_spec (lines violations : list string) :
  collect_violations lines violations = violations ++ concat (violation_of <$> lines).
Proof.
  revert violations. induction lines as [|line lines IH]; intros violations.
  - by rewrite app_nil_r.
  - cbn [collect_violations fmap list_fmap concat]. unfold violation_of at 1.
    destruct (is_bullet (strip line)); rewrite IH; [by rewrite <- app_assoc | done].
Qed.

Lemma elem_of_collect_violations (v : string) (lines : list string) :
  v ∈ collect_violations lines [] ↔ ∃ line, line ∈ lines ∧ v ∈ violation_of line.
Proof.
  rewrite collect_violations_spec. cbn [app].
  induction lines as [|line lines IH]; cbn [fmap list_fmap concat].
  - split; [by intros ?%elem_of_nil | by intros (? & ?%elem_of_nil & _)].
  - fold (fmap (M:=list) violation_of lines). rewrite elem_of_app, IH. split.
    + intros [Hv | (l & Hl & Hv)]; [exists line | exists l]; split; try done;
        [by left | by right].
    + intros (l & [-> | Hl]%elem_of_cons & Hv); [by left | right; by exists l].
Qed.

Lemma collect_violations_length (lines : list string) :
  length (collect_violations lines []) ≤ length lines.
Proof.
  rewrite collect_violations_spec. cbn [app].
  induction lines as [|line lines IH]; [done |]. cbn [fmap list_fmap concat length].
  fold (fmap (M:=list) violation_of lines). rewrite length_app.
  unfold violation_of at 1. destruct (is_bullet (strip line)); cbn [length]; lia.
Qed.

(** The answer the handler reads: the text of the chat library, or the
    placeholder when there is none. *)
Definition analysis_of (response : option string) : string :=
  match response with
  | Some text => if decide (text = ""%string) then "No violations detected"%string else text
  | None => "No violations detected"%string
  end.

Definition violations_or_placeholder (violations : list string) : list string :=
  match violations with
  | [] => ["No violations detected"%string]
  | _ => violations
  end.

Lemma parse_violations_analysis (response : option string) :
  parse_violations response = collect_violations (split LF (analysis_of response)) [].
Proof.
  destruct response as [text|]; [| done]. unfold parse_violations, analysis_of.
  by destruct (decide (text = ""%string)).
Qed.

Definition compliance_failure (e : exn) (w : World) : result ComplianceCheckResponse * World :=
  let text := ("Compliance check failed: " +:+ str_exception e)%string in
  (Raise (HTTPException 500 text), set_log (log w ++ [text]) w).

Lemma check_compliance_run (request : ComplianceCheckRequest) (w : World) :
  check_compliance request w =
    match environ w !! "EMERGENT_LLM_KEY"%string with
    | None => compliance_failure (HTTPException 500 "EMERGENT_LLM_KEY not configured") w
    | Some api_key =>
        if decide (api_key = ""%string) then
          compliance_failure (HTTPException 500 "EMERGENT_LLM_KEY not configured") w
        else
          match faults w Uuid4 with
          | Some msg => compliance_failure (LibraryError Uuid4 msg) w
          | None =>
              let w1 := set_entropy_pos (entropy_pos w + 16) w in
              match llm_send_message api_key ("compliance-" +:+ uuid_str (next_iv w))
                      compliance_system_message "gemini" "gemini-3-flash-preview"
                      (compliance_prompt request) with
              | Raise e => compliance_failure e w1
              | Ok response =>
                  (Ok (mkComplianceCheckResponse true (analysis_of response)
                         (violations_or_placeholder
                            (collect_violations (split LF (analysis_of response)) []))),
                   w1)
              end
          end
    end.
Proof.
  unfold check_compliance, try_except, mbind, M_bind, os_environ_lookup.
  destruct (environ w !! "EMERGENT_LLM_KEY"%string) as [api_key|] eqn:Hkey.
  - destruct (decide (api_key = ""%string)) as [-> | Hne].
    + rewrite decide_True by by right. done.
    + rewrite decide_False by (intros [? | [= ?]]; done).
      cbv beta iota zeta. unfold mret at 1, M_ret at 1. cbv beta iota.
      rewrite uuid4_run. destruct (faults w Uuid4) as [msg|]; [done |].
      cbv beta iota zeta. unfold lift. cbn [default].
      destruct (llm_send_message _ _ _ _ _ _) as [response | e]; [| done].
      by rewrite parse_violations_analysis.
  - rewrite decide_True by by left. done.
Qed.

(** *** Properties of check_compliance *)

(** X15. Without an API key, unset or set to the empty text, the handler
    does not consult the chat library and draws no session id. The error it
    raises for the missing key is caught by the handler's own [except]
    clause: what leaves the handler is HTTP status 500 with the detail
    "Compliance check failed: " followed by the printed form of that error,
    and the same text is logged, once. *)
Theorem compliance_without_key (request : ComplianceCheckRequest) (w : World) :
  environ w !! "EMERGENT_LLM_KEY"%string = None
  ∨ environ w !! "EMERGENT_LLM_KEY"%string = Some ""%string →
  let text :=
    ("Compliance check failed: "
     +:+ str_HTTPException 500 "EMERGENT_LLM_KEY not configured")%string in
  check_compliance request w = (Raise (HTTPException 500 text), set_log (log w ++ [text]) w).
Proof. intros [Hkey | Hkey]; rewrite check_compliance_run, Hkey; reflexivity. Qed.

(** X16. In whatever way [check_compliance] ends, both collections and the
    environment are as before. A returning run writes no log record; a
    failing run raises HTTP status 500 with a detail that begins
    "Compliance check failed: " and logs exactly one record, that same
    text. *)
Theorem compliance_touches_no_record (request : ComplianceCheckRequest) (w : World) :
  let run := check_compliance request w in
  bids run.2 = bids w
  ∧ tender_updates run.2 = tender_updates w
  ∧ environ run.2 = environ w
  ∧ match run.1 with
    | Ok _ => log run.2 = log w
    | Raise e =>
        ∃ text, e = HTTPException 500 ("Compliance check failed: " +:+ text)
              ∧ log run.2 = log w ++ ["Compliance check failed: " +:+ text]%string
    end.
Proof.
  cbv zeta. rewrite check_compliance_run.
  destruct (environ w !! "EMERGENT_LLM_KEY"%string) as [api_key|];
    [| repeat split; by eexists].
  destruct (decide (api_key = ""%string)); [repeat split; by eexists |].
  destruct (faults w Uuid4); [repeat split; by eexists |]. cbv zeta.
  destruct (llm_send_message _ _ _ _ _ _); [done |]. repeat split; by eexists.
Qed.

Lemma placeholder_has_no_bullet :
  collect_violations (split LF "No violations detected") [] = [].
Proof. vm_compute. reflexivity. Qed.

Lemma check_compliance_Ok_inv (request : ComplianceCheckRequest) (w w' : World)
    (r : ComplianceCheckResponse) :
  check_compliance request w = (Ok r, w') →
  ∃ response,
    r = mkComplianceCheckResponse true (analysis_of response)
          (violations_or_placeholder
             (collect_violations (split LF (analysis_of response)) [])).
Proof.
  rewrite check_compliance_run.
  destruct (environ w !! "EMERGENT_LLM_KEY"%string) as [api_key|]; [| done].
  destruct (decide (api_key = ""%string)); [done |].
  destruct (faults w Uuid4); [done |]. cbv zeta.
  destruct (llm_send_message _ _ _ _ _ _) as [response|]; [| done].
  intros [= <- _]. by exists response.
Qed.

(** X17. A response of [check_compliance] never has an empty analysis nor an
    empty list of violations, and the violations are a function of the
    analysis text: those its lines yield, or the one placeholder "No
    violations detected" when they yield none. So an analysis without a line
    that begins, after leading whitespace, with a hyphen, a bullet or an
    asterisk is reported with the placeholder, whatever it says. *)
Theorem compliance_response_shape (request : ComplianceCheckRequest) (w w' : World)
    (r : ComplianceCheckResponse) :
  check_compliance request w = (Ok r, w') →
  ccr_success r = true
  ∧ ccr_analysis r ≠ ""%string
  ∧ ccr_violations r ≠ []
  ∧ ccr_violations r
    = match collect_violations (split LF (ccr_analysis r)) [] with
      | [] => ["No violations detected"%string]
      | violations => violations
      end
  ∧ ((∀ line, line ∈ split LF (ccr_analysis r) → is_bullet (strip line) = false) →
     ccr_violations r = ["No violations detected"%string]).
Proof.
  intros [response ->]%check_compliance_Ok_inv.
  cbn [ccr_success ccr_analysis ccr_violations].
  split; [done |]. split.
  { destruct response as [text|]; [| done]. unfold analysis_of.
    by destruct (decide (text = ""%string)). }
  split.
  { unfold violations_or_placeholder. by destruct (collect_violations _ _). }
  split; [unfold violations_or_placeholder; by destruct (collect_violations _ _) |].
  intros Hnone. unfold violations_or_placeholder.
  destruct (collect_violations _ _) as [|v vs] eqn:Hc; [done |].
  assert (v ∈ collect_violations (split LF (analysis_of response)) []) as Hv
    by (rewrite Hc; by left).
  apply elem_of_collect_violations in Hv as (line & Hline & Hv).
  unfold violation_of in Hv. rewrite (Hnone line Hline) in Hv. by apply elem_of_nil in Hv.
Qed.

(** X18. The handler invents no violation: each one is the placeholder or a
    part of the analysis text, a line of it without its surrounding
    whitespace and its leading hyphens, bullets, asterisks and spaces; and
    there are no more violations than the analysis has lines. *)
Theorem violations_are_excerpts (request : ComplianceCheckRequest) (w w' : World)
    (r : ComplianceCheckResponse) :
  check_compliance request w = (Ok r, w') →
  length (ccr_violations r) ≤ length (split LF (ccr_analysis r))
  ∧ ∀ v, v ∈ ccr_violations r →
      v = "No violations detected"%string
      ∨ ∃ line, line ∈ split LF (ccr_analysis r)
              ∧ is_bullet (strip line) = true
              ∧ v = strip (lstrip "-•* " (strip line))
              ∧ occurs_in v (ccr_analysis r).
Proof.
  intros [response ->]%check_compliance_Ok_inv.
  cbn [ccr_analysis ccr_violations]. unfold violations_or_placeholder.
  pose proof (collect_violations_length (split LF (analysis_of response))) as Hlen.
  pose proof (split_nonempty LF (analysis_of response)) as Hne.
  destruct (collect_violations _ _) as [|v0 vs] eqn:Hc.
  - split.
    + destruct (split LF (analysis_of response)); [done | cbn; lia].
    + intros v [-> | ?%elem_of_nil]%elem_of_cons; [by left | done].
  - split; [done |]. intros v Hv. right. rewrite <- Hc in Hv.
    apply elem_of_collect_violations in Hv as (line & Hline & Hv).
    unfold violation_of in Hv. destruct (is_bullet (strip line)) eqn:Hb;
      [| by apply elem_of_nil in Hv].
    apply list_elem_of_singleton in Hv as ->.
    exists line. split; [done |]. split; [done |]. split; [done |].
    eapply occurs_in_trans; [apply strip_occurs |].
    eapply occurs_in_trans; [apply lstrip_occurs |].
    eapply occurs_in_trans; [apply strip_occurs |]. by apply (occurs_in_split LF).
Qed.

Lemma strip_empty : strip "" = ""%string.
Proof. reflexivity. Qed.

(** X19. A bullet with nothing after it gives an empty violation: when a
    line of the analysis, stripped, begins with a hyphen, a bullet or an
    asterisk and consists of such marks and spaces only, the empty text is
    among the violations, and the placeholder is not put in its place. *)
Theorem bare_bullet_gives_empty_violation (request : ComplianceCheckRequest)
    (w w' : World) (r : ComplianceCheckResponse) (line : string) :
  check_compliance request w = (Ok r, w') →
  line ∈ split LF (ccr_analysis r) →
  is_bullet (strip line) = true →
  Forall (λ c, c ∈ chars "-•* ") (chars (strip line)) →
  ""%string ∈ ccr_violations r
  ∧ ccr_violations r = collect_violations (split LF (ccr_analysis r)) [].
Proof.
  intros [response ->]%check_compliance_Ok_inv Hline Hb Hmarks.
  cbn [ccr_analysis ccr_violations] in *.
  assert (""%string ∈ collect_violations (split LF (analysis_of response)) []) as Hin.
  { apply elem_of_collect_violations. exists line. split; [done |].
    unfold violation_of. rewrite Hb. apply list_elem_of_singleton.
    unfold lstrip. rewrite lstrip_chars_all; [done |].
    eapply Forall_impl; [exact Hmarks |]. intros c Hc. by apply bool_decide_eq_true. }
  unfold violations_or_placeholder.
  destruct (collect_violations _ _); [by apply elem_of_nil in Hin | done].
Qed.

End Compliance.

(** * backend_test.py: the tester of the API

    The class [AITenderGuardianTester] and [main]. The tester talks to a
    server over HTTP; the server is a variable here, a function from the
    requests sent so far and the request at hand to a response or an error.
    What Python prints for a value that is no text, and for an error, are
    variables as well: they only reach the details the tester records.

    A text the server sends may hold a lone surrogate (JSON allows the
    escape); it is held here as the octets ED A0..BF 80..BF, so that
    [valid_utf8] tells the texts that can be printed from those on which
    [print] raises. Standard output encodes in UTF-8: the lines of the tester
    itself hold characters that no narrower encoding takes. *)

Module BackendTest.

(** ** Values and errors *)

(** What [response.json()] returns. *)
#[warnings="-register-all"]
Inductive json :=
  | JNull
  | JBool (b : bool)
  | JNumber (literal : string)
  | JString (s : string)
  | JArray (items : list json)
  | JObject (fields : list (string * json)).   (* the items of the dict *)

(** The exceptions the operations of the tester raise. *)
Inductive py_error :=
  | RequestFailed (text : string)   (* [requests] raised: no connection, timeout *)
  | NotJSON                         (* [response.json()] on a body that is no JSON *)
  | NotAContainer                   (* [key in x], [x] a number, boolean or None *)
  | MissingKey                      (* [d[key]], the dict has no such key *)
  | NotSubscriptable                (* [x[key]], [x] no dict *)
  | NotSliceable                    (* [x[:n]], [x] neither text nor list *)
  | NotSized                        (* [len(x)], [x] a number, boolean or None *)
  | NoAttribute                     (* [x.get], [x] no dict *)
  | ZeroDivision                    (* division by zero *)
  | UnicodeEncodeError              (* [print] of a text that has no encoding *)
  | FileError (text : string).      (* [open] raised *)

Inductive py_result (A : Type) :=
  | Returned (a : A)
  | Raised (e : py_error).
Arguments Returned {A} a.
Arguments Raised {A} e.

Global Instance py_result_ret : MRet py_result := λ A a, Returned a.

Global Instance py_result_bind : MBind py_result := λ A B f r,
  match r with
  | Returned a => f a
  | Raised e => Raised e
  end.

(** ** Requests and responses *)

Inductive Request :=
  | Get (url : string) (timeout : nat)
  | PostFiles (url : string) (field file_name : string) (content : bytes)
      (content_type : string) (data : list (string * string)) (timeout : nat)
  | PostJson (url : string) (body : json) (headers : list (string * string))
      (timeout : nat).

Record Response := mkResponse {
  status_code : nat;
  body_json : py_result json;     (* what [response.json()] gives *)
  text : string                   (* [response.text] *)
}.

(** ** Operations of Python on these values *)

Definition dict_lookup (fields : list (string * json)) (key : string) : option json :=
  snd <$> List.find (λ kv, bool_decide (kv.1 = key)) fields.

(** [key in container], [key] a text. *)
Definition py_in (key : string) (container : json) : py_result bool :=
  match container with
  | JObject fields => Returned (bool_decide (is_Some (dict_lookup fields key)))
  | JArray items =>
      Returned (existsb (λ item, match item with
                                 | JString s => bool_decide (s = key)
                                 | _ => false
                                 end) items)
  | JString s => Returned (bool_decide (is_Some (index 0 key s)))
  | _ => Raised NotAContainer
  end.

(** [all(key in container for key in keys)] *)
Fixpoint py_all_in (keys : list string) (container : json) : py_result bool :=
  match keys with
  | [] => Returned true
  | key :: keys' =>
      found ← py_in key container;
      if found : bool then py_all_in keys' container else Returned false
  end.

(** [x[key]], [key] a text. *)
Definition py_getitem (x : json) (key : string) : py_result json :=
  match x with
  | JObject fields =>
      match dict_lookup fields key with
      | Some v => Returned v
      | None => Raised MissingKey
      end
  | _ => Raised NotSubscriptable
  end.

(** [s[:n]] on a text: its first [n] characters. *)
Definition str_slice (n : nat) (s : string) : string := String.concat "" (take n (chars s)).

(** [x[:n]] *)
Definition py_slice (n : nat) (x : json) : py_result json :=
  match x with
  | JString s => Returned (JString (str_slice n s))
  | JArray items => Returned (JArray (take n items))
  | _ => Raised NotSliceable
  end.

(** [len(x)] *)
Definition py_len (x : json) : py_result nat :=
  match x with
  | JString s => Returned (length (chars s))
  | JArray items => Returned (length items)
  | JObject fields => Returned (length fields)
  | _ => Raised NotSized
  end.

(** [x.get(key, default)] *)
Definition py_get (key : string) (fallback : json) (x : json) : py_result json :=
  match x with
  | JObject fields => Returned (default fallback (dict_lookup fields key))
  | _ => Raised NoAttribute
  end.

(** ** The tester and what surrounds it *)

Record TestResult := mkTestResult {
  tr_test : string;
  tr_success : bool;
  tr_details : string
}.

Record Report := mkReport {
  rp_timestamp : string;
  rp_total_tests : nat;
  rp_passed_tests : nat;
  rp_success_rate : string;
  rp_results : list TestResult
}.

(** What happens to a file: [open(path, 'w')] creates it or empties it, then
    [json.dump] writes the report into it. *)
Inductive FileEvent :=
  | Opened (path : string)
  | Dumped (path : string) (report : Report).

Record Run := mkRun {
  base_url : string;
  api_url : string;
  tests_run : nat;
  tests_passed : nat;
  test_results : list TestResult;
  test_bid_hash : option json;          (* set once the seal test has read it *)
  test_bidder_id : option json;
  stdout : list string;                 (* the lines printed *)
  requests_sent : list Request;
  files : list FileEvent                (* what was done to files, in order *)
}.

Definition set_tests_run (n : nat) (t : Run) : Run :=
  mkRun (base_url t) (api_url t) n (tests_passed t) (test_results t) (test_bid_hash t)
    (test_bidder_id t) (stdout t) (requests_sent t) (files t).

Definition set_tests_passed (n : nat) (t : Run) : Run :=
  mkRun (base_url t) (api_url t) (tests_run t) n (test_results t) (test_bid_hash t)
    (test_bidder_id t) (stdout t) (requests_sent t) (files t).

Definition set_test_results (l : list TestResult) (t : Run) : Run :=
  mkRun (base_url t) (api_url t) (tests_run t) (tests_passed t) l (test_bid_hash t)
    (test_bidder_id t) (stdout t) (requests_sent t) (files t).

Definition set_test_bid_hash (v : json) (t : Run) : Run :=
  mkRun (base_url t) (api_url t) (tests_run t) (tests_passed t) (test_results t) (Some v)
    (test_bidder_id t) (stdout t) (requests_sent t) (files t).

Definition set_test_bidder_id (v : json) (t : Run) : Run :=
  mkRun (base_url t) (api_url t) (tests_run t) (tests_passed t) (test_results t)
    (test_bid_hash t) (Some v) (stdout t) (requests_sent t) (files t).

Definition set_stdout (l : list string) (t : Run) : Run :=
  mkRun (base_url t) (api_url t) (tests_run t) (tests_passed t) (test_results t)
    (test_bid_hash t) (test_bidder_id t) l (requests_sent t) (files t).

Definition set_requests_sent (l : list Request) (t : Run) : Run :=
  mkRun (base_url t) (api_url t) (tests_run t) (tests_passed t) (test_results t)
    (test_bid_hash t) (test_bidder_id t) (stdout t) l (files t).

Definition set_files (l : list FileEvent) (t : Run) : Run :=
  mkRun (base_url t) (api_url t) (tests_run t) (tests_passed t) (test_results t)
    (test_bid_hash t) (test_bidder_id t) (stdout t) (requests_sent t) l.

(** [AITenderGuardianTester(base_url)] in a fresh process. *)
Definition new_tester (base_url : string) : Run :=
  mkRun base_url (base_url +:+ "/api") 0 0 [] None None [] [] [].

Definition DEFAULT_BASE_URL : string := "https://ai-tender-guardian.preview.emergentagent.com".

(** ** The state-and-exception monad of the tester *)

Definition T (A : Type) : Type := Run → py_result A * Run.

Global Instance T_ret : MRet T := λ A a t, (Returned a, t).

Global Instance T_bind : MBind T := λ A B f m t,
  match m t with
  | (Returned a, t') => f a t'
  | (Raised e, t') => (Raised e, t')
  end.

(** [try: body except Exception as e: handler(e)] *)
Definition try_except {A} (body : T A) (handler : py_error → T A) : T A := λ t,
  match body t with
  | (Returned a, t') => (Returned a, t')
  | (Raised e, t') => handler e t'
  end.

Definition lift {A} (r : py_result A) : T A := λ t, (r, t).

Definition get_run : T Run := λ t, (Returned t, t).

Definition modify (f : Run → Run) : T unit := λ t, (Returned (), f t).

(** [print(line)]: the line is encoded before anything is written, and a
    line that has no encoding raises. *)
Definition print (line : string) : T unit := λ t,
  if valid_utf8 line then (Returned (), set_stdout (stdout t ++ [line]) t)
  else (Raised UnicodeEncodeError, t).

(** ** The five requests *)

Definition root_request (api_url : string) : Request := Get (api_url +:+ "/") 10.

Definition seal_request (api_url : string) : Request :=
  PostFiles (api_url +:+ "/seal-bid") "file" "test_bid.txt"
    (encode_utf8 "This is a test bid document with sensitive information.") "text/plain"
    [("tender_id", "TENDER-TEST-001")] 30.

Definition compliance_request (api_url : string) : Request :=
  PostJson (api_url +:+ "/check-compliance")
    (JObject
       [("tenderRequirements",
         JString "Must include technical specifications, delivery timeline within 30 days, ISO certification required, minimum 2 years experience in similar projects.");
        ("bidSummary",
         JString "We offer complete technical documentation, 45-day delivery timeline, have ISO 9001 certification, and 3 years experience in government projects.")])
    [("Content-Type", "application/json")] 60.

Definition update_request (api_url : string) : Request :=
  PostJson (api_url +:+ "/tender-update")
    (JObject
       [("tenderId", JString "TENDER-TEST-001");
        ("updateContent",
         JString "Tender deadline extended by 7 days due to technical clarifications");
        ("updatedBy", JString "admin")])
    [("Content-Type", "application/json")] 10.

Definition audit_request (api_url : string) : Request := Get (api_url +:+ "/audit-log") 10.

(** ** What the server sends for the values its handlers return

    The JSON objects of the response models of server.py, their fields in
    the order of the models, and the answer of the handler [root]. *)

Definition root_message : json :=
  JObject [("message", JString "AI Tender Guardian API"); ("version", JString "1.0")].

Definition dump_SealBidResponse (r : SealBidResponse) : json :=
  JObject [("success", JBool (sbr_success r)); ("bidHash", JString (sbr_bidHash r));
           ("message", JString (sbr_message r)); ("bidderId", JString (sbr_bidderId r))].

Definition dump_ComplianceCheckResponse (r : ComplianceCheckResponse) : json :=
  JObject [("success", JBool (ccr_success r)); ("analysis", JString (ccr_analysis r));
           ("violations", JArray (JString <$> ccr_violations r))].

Definition dump_TenderUpdateResponse (r : TenderUpdateResponse) : json :=
  JObject [("success", JBool (tur_success r)); ("updateHash", JString (tur_updateHash r));
           ("timestamp", JString (tur_timestamp r))].

Definition dump_entry (e : AuditLogEntry) : json :=
  JObject [("tenderId", JString (ale_tenderId e)); ("bidHash", JString (ale_bidHash e));
           ("timestamp", JString (ale_timestamp e)); ("bidderId", JString (ale_bidderId e));
           ("status", JString (ale_status e))].

(** A response of status 200 with a JSON body. *)
Definition ok_response (body : json) (text : string) : Response :=
  mkResponse 200 (Returned body) text.

Section Tester.

(** The server, seen from the tester. *)
Variable network : list Request → Request → py_result Response.

(** [a == b] on two values. *)
Variable py_eq : json → json → bool.

(** [str(x)] for a number, a list or a dict. *)
Variable py_repr : json → string.

(** [str(e)]. Python spells a character it could not encode, and a key it
    did not find, as an escape: the text of an error has an encoding. *)
Variable str_error : py_error → { text : string | valid_utf8 text = true }.

(** [datetime.now().isoformat()] *)
Variable now : string.

(** [f"{(passed/run)*100:.1f}%"], [run] not zero. *)
Variable format_rate : nat → nat → string.

(** [open(path, 'w')] succeeds or raises. *)
Variable open_to_write : string → py_result unit.

(** [requests.get], [requests.post] *)
Definition send (r : Request) : T Response := λ t,
  (network (requests_sent t) r, set_requests_sent (requests_sent t ++ [r]) t).

(** [f"{x}"] *)
Definition py_str (x : json) : string :=
  match x with
  | JString s => s
  | JBool true => "True"
  | JBool false => "False"
  | JNull => "None"
  | _ => py_repr x
  end.

(** *** log_test *)

Definition log_test (name : string) (success : bool) (details : string) : T unit :=
  _ ← modify (λ t, set_tests_run (tests_run t + 1) t);
  _ ← (if success then
         _ ← modify (λ t, set_tests_passed (tests_passed t + 1) t);
         print ("✅ " +:+ name +:+ " - PASSED")
       else print ("❌ " +:+ name +:+ " - FAILED: " +:+ details));
  modify (λ t, set_test_results (test_results t ++ [mkTestResult name success details]) t).

(** The frame every test has: the body works out [success] and [details],
    the outcome is logged and returned; whatever the body raises is logged as
    a failure. *)
Definition run_test (name : string) (body : T (bool * string)) : T bool :=
  try_except
    (outcome ← body;
     _ ← log_test name outcome.1 outcome.2;
     mret outcome.1)
    (λ e, _ ← log_test name false (proj1_sig (str_error e)); mret false).

(** What four tests do with a response whose status is not 200. *)
Definition error_details (response : Response) (details : string) : T string :=
  try_except
    (error_data ← lift (body_json response);
     detail ← lift (py_get "detail" (JString "Unknown error") error_data);
     mret (details +:+ ", Error: " +:+ py_str detail))
    (λ _, mret (details +:+ ", Raw response: " +:+ str_slice 100 (text response))).

(** *** The five tests *)

Definition test_root_endpoint : T bool :=
  run_test "Root Endpoint"
    (t ← get_run;
     response ← send (root_request (api_url t));
     let success := bool_decide (status_code response = 200) in
     let details := "Status: " +:+ pretty (status_code response) in
     if success then
       data ← lift (body_json response);
       message ← lift (py_get "message" (JString "N/A") data);
       mret (success, details +:+ ", Message: " +:+ py_str message)
     else mret (success, details)).

Definition test_seal_bid : T bool :=
  run_test "Seal Bid"
    (t ← get_run;
     response ← send (seal_request (api_url t));
     let success := bool_decide (status_code response = 200) in
     let details := "Status: " +:+ pretty (status_code response) in
     if success then
       result ← lift (body_json response);
       present ← lift (py_all_in ["success"; "bidHash"; "bidderId"; "message"] result);
       if present : bool then
         bid_hash ← lift (py_getitem result "bidHash");
         bid_hash_20 ← lift (py_slice 20 bid_hash);
         bidder_id ← lift (py_getitem result "bidderId");
         bidder_id_8 ← lift (py_slice 8 bidder_id);
         let details :=
           details +:+ ", BidHash: " +:+ py_str bid_hash_20 +:+ "..., BidderId: "
           +:+ py_str bidder_id_8 +:+ "..." in
         bid_hash ← lift (py_getitem result "bidHash");
         _ ← modify (set_test_bid_hash bid_hash);
         bidder_id ← lift (py_getitem result "bidderId");
         _ ← modify (set_test_bidder_id bidder_id);
         mret (true, details)
       else mret (false, details +:+ ", Missing required fields in response")
     else
       details ← error_details response details;
       mret (false, details)).

Definition test_compliance_check : T bool :=
  run_test "AI Compliance Check"
    (t ← get_run;
     response ← send (compliance_request (api_url t));
     let success := bool_decide (status_code response = 200) in
     let details := "Status: " +:+ pretty (status_code response) in
     if success then
       result ← lift (body_json response);
       present ← lift (py_all_in ["success"; "analysis"; "violations"] result);
       if present : bool then
         analysis ← lift (py_getitem result "analysis");
         analysis_length ← lift (py_len analysis);
         violations ← lift (py_getitem result "violations");
         violations_count ← lift (py_len violations);
         mret (true, details +:+ ", Analysis length: " +:+ pretty analysis_length
                     +:+ " chars, Violations: " +:+ pretty violations_count)
       else mret (false, details +:+ ", Missing required fields in response")
     else
       details ← error_details response details;
       mret (false, details)).

Definition test_tender_update : T bool :=
  run_test "Tender Update (n8n webhook)"
    (t ← get_run;
     response ← send (update_request (api_url t));
     let success := bool_decide (status_code response = 200) in
     let details := "Status: " +:+ pretty (status_code response) in
     if success then
       result ← lift (body_json response);
       present ← lift (py_all_in ["success"; "updateHash"; "timestamp"] result);
       if present : bool then
         update_hash ← lift (py_getitem result "updateHash");
         update_hash_20 ← lift (py_slice 20 update_hash);
         timestamp ← lift (py_getitem result "timestamp");
         mret (true, details +:+ ", UpdateHash: " +:+ py_str update_hash_20
                     +:+ "..., Timestamp: " +:+ py_str timestamp)
       else mret (false, details +:+ ", Missing required fields in response")
     else
       details ← error_details response details;
       mret (false, details)).

(** [any(entry.get('bidHash') == test_bid_hash for entry in entries)] *)
Fixpoint any_bid_hash (test_bid_hash : json) (entries : list json) : py_result bool :=
  match entries with
  | [] => Returned false
  | entry :: entries' =>
      bid_hash ← py_get "bidHash" JNull entry;
      if py_eq bid_hash test_bid_hash then Returned true
      else any_bid_hash test_bid_hash entries'
  end.

Definition required_fields : list string :=
  ["tenderId"; "bidHash"; "timestamp"; "bidderId"; "status"].

Definition test_audit_log : T bool :=
  run_test "Audit Log"
    (t ← get_run;
     response ← send (audit_request (api_url t));
     let success := bool_decide (status_code response = 200) in
     let details := "Status: " +:+ pretty (status_code response) in
     if success then
       result ← lift (body_json response);
       match result with
       | JArray entries =>
           let details := details +:+ ", Entries: " +:+ pretty (length entries) in
           match entries with
           | first_entry :: _ =>
               details ← match test_bid_hash t with
                         | Some bid_hash =>
                             found ← lift (any_bid_hash bid_hash entries);
                             mret (details +:+ ", Test bid found: " +:+ py_str (JBool found))
                         | None => mret details
                         end;
               valid ← lift (py_all_in required_fields first_entry);
               if valid : bool then mret (true, details +:+ ", Structure valid")
               else mret (false, details +:+ ", Invalid entry structure")
           | [] => mret (true, details)
           end
       | _ => mret (false, details +:+ ", Response is not a list")
       end
     else
       details ← error_details response details;
       mret (false, details)).

(** *** run_all_tests and main *)

Definition rule : string := string_of_list_ascii (replicate 60 "="%char).

Definition run_all_tests : T bool :=
  t ← get_run;
  _ ← print "🚀 Starting AI Tender Guardian Backend Tests";
  _ ← print ("📍 Testing against: " +:+ base_url t);
  _ ← print rule;
  _ ← test_root_endpoint; _ ← print "";
  _ ← test_seal_bid; _ ← print "";
  _ ← test_compliance_check; _ ← print "";
  _ ← test_tender_update; _ ← print "";
  _ ← test_audit_log; _ ← print "";
  _ ← print rule;
  t ← get_run;
  _ ← print ("📊 Test Results: " +:+ pretty (tests_passed t) +:+ "/"
             +:+ pretty (tests_run t) +:+ " passed");
  if decide (tests_passed t = tests_run t) then
    _ ← print "🎉 All tests passed!"; mret true
  else
    _ ← print "⚠️  Some tests failed. Check details above."; mret false.

(** [(passed / run) * 100], printed with one decimal and a percent sign. *)
Definition success_rate (passed run : nat) : py_result string :=
  if decide (run = 0) then Raised ZeroDivision else Returned (format_rate passed run).

Definition RESULTS_PATH : string := "/app/backend_test_results.json".

(** [open(path, 'w')] *)
Definition open_w (path : string) : T unit :=
  _ ← lift (open_to_write path);
  modify (λ t, set_files (files t ++ [Opened path]) t).

(** [main()], in a fresh process; what it returns is the exit status. *)
Definition main : py_result nat * Run :=
  (success ← run_all_tests;
   _ ← open_w RESULTS_PATH;
   t ← get_run;
   rate ← lift (success_rate (tests_passed t) (tests_run t));
   _ ← modify (λ t, set_files
                      (files t ++ [Dumped RESULTS_PATH
                                     (mkReport now (tests_run t) (tests_passed t) rate
                                        (test_results t))]) t);
   mret (if success : bool then 0 else 1)) (new_tester DEFAULT_BASE_URL).

(** ** The score the tester keeps *)

Definition score (t : Run) : nat * nat * list TestResult * list FileEvent :=
  (tests_run t, tests_passed t, test_results t, files t).

(** An action that leaves the score, and the files, as they are, however it
    ends. *)
Definition keeps_score {A} (m : T A) : Prop := ∀ t, score (m t).2 = score t.

Lemma keeps_score_mret {A} (a : A) : keeps_score (mret a : T A).
Proof. by intros t. Qed.

Lemma keeps_score_lift {A} (r : py_result A) : keeps_score (lift r).
Proof. by intros t. Qed.

Lemma keeps_score_get_run : keeps_score get_run.
Proof. by intros t. Qed.

Lemma keeps_score_send (r : Request) : keeps_score (send r).
Proof. by intros t. Qed.

Lemma keeps_score_print (line : string) : keeps_score (print line).
Proof. intros t. unfold print. by destruct (valid_utf8 line). Qed.

Lemma keeps_score_set_test_bid_hash (v : json) : keeps_score (modify (set_test_bid_hash v)).
Proof. by intros t. Qed.

Lemma keeps_score_set_test_bidder_id (v : json) :
  keeps_score (modify (set_test_bidder_id v)).
Proof. by intros t. Qed.

Lemma keeps_score_bind {A B} (m : T A) (f : A → T B) :
  keeps_score m → (∀ a, keeps_score (f a)) → keeps_score (m ≫= f).
Proof.
  intros Hm Hf t. unfold mbind, T_bind. specialize (Hm t).
  destruct (m t) as [[a | e] t1]; cbn [snd] in *; [| done].
  by rewrite Hf.
Qed.

Lemma keeps_score_try_except {A} (body : T A) (handler : py_error → T A) :
  keeps_score body → (∀ e, keeps_score (handler e)) → keeps_score (try_except body handler).
Proof.
  intros Hb Hh t. unfold try_except. specialize (Hb t).
  destruct (body t) as [[a | e] t1]; cbn [snd] in *; [done |].
  by rewrite Hh.
Qed.

Ltac keeps_score :=
  repeat first
    [ apply keeps_score_mret | apply keeps_score_lift | apply keeps_score_get_run
    | apply keeps_score_send | apply keeps_score_print
    | apply keeps_score_set_test_bid_hash | apply keeps_score_set_test_bidder_id
    | apply keeps_score_bind; [| intros ?]
    | apply keeps_score_try_except; [| intros ?]
    | progress cbv zeta
    | match goal with |- keeps_score (if ?b then _ else _) => destruct b end
    | match goal with |- keeps_score (match ?x with _ => _ end) => destruct x end ].

Lemma keeps_score_error_details (response : Response) (details : string) :
  keeps_score (error_details response details).
Proof. unfold error_details. keeps_score. Qed.

(** What [log_test] does not touch. *)
Definition same_session (t t' : Run) : Prop :=
  base_url t' = base_url t ∧ api_url t' = api_url t
  ∧ test_bid_hash t' = test_bid_hash t ∧ test_bidder_id t' = test_bidder_id t
  ∧ requests_sent t' = requests_sent t ∧ files t' = files t.

(** The line [log_test] prints. *)
Definition log_line (name : string) (success : bool) (details : string) : string :=
  if success then "✅ " +:+ name +:+ " - PASSED"
  else "❌ " +:+ name +:+ " - FAILED: " +:+ details.

(** [log_test] counts before it prints and records after: when the line
    cannot be printed the test is counted and no result is recorded. *)
Lemma log_test_cases (name : string) (success : bool) (details : string) (t : Run) :
  ∃ t',
    log_test name success details t
    = (if valid_utf8 (log_line name success details) then Returned ()
       else Raised UnicodeEncodeError, t')
    ∧ tests_run t' = tests_run t + 1
    ∧ tests_passed t' = tests_passed t + (if success then 1 else 0)
    ∧ test_results t'
      = test_results t ++ (if valid_utf8 (log_line name success details)
                           then [mkTestResult name success details] else [])
    ∧ same_session t t'.
Proof.
  unfold log_test, log_line, mbind, T_bind, modify, print.
  destruct success; cbv beta iota.
  - destruct (valid_utf8 _); eexists; (split; [reflexivity |]);
      cbn; rewrite ?app_nil_r; by repeat split.
  - destruct (valid_utf8 _); eexists; (split; [reflexivity |]);
      cbn; rewrite ?app_nil_r, ?Nat.add_0_r; by repeat split.
Qed.

Lemma valid_utf8_passed_line (name details : string) :
  valid_utf8 name = true → valid_utf8 (log_line name true details) = true.
Proof.
  intros Hname. unfold log_line.
  rewrite valid_utf8_app by done. by rewrite valid_utf8_app.
Qed.

Lemma valid_utf8_error_line (name : string) (e : py_error) :
  valid_utf8 name = true → valid_utf8 (log_line name false (proj1_sig (str_error e))) = true.
Proof.
  intros Hname. unfold log_line.
  rewrite valid_utf8_app by done. rewrite valid_utf8_app by done.
  rewrite valid_utf8_app by done. apply (proj2_sig (str_error e)).
Qed.

(** A test returns what its body worked out, and False when the body raised;
    it records exactly one result and counts one test run, or two when the
    line of a failure could not be printed: the failure is then logged a
    second time, by the except clause, with the text of the error. *)
Lemma run_test_cases (name : string) (body : T (bool * string))
    (outcome : py_result (bool * string)) (t t0 : Run) :
  valid_utf8 name = true →
  body t = (outcome, t0) →
  let success := match outcome with Returned (s, _) => s | Raised _ => false end in
  ∃ details k t',
    run_test name body t = (Returned success, t')
    ∧ tests_run t' = tests_run t0 + k ∧ 1 ≤ k ≤ 2 ∧ (success = true → k = 1)
    ∧ (k = 2 → details = proj1_sig (str_error UnicodeEncodeError))
    ∧ (match outcome with
       | Returned (_, found) => k = if valid_utf8 (log_line name success found) then 1 else 2
       | Raised _ => k = 1
       end)
    ∧ tests_passed t' = tests_passed t0 + (if success then 1 else 0)
    ∧ test_results t' = test_results t0 ++ [mkTestResult name success details]
    ∧ same_session t0 t'.
Proof.
  intros Hname Hbody. cbv zeta. unfold run_test, try_except, mbind, T_bind. rewrite Hbody.
  destruct outcome as [[success details] | e]; cbn [fst snd].
  - destruct (log_test_cases name success details t0)
      as (t1 & -> & Hrun & Hpassed & Hres & Hb & Ha & Hh & Hi & Hr & Hf).
    destruct (valid_utf8 (log_line name success details)) eqn:Hline.
    + exists details, 1, t1. unfold mret, T_ret, same_session.
      rewrite Hrun, Hpassed, Hres. repeat split; try done; lia.
    + destruct success; [by rewrite valid_utf8_passed_line in Hline |].
      destruct (log_test_cases name false (proj1_sig (str_error UnicodeEncodeError)) t1)
        as (t2 & -> & Hrun2 & Hpassed2 & Hres2 & Hb2 & Ha2 & Hh2 & Hi2 & Hr2 & Hf2).
      rewrite valid_utf8_error_line in * by done.
      exists (proj1_sig (str_error UnicodeEncodeError)), 2, t2.
      unfold mret, T_ret, same_session.
      rewrite Hrun2, Hpassed2, Hres2, Hrun, Hpassed, Hres, app_nil_r.
      rewrite Hb2, Ha2, Hh2, Hi2, Hr2, Hf2.
      repeat split; try done; lia.
  - destruct (log_test_cases name false (proj1_sig (str_error e)) t0)
      as (t1 & -> & Hrun & Hpassed & Hres & Hb & Ha & Hh & Hi & Hr & Hf).
    rewrite valid_utf8_error_line in * by done.
    exists (proj1_sig (str_error e)), 1, t1. unfold mret, T_ret, same_session.
    rewrite Hrun, Hpassed, Hres. repeat split; try done; lia.
Qed.

Lemma test_root_endpoint_body : ∃ body, test_root_endpoint = run_test "Root Endpoint" body
                                        ∧ keeps_score body.
Proof. eexists. split; [reflexivity |]. keeps_score. Qed.

Lemma test_seal_bid_body : ∃ body, test_seal_bid = run_test "Seal Bid" body
                                   ∧ keeps_score body.
Proof. eexists. split; [reflexivity |]. keeps_score; apply keeps_score_error_details. Qed.

Lemma test_compliance_check_body :
  ∃ body, test_compliance_check = run_test "AI Compliance Check" body ∧ keeps_score body.
Proof. eexists. split; [reflexivity |]. keeps_score; apply keeps_score_error_details. Qed.

Lemma test_tender_update_body :
  ∃ body, test_tender_update = run_test "Tender Update (n8n webhook)" body
          ∧ keeps_score body.
Proof. eexists. split; [reflexivity |]. keeps_score; apply keeps_score_error_details. Qed.

Lemma test_audit_log_body : ∃ body, test_audit_log = run_test "Audit Log" body
                                    ∧ keeps_score body.
Proof. eexists. split; [reflexivity |]. keeps_score; apply keeps_score_error_details. Qed.

(** The score is a tally of the results: one result under each of [names],
    as many passed as results say success, at least one test run counted for
    each result and at most one more for each failure; and no file is
    touched yet. *)
Definition passed (r : TestResult) : Prop := tr_success r = true.

Global Instance passed_dec r : Decision (passed r).
Proof. unfold passed. apply _. Defined.

Definition tally (names : list string) (t : Run) : Prop :=
  tr_test <$> test_results t = names
  ∧ tests_passed t = length (filter passed (test_results t))
  ∧ length names ≤ tests_run t
  ∧ tests_run t + tests_passed t ≤ 2 * length names
  ∧ files t = [].

Lemma tally_step (names : list string) (name : string) (body : T (bool * string))
    (t : Run) :
  keeps_score body → valid_utf8 name = true → tally names t →
  ∃ success t', run_test name body t = (Returned success, t')
              ∧ tally (names ++ [name]) t'.
Proof.
  intros Hbody Hname (Hnames & Hpassed & Hlow & Hhigh & Hfiles).
  specialize (Hbody t). destruct (body t) as [outcome t0] eqn:Hb.
  destruct (run_test_cases name body outcome t t0 Hname Hb)
    as (details & k & t' & -> & Hr & Hk & Hk1 & _ & _ & Hp & Hres & Hsame).
  cbn [snd] in Hbody. unfold score in Hbody. injection Hbody as Hr0 Hp0 Hres0 Hf0.
  destruct Hsame as (_ & _ & _ & _ & _ & Hf).
  eexists _, t'. split; [reflexivity |]. unfold tally.
  rewrite Hr, Hp, Hres, Hf, Hr0, Hp0, Hres0, Hf0.
  rewrite fmap_app, filter_app, !length_app, Hnames.
  rewrite filter_cons, filter_nil. unfold passed at 2. cbn [tr_success fmap list_fmap tr_test].
  split; [done |]. cbn [length].
  destruct (match outcome with Returned (s, _) => s | Raised _ => false end).
  - rewrite decide_True by done. cbn [length]. specialize (Hk1 eq_refl).
    repeat split; try done; lia.
  - rewrite decide_False by done. cbn [length]. repeat split; try done; lia.
Qed.

Lemma all_passed_count (rs : list TestResult) :
  length (filter passed rs) = length rs ↔ Forall passed rs.
Proof.
  induction rs as [|r rs IH]; [by split; [constructor |] |].
  rewrite filter_cons, Forall_cons. pose proof (length_filter passed rs) as Hle.
  destruct (decide (passed r)) as [Hr | Hr]; cbn [length].
  - rewrite <- IH. split; [intros [= ?]; by split | intros [_ ->]; done].
  - split; [intros Hlen; rewrite Hlen in Hle; lia | by intros [? _]].
Qed.

(** A test run counted twice is the run of a failed test: the two counters
    are equal exactly when every result says success. *)
Lemma tally_all_passed (names : list string) (t : Run) :
  tally names t →
  tests_passed t = tests_run t ↔ Forall passed (test_results t).
Proof.
  intros (Hnames & Hpassed & Hlow & Hhigh & _).
  rewrite <- all_passed_count. pose proof (length_filter passed (test_results t)) as Hle.
  rewrite <- Hnames, length_fmap in Hlow, Hhigh. lia.
Qed.

(** [m], started where [P] holds, returns, and [Q] holds of what it returns
    and of where it stops. *)
Definition returns {A} (P : Run → Prop) (m : T A) (Q : A → Run → Prop) : Prop :=
  ∀ t, P t → ∃ a t', m t = (Returned a, t') ∧ Q a t'.

Lemma returns_bind {A B} (P : Run → Prop) (Q : A → Run → Prop) (R : B → Run → Prop)
    (m : T A) (f : A → T B) :
  returns P m Q → (∀ a, returns (Q a) (f a) R) → returns P (m ≫= f) R.
Proof.
  intros Hm Hf t Ht. destruct (Hm t Ht) as (a & t1 & Hrun & Hq).
  unfold mbind, T_bind. rewrite Hrun. by apply Hf.
Qed.

Lemma print_valid (line : string) (t : Run) :
  valid_utf8 line = true → print line t = (Returned (), set_stdout (stdout t ++ [line]) t).
Proof. intros Hline. unfold print. by rewrite Hline. Qed.


Lemma returns_print (P : Run → Prop) (line : string) :
  valid_utf8 line = true →
  (∀ t out, P t → P (set_stdout out t)) → returns P (print line) (λ _, P).
Proof.
  intros Hline HP t Ht. rewrite print_valid by done.
  eexists _, _. split; [reflexivity |]. by apply HP.
Qed.

Lemma returns_get_run (P : Run → Prop) :
  returns P get_run (λ a t, a = t ∧ P t).
Proof. intros t Ht. by eexists _, _. Qed.

Lemma returns_test (names : list string) (name : string) (test : T bool) :
  (∃ body, test = run_test name body ∧ keeps_score body) →
  valid_utf8 name = true →
  returns (tally names) test (λ _, tally (names ++ [name])).
Proof. intros (body & -> & Hbody) Hname t Ht. by apply tally_step. Qed.

Definition TEST_NAMES : list string :=
  ["Root Endpoint"; "Seal Bid"; "AI Compliance Check"; "Tender Update (n8n webhook)";
   "Audit Log"].

Ltac printable :=
  repeat first [ assumption | reflexivity | apply valid_utf8_pretty
               | apply valid_utf8_app_true ].

Lemma run_all_tests_tally :
  returns (λ t, tally [] t ∧ valid_utf8 (base_url t) = true) run_all_tests
    (λ success t, tally TEST_NAMES t ∧ (success = true ↔ Forall passed (test_results t))).
Proof.
  unfold run_all_tests.
  eapply returns_bind; [apply returns_get_run |]. intros t0.
  eapply returns_bind.
  { intros t [-> [Ht Hbase]].
    by apply (returns_print (λ u, tally [] u ∧ valid_utf8 (base_url t) = true)). }
  intros ?; cbv beta.
  eapply returns_bind.
  { intros t [Ht Hbase]. apply (returns_print (tally [])); [by printable | done | done]. }
  intros ?; cbv beta.
  eapply returns_bind; [by apply returns_print |]. intros ?; cbv beta.
  eapply returns_bind; [by apply returns_test; [apply test_root_endpoint_body |] |].
  intros ?; cbv beta.
  eapply returns_bind; [by apply returns_print |]. intros ?; cbv beta.
  eapply returns_bind; [by apply returns_test; [apply test_seal_bid_body |] |].
  intros ?; cbv beta.
  eapply returns_bind; [by apply returns_print |]. intros ?; cbv beta.
  eapply returns_bind; [by apply returns_test; [apply test_compliance_check_body |] |].
  intros ?; cbv beta.
  eapply returns_bind; [by apply returns_print |]. intros ?; cbv beta.
  eapply returns_bind; [by apply returns_test; [apply test_tender_update_body |] |].
  intros ?; cbv beta.
  eapply returns_bind; [by apply returns_print |]. intros ?; cbv beta.
  eapply returns_bind; [by apply returns_test; [apply test_audit_log_body |] |].
  intros ?; cbv beta.
  eapply returns_bind; [by apply returns_print |]. intros ?; cbv beta.
  eapply returns_bind; [by apply returns_print |]. intros ?; cbv beta.
  eapply returns_bind; [apply returns_get_run |]. intros t1.
  eapply returns_bind.
  { intros t [-> Ht].
    apply (returns_print (λ u, tally TEST_NAMES u ∧ tests_passed u = tests_passed t
                               ∧ tests_run u = tests_run t));
      [by printable | by intros ? ? (? & ? & ?) | done]. }
  intros ?; cbv beta.
  intros t (Ht & Hp & Hr). pose proof (tally_all_passed _ _ Ht) as Hall.
  rewrite Hp, Hr in Hall.
  destruct (decide (tests_passed t1 = tests_run t1)) as [Heq | Hne].
  - unfold mbind, T_bind. rewrite print_valid by reflexivity.
    eexists _, _. split; [reflexivity |]. split; [exact Ht |].
    split; [intros _; by apply Hall | done].
  - unfold mbind, T_bind. rewrite print_valid by reflexivity.
    eexists _, _. split; [reflexivity |]. split; [exact Ht |].
    split; [done | intros Hpass; by apply Hall in Hpass].
Qed.


(** X21. [main] never divides by zero. When the results file can be opened,
    it returns an exit status whatever the server did, 0 exactly when all
    five tests passed and 1 otherwise, and it has opened the file once and
    written one report into it: the five results under the five names, as
    passed tests the number of results that say success, as total the test
    runs counted, between five and ten, and the rate of the two. *)
Theorem main_exit_status :
  open_to_write RESULTS_PATH = Returned () →
  ∃ status report,
    main.1 = Returned status
    ∧ files main.2 = [Opened RESULTS_PATH; Dumped RESULTS_PATH report]
    ∧ tr_test <$> rp_results report = TEST_NAMES
    ∧ rp_passed_tests report = length (filter passed (rp_results report))
    ∧ 5 ≤ rp_total_tests report
    ∧ rp_total_tests report + rp_passed_tests report ≤ 10
    ∧ rp_success_rate report
      = format_rate (rp_passed_tests report) (rp_total_tests report)
    ∧ (status = 0 ↔ Forall passed (rp_results report))
    ∧ (status ≠ 0 → status = 1).
Proof.
  intros Hopen. unfold main.
  destruct (run_all_tests_tally (new_tester DEFAULT_BASE_URL))
    as (success & t' & Hrun & Ht & Hall).
  { split; [| reflexivity]. repeat split; cbn; lia. }
  destruct Ht as (Hnames & Hpassed & Hlow & Hhigh & Hfiles).
  cbn [length TEST_NAMES] in Hlow, Hhigh.
  unfold open_w, mbind, T_bind, lift, get_run, modify, success_rate.
  rewrite Hrun, Hopen. cbn [tests_run tests_passed test_results files set_files].
  rewrite Hfiles. rewrite decide_False by lia.
  eexists _, _. cbn [fst snd files set_files app]. split; [reflexivity |].
  split; [reflexivity |].
  cbn [rp_total_tests rp_passed_tests rp_success_rate rp_results].
  split; [done |]. split; [done |]. split; [done |]. split; [done |]. split; [done |].
  destruct success.
  - split; [| done]. split; [intros _; by apply Hall | done].
  - split; [| done]. split; [done | intros Hp; by apply Hall in Hp].
Qed.

(** ** The tests against what the server sends *)

Lemma any_bid_hash_object (bid_hash : json) (fields : list (string * json))
    (entries : list json) :
  any_bid_hash bid_hash (JObject fields :: entries)
  = if py_eq (default JNull (dict_lookup fields "bidHash")) bid_hash then Returned true
    else any_bid_hash bid_hash entries.
Proof. reflexivity. Qed.

Lemma any_bid_hash_of_entries (bid_hash : json) (entries : list AuditLogEntry) :
  ∃ found, any_bid_hash bid_hash (dump_entry <$> entries) = Returned found.
Proof.
  induction entries as [|e entries [found IH]]; [by eexists |].
  cbn [fmap list_fmap]. fold (fmap (M:=list) dump_entry entries).
  unfold dump_entry at 1. rewrite any_bid_hash_object.
  match goal with |- context [py_eq ?v bid_hash] => destruct (py_eq v bid_hash) end;
    [by eexists |]. rewrite IH. by eexists.
Qed.

(** X22. The tests accept what the handlers return. Whatever value of its
    response model a handler returned, sent with status 200 as its JSON
    object, passes the test of its route: the answer of [root], every
    SealBidResponse (whose fingerprint and bidder id the tester then keeps),
    every ComplianceCheckResponse, every TenderUpdateResponse, and every list
    of audit entries, the empty one included. *)
Theorem handler_responses_pass_the_tests (t : Run) (text : string) :
  (network (requests_sent t) (root_request (api_url t)) = Returned (ok_response root_message text) →
   (test_root_endpoint t).1 = Returned true)
  ∧ (∀ r, network (requests_sent t) (seal_request (api_url t))
          = Returned (ok_response (dump_SealBidResponse r) text) →
       (test_seal_bid t).1 = Returned true
       ∧ test_bid_hash (test_seal_bid t).2 = Some (JString (sbr_bidHash r))
       ∧ test_bidder_id (test_seal_bid t).2 = Some (JString (sbr_bidderId r)))
  ∧ (∀ r, network (requests_sent t) (compliance_request (api_url t))
          = Returned (ok_response (dump_ComplianceCheckResponse r) text) →
       (test_compliance_check t).1 = Returned true)
  ∧ (∀ r, network (requests_sent t) (update_request (api_url t))
          = Returned (ok_response (dump_TenderUpdateResponse r) text) →
       (test_tender_update t).1 = Returned true)
  ∧ (∀ entries, network (requests_sent t) (audit_request (api_url t))
                = Returned (ok_response (JArray (dump_entry <$> entries)) text) →
       (test_audit_log t).1 = Returned true).
Proof.
  split; [| split; [| split; [| split]]].
  - intros Hnet. unfold test_root_endpoint, run_test, try_except, mbind, T_bind, get_run, send.
    rewrite Hnet. reflexivity.
  - intros r Hnet. unfold test_seal_bid, run_test, try_except, mbind, T_bind, get_run, send.
    rewrite Hnet. repeat split; reflexivity.
  - intros r Hnet.
    unfold test_compliance_check, run_test, try_except, mbind, T_bind, get_run, send.
    rewrite Hnet. reflexivity.
  - intros r Hnet.
    unfold test_tender_update, run_test, try_except, mbind, T_bind, get_run, send.
    rewrite Hnet. reflexivity.
  - intros entries Hnet.
    unfold test_audit_log, run_test, try_except, mbind, T_bind, get_run, send.
    rewrite Hnet. cbn [ok_response status_code body_json lift set_requests_sent test_bid_hash].
    cbv beta iota zeta. rewrite bool_decide_eq_true_2 by done. cbv beta iota.
    destruct entries as [|e entries]; [reflexivity |].
    cbn [fmap list_fmap]. fold (fmap (M:=list) dump_entry entries).
    destruct (test_bid_hash t) as [bid_hash|]; [| reflexivity].
    destruct (any_bid_hash_of_entries bid_hash (e :: entries)) as [found Hfound].
    cbn [fmap list_fmap] in Hfound. fold (fmap (M:=list) dump_entry entries) in Hfound.
    rewrite Hfound. reflexivity.
Qed.

(** X23. The audit test looks at the structure of the first entry only, and
    its look is a test of membership. When no bid hash is kept from the seal
    test, a list of status 200 passes as soon as its first element answers
    True to [field in first] for the five field names, whatever the other
    elements are: an object with the five keys, and as well a list that
    holds the five names, or a text in which the five names occur. *)
Theorem audit_test_checks_first_entry_only (t : Run) (first : json) (others : list json)
    (text : string) :
  network (requests_sent t) (audit_request (api_url t))
  = Returned (ok_response (JArray (first :: others)) text) →
  test_bid_hash t = None →
  (test_audit_log t).1
  = match py_all_in required_fields first with
    | Returned valid => Returned valid
    | Raised _ => Returned false
    end.
Proof.
  intros Hnet Hnone. unfold test_audit_log.
  match goal with
  | |- context [run_test ?n ?b t] =>
      destruct (b t) as [outcome t0] eqn:Hb;
      destruct (run_test_cases n b outcome t t0 eq_refl Hb) as (details & k & t' & -> & _)
  end.
  cbn [fst]. revert Hb. unfold mbind, T_bind, get_run, send. rewrite Hnet, Hnone.
  cbn [ok_response status_code body_json lift set_requests_sent test_bid_hash].
  cbv beta iota zeta. rewrite bool_decide_eq_true_2 by done. cbv beta iota.
  unfold mret, T_ret. cbv beta iota.
  destruct (py_all_in required_fields first) as [[|] | e]; by intros [= <- <-].
Qed.

(** The details the four tests with an error branch work out for a response
    whose status is not 200. *)
Definition error_text (response : Response) (details : string) : string :=
  match body_json response with
  | Returned (JObject fields) =>
      details +:+ ", Error: "
      +:+ py_str (default (JString "Unknown error") (dict_lookup fields "detail"))
  | _ => details +:+ ", Raw response: " +:+ str_slice 100 (text response)
  end.

Lemma error_details_run (response : Response) (details : string) (u : Run) :
  error_details response details u = (Returned (error_text response details), u).
Proof.
  unfold error_details, error_text, try_except, mbind, T_bind, lift.
  destruct (body_json response) as [data | e]; [| done]. by destruct data.
Qed.

(** The frame of a test whose request is not answered with status 200. *)
Lemma unanswered_frame (req : string → Request) (rest : Response → T (bool * string))
    (name : string) (t : Run) :
  valid_utf8 name = true →
  (∀ response, status_code response ≠ 200 →
     ∃ details, ∀ u, rest response u = (Returned (false, details), u)) →
  match network (requests_sent t) (req (api_url t)) with
  | Returned response => status_code response ≠ 200
  | Raised _ => True
  end →
  let run := run_test name (t0 ← get_run; response ← send (req (api_url t0));
                            rest response) t in
  run.1 = Returned false
  ∧ tests_run t + 1 ≤ tests_run run.2 ≤ tests_run t + 2
  ∧ tests_passed run.2 = tests_passed t
  ∧ (∃ name details,
       test_results run.2 = test_results t ++ [mkTestResult name false details]
       ∧ (tests_run run.2 = tests_run t + 2 →
          details = proj1_sig (str_error UnicodeEncodeError)))
  ∧ length (requests_sent run.2) = length (requests_sent t) + 1
  ∧ test_bid_hash run.2 = test_bid_hash t.
Proof.
  intros Hname Hrest Hnet. cbv zeta.
  match goal with
  | |- context [run_test ?n ?b t] =>
      destruct (b t) as [outcome t0] eqn:Hb;
      destruct (run_test_cases n b outcome t t0 Hname Hb)
        as (details & k & t' & -> & Hrun & Hk & _ & Hk2 & _ & Hpassed & Hres
            & _ & _ & Hhash & _ & Hsent & _)
  end.
  cbn [fst snd]. rewrite Hrun, Hpassed, Hres, Hsent, Hhash.
  revert Hb. unfold mbind, T_bind, get_run, send.
  destruct (network (requests_sent t) (req (api_url t))) as [response | e].
  - destruct (Hrest response Hnet) as [found Hfound]. rewrite Hfound. intros [= <- <-].
    cbn [tests_run tests_passed test_results requests_sent test_bid_hash set_requests_sent].
    rewrite length_app. cbn [length].
    repeat split; try done; try lia. exists name, details.
    split; [done |]. intros ?. apply Hk2. lia.
  - intros [= <- <-].
    cbn [tests_run tests_passed test_results requests_sent test_bid_hash set_requests_sent].
    rewrite length_app. cbn [length].
    repeat split; try done; try lia. exists name, details.
    split; [done |]. intros ?. apply Hk2. lia.
Qed.

(** X24. A request the server does not answer with status 200, and a request
    that fails in transit, fail the test without stopping the tester: each of
    the five tests returns False, records exactly one result, a failure,
    counts nothing as passed, sends one request and keeps no bid hash it did
    not have. It counts one test run, or two: two only when the line of the
    failure could not be printed, and the recorded details are then the text
    of that error. *)
Theorem unanswered_requests_fail_the_tests (t : Run) (test : T bool) :
  (∀ r, match network (requests_sent t) r with
        | Returned response => status_code response ≠ 200
        | Raised _ => True
        end) →
  test ∈ [test_root_endpoint; test_seal_bid; test_compliance_check; test_tender_update;
          test_audit_log] →
  (test t).1 = Returned false
  ∧ tests_run t + 1 ≤ tests_run (test t).2 ≤ tests_run t + 2
  ∧ tests_passed (test t).2 = tests_passed t
  ∧ (∃ name details,
       test_results (test t).2 = test_results t ++ [mkTestResult name false details]
       ∧ (tests_run (test t).2 = tests_run t + 2 →
          details = proj1_sig (str_error UnicodeEncodeError)))
  ∧ length (requests_sent (test t).2) = length (requests_sent t) + 1
  ∧ test_bid_hash (test t).2 = test_bid_hash t.
Proof.
  intros Hnet Htest.
  rewrite !elem_of_cons, elem_of_nil in Htest.
  destruct Htest as [-> | [-> | [-> | [-> | [-> | []]]]]].
  - apply (unanswered_frame root_request); [done | | apply Hnet].
    intros response Hne. eexists. intros u.
    by rewrite bool_decide_eq_false_2 by done.
  - apply (unanswered_frame seal_request); [done | | apply Hnet].
    intros response Hne. eexists. intros u.
    rewrite bool_decide_eq_false_2 by done. unfold mbind, T_bind.
    by rewrite error_details_run.
  - apply (unanswered_frame compliance_request); [done | | apply Hnet].
    intros response Hne. eexists. intros u.
    rewrite bool_decide_eq_false_2 by done. unfold mbind, T_bind.
    by rewrite error_details_run.
  - apply (unanswered_frame update_request); [done | | apply Hnet].
    intros response Hne. eexists. intros u.
    rewrite bool_decide_eq_false_2 by done. unfold mbind, T_bind.
    by rewrite error_details_run.
  - apply (unanswered_frame audit_request); [done | | apply Hnet].
    intros response Hne. eexists. intros u.
    rewrite bool_decide_eq_false_2 by done. unfold mbind, T_bind.
    by rewrite error_details_run.
Qed.

(** [x[:n]] is defined on texts and lists only. *)
Definition sliceable (x : json) : Prop :=
  match x with
  | JString _ | JArray _ => True
  | _ => False
  end.

Lemma py_slice_Returned (n : nat) (x y : json) : py_slice n x = Returned y → sliceable x.
Proof. by destruct x. Qed.

(** X25. The seal test keeps a bid hash only when it passes. Either it
    returns True and has kept both [result['bidHash']] and
    [result['bidderId']] of an object the server sent with status 200, each
    a text or a list; or it returns False and the two attributes are as they
    were, so that a fresh tester still has neither. *)
Theorem seal_test_keeps_hash_on_success_only (t : Run) :
  let run := test_seal_bid t in
  (run.1 = Returned true
   ∧ ∃ response fields bid_hash bidder_id,
       network (requests_sent t) (seal_request (api_url t)) = Returned response
       ∧ status_code response = 200
       ∧ body_json response = Returned (JObject fields)
       ∧ dict_lookup fields "bidHash" = Some bid_hash ∧ sliceable bid_hash
       ∧ dict_lookup fields "bidderId" = Some bidder_id ∧ sliceable bidder_id
       ∧ test_bid_hash run.2 = Some bid_hash
       ∧ test_bidder_id run.2 = Some bidder_id)
  ∨ (run.1 = Returned false
     ∧ test_bid_hash run.2 = test_bid_hash t
     ∧ test_bidder_id run.2 = test_bidder_id t).
Proof.
  cbv zeta. unfold test_seal_bid.
  match goal with
  | |- context [run_test ?n ?b t] =>
      destruct (b t) as [outcome t0] eqn:Hb;
      destruct (run_test_cases n b outcome t t0 eq_refl Hb)
        as (details & k & t' & -> & _ & _ & _ & _ & _ & _ & _
            & _ & _ & Hhash & Hid & _ & _)
  end.
  cbn [fst snd]. rewrite Hhash, Hid. clear Hhash Hid.
  revert Hb. unfold mbind, T_bind, get_run, send.
  destruct (network (requests_sent t) (seal_request (api_url t))) as [response | e] eqn:Hnet;
    [| intros [= <- <-]; by right].
  cbv zeta. destruct (decide (status_code response = 200)) as [Hok | Hne].
  2: { rewrite bool_decide_eq_false_2 by done. rewrite error_details_run.
       intros [= <- <-]. by right. }
  rewrite bool_decide_eq_true_2 by done. unfold lift.
  destruct (body_json response) as [result | e] eqn:Hbody;
    [| intros [= <- <-]; by right].
  destruct (py_all_in _ result) as [[|] | e];
    [| intros [= <- <-]; by right | intros [= <- <-]; by right].
  destruct result as [| | | | | fields];
    try (cbn [py_getitem]; intros [= <- <-]; by right).
  cbn [py_getitem].
  destruct (dict_lookup fields "bidHash") as [bid_hash|] eqn:Hhash;
    [| intros [= <- <-]; by right].
  destruct (py_slice 20 bid_hash) as [bid_hash_20 | e] eqn:Hslice;
    [| intros [= <- <-]; by right].
  destruct (dict_lookup fields "bidderId") as [bidder_id|] eqn:Hid;
    [| intros [= <- <-]; by right].
  destruct (py_slice 8 bidder_id) as [bidder_id_8 | e] eqn:Hslice';
    [| intros [= <- <-]; by right].
  unfold modify, mret, T_ret. intros [= <- <-]. left.
  split; [done |]. exists response, fields, bid_hash, bidder_id.
  apply py_slice_Returned in Hslice, Hslice'. by repeat split.
Qed.


End Tester.

End BackendTest.

(** * The model at work

    The contracts assumed of the libraries hold of the primitives defined
    above, and each claim is exercised on a concrete run with them. *)

Local Open Scope list_scope.
Local Open Scope nat_scope.

(** ** The primitives meet their standards' test vectors *)

Example aes256_fips197_vector :
  hexdigest (AES.encrypt_block (bchr <$> seq 0 32) ((λ i, bchr (17 * i)) <$> seq 0 16))
  = "8ea2b7ca516745bfeafc49904b496089"%string.
Proof. vm_compute. reflexivity. Qed.

Example sha256_abc :
  hexdigest (SHA256.sha256 (encode_utf8 "abc"))
  = "ba7816bf8f01cfea414140de5dae2223b00361a396177a9cb410ff61f20015ad"%string.
Proof. vm_compute. reflexivity. Qed.

Example sha3_512_empty :
  hexdigest (SHA3.sha3_512 [])
  = ("a69f73cca23a9ac5c8b567dc185a756e97c982164fe25859e0d1dcc1475c80a6"
     +:+ "15b2123af1f5f94c11e3e9402c3ac558f500199d95b6d3e301758586281dcd26")%string.
Proof. vm_compute. reflexivity. Qed.

(** ** AES is a permutation of blocks *)

Lemma aes_inv_sbox_sbox (a : ascii) : AES.inv_sbox (AES.sbox a) = a.
Proof. destruct a as [[] [] [] [] [] [] [] []]; vm_compute; reflexivity. Qed.

Lemma aes_inv_sub_bytes (s : bytes) : AES.inv_sub_bytes (AES.sub_bytes s) = s.
Proof.
  unfold AES.inv_sub_bytes, AES.sub_bytes. rewrite <- list_fmap_compose.
  rewrite <- (list_fmap_id s) at 2. apply list_fmap_ext. intros _ a _. apply aes_inv_sbox_sbox.
Qed.

Ltac sixteen s :=
  do 16 (destruct s as [|? s]; [by (intros; simplify_eq/=) |]);
  destruct s; [| by (intros; simplify_eq/=)].

Lemma aes_inv_shift_rows (s : bytes) :
  length s = 16 → AES.inv_shift_rows (AES.shift_rows s) = s.
Proof. sixteen s. intros _. reflexivity. Qed.

Lemma aes_shift_rows_length (s : bytes) : length (AES.shift_rows s) = 16.
Proof. reflexivity. Qed.

Lemma aes_inv_mix_column (a b c d : ascii) (rest : bytes) :
  AES.inv_mix_columns (AES.mix_column a b c d ++ rest)
  = a :: b :: c :: d :: AES.inv_mix_columns rest.
Proof.
  destruct a as [a0 a1 a2 a3 a4 a5 a6 a7], b as [b0 b1 b2 b3 b4 b5 b6 b7],
    c as [c0 c1 c2 c3 c4 c5 c6 c7], d as [d0 d1 d2 d3 d4 d5 d6 d7].
  cbv [AES.mix_column AES.inv_mix_columns AES.inv_mix_column app
       AES.mul2 AES.mul3 AES.mul9 AES.mul11 AES.mul13 AES.mul14 AES.xtime xor_byte].
  fold AES.inv_mix_columns.
  repeat (f_equal; try btauto).
Qed.

Lemma aes_inv_mix_columns (s : bytes) :
  length s = 16 → AES.inv_mix_columns (AES.mix_columns s) = s.
Proof.
  sixteen s. intros _. cbn [AES.mix_columns].
  rewrite !aes_inv_mix_column. reflexivity.
Qed.

Lemma aes_mix_columns_length (s : bytes) :
  length s = 16 → length (AES.mix_columns s) = 16.
Proof. sixteen s. intros _. reflexivity. Qed.

Lemma aes_add_round_key_length (rk s : bytes) :
  length s = 16 → length (AES.add_round_key rk s) = 16.
Proof.
  intros Hs. unfold AES.add_round_key. rewrite strxor_length; [done |].
  by rewrite length_resize.
Qed.

Lemma aes_add_round_key_cancel (rk s : bytes) :
  length s = 16 → AES.add_round_key rk (AES.add_round_key rk s) = s.
Proof.
  intros Hs. unfold AES.add_round_key. apply strxor_cancel. by rewrite length_resize.
Qed.

Lemma aes_sub_bytes_length (s : bytes) : length (AES.sub_bytes s) = length s.
Proof. apply length_fmap. Qed.

Lemma aes_encrypt_round_length (s rk : bytes) :
  length s = 16 → length (AES.encrypt_round s rk) = 16.
Proof.
  intros Hs. unfold AES.encrypt_round.
  apply aes_add_round_key_length, aes_mix_columns_length, aes_shift_rows_length.
Qed.

Lemma aes_decrypt_encrypt_round (s rk : bytes) :
  length s = 16 → AES.decrypt_round (AES.encrypt_round s rk) rk = s.
Proof.
  intros Hs. unfold AES.decrypt_round, AES.encrypt_round.
  rewrite aes_add_round_key_cancel
    by apply aes_mix_columns_length, aes_shift_rows_length.
  rewrite aes_inv_mix_columns by apply aes_shift_rows_length.
  rewrite aes_inv_shift_rows by by rewrite aes_sub_bytes_length.
  apply aes_inv_sub_bytes.
Qed.

Lemma aes_rounds_length (rks : list bytes) (s : bytes) :
  length s = 16 → length (foldl AES.encrypt_round s rks) = 16.
Proof.
  revert s. induction rks as [|rk rks IH]; intros s Hs; [done |].
  cbn [foldl]. by apply IH, aes_encrypt_round_length.
Qed.

Lemma aes_rounds_inverse (rks : list bytes) (s : bytes) :
  length s = 16 →
  foldl AES.decrypt_round (foldl AES.encrypt_round s rks) (rev rks) = s.
Proof.
  revert s. induction rks as [|rk rks IH]; intros s Hs; [done |].
  cbn [foldl rev]. rewrite foldl_app. cbn [foldl].
  rewrite IH by by apply aes_encrypt_round_length.
  by apply aes_decrypt_encrypt_round.
Qed.

(** The block cipher keeps the block size. *)
Lemma aes_block_size (key block : bytes) :
  length block = 16 → length (AES.encrypt_block key block) = 16.
Proof.
  intros Hb. unfold AES.encrypt_block. cbv zeta.
  apply aes_add_round_key_length, aes_shift_rows_length.
Qed.

(** Decryption undoes encryption, for every key. *)
Lemma aes_decrypt_block_encrypt_block (key block : bytes) :
  length key = 32 → length block = 16 →
  AES.decrypt_block key (AES.encrypt_block key block) = block.
Proof.
  intros _ Hb. unfold AES.decrypt_block, AES.encrypt_block. cbv zeta.
  set (rks := AES.round_keys key).
  set (s0 := AES.add_round_key (nth 0 rks []) (resize 16 zero block)).
  assert (length s0 = 16) as Hs0.
  { apply aes_add_round_key_length, length_resize. }
  set (s13 := foldl AES.encrypt_round s0 (take 13 (drop 1 rks))).
  assert (length s13 = 16) as Hs13 by by apply aes_rounds_length.
  rewrite (resize_all_alt (AES.add_round_key _ _)).
  2:{ symmetry. apply aes_add_round_key_length, aes_shift_rows_length. }
  rewrite aes_add_round_key_cancel by apply aes_shift_rows_length.
  rewrite aes_inv_shift_rows by by rewrite aes_sub_bytes_length.
  rewrite aes_inv_sub_bytes. unfold s13. rewrite aes_rounds_inverse by done.
  unfold s0. rewrite aes_add_round_key_cancel by apply length_resize.
  by apply resize_all_alt.
Qed.

(** SHA3-512 returns 64 octets. *)
Lemma sha3_512_digest_size (message : bytes) : length (SHA3.sha3_512 message) = 64.
Proof. unfold SHA3.sha3_512. cbv zeta. generalize (foldl SHA3.absorb (replicate 25 0%N)
     (chunks SHA3.rate (SHA3.padded message))). intros s. reflexivity. Qed.

(** The content and tender of the specification's seal scenario. *)
Definition hello : bytes := encode_utf8 "hello".

Definition TENDER_001 : string := "TENDER-001".

(** The response to the specification's seal scenario in the quiet world:
    AES-256-CBC under the fallback key, SHA3-512 over the ciphertext. *)
Definition hello_response : SealBidResponse :=
  mkSealBidResponse true
    "bd8ffe1cdcdc0e91772ed06f6c752abc1ebc82b178196feb4d9045e631c1bd7f91a3c48310f3751cc4c280d02a2995b916779bf69120959f607212add46c37b0"
    "Bid sealed successfully with AES-256 encryption"
    "70777e85-8c93-4aa1-a8af-b6bdc4cbd2d9".

Lemma hello_run :
  seal_bid AES.encrypt_block SHA3.sha3_512 hello TENDER_001 quiet_world
  = (Ok hello_response,
     (seal_bid AES.encrypt_block SHA3.sha3_512 hello TENDER_001 quiet_world).2).
Proof.
  rewrite (surjective_pairing (seal_bid _ _ _ _ _)) at 1.
  apply (f_equal2 pair); [vm_compute; reflexivity | reflexivity].
Qed.

(** C1 at work: "hello" sealed in the quiet world comes back, from what
    [encrypt_file_content] returns and from the stored record. *)
Lemma encrypt_decrypt_roundtrip_witness :
  (∃ (ct iv : bytes) (w' : World),
     encrypt_file_content AES.encrypt_block hello quiet_world = (Ok (ct, iv), w')
     ∧ decrypt_file_content AES.decrypt_block (derived_key quiet_world) iv ct = Ok hello)
  ∧ ∃ doc : document,
      bids (seal_bid AES.encrypt_block SHA3.sha3_512 hello TENDER_001 quiet_world).2 = [doc]
      ∧ open_sealed_record AES.decrypt_block (derived_key quiet_world) doc = Ok hello.
Proof.
  destruct (encrypt_decrypt_roundtrip AES.encrypt_block AES.decrypt_block SHA3.sha3_512
              aes_block_size aes_decrypt_block_encrypt_block hello quiet_world)
    as (Hreturns & Hback & Hrecord).
  split.
  - destruct (Hreturns eq_refl eq_refl) as (ct & iv & w' & Hrun).
    exists ct, iv, w'. split; [exact Hrun |].
    exact (proj2 (Hback ct iv w' Hrun)).
  - destruct (Hrecord TENDER_001 hello_response _ hello_run) as (doc & Hb & _ & Hopen).
    exists doc. split; [exact Hb | exact Hopen].
Defined.

Lemma hello_hash_is_not_of_plaintext :
  sbr_bidHash hello_response ≠ hexdigest (SHA3.sha3_512 hello).
Proof. vm_compute. discriminate. Qed.

(** C2 at work: the scenario of the specification. "hello" sealed for
    TENDER-001 stores a 16-octet IV and a fingerprint of 128 hexadecimal
    digits, the digest of the stored ciphertext and not of "hello". *)
Lemma seal_fingerprint_witness :
  ∃ (payload iv_text : string) (doc : document),
    bids (seal_bid AES.encrypt_block SHA3.sha3_512 hello TENDER_001 quiet_world).2 = [doc]
    ∧ doc !! "encryptedFileBase64" = Some (VStr payload)
    ∧ doc !! "iv" = Some (VStr iv_text)
    ∧ doc !! "bidHash" = Some (VStr (sbr_bidHash hello_response))
    ∧ sbr_bidHash hello_response
      = hexdigest (SHA3.sha3_512 (b64decode (encode_utf8 payload)))
    ∧ sbr_bidHash hello_response ≠ hexdigest (SHA3.sha3_512 hello)
    ∧ String.length (sbr_bidHash hello_response) = 128
    ∧ length (b64decode (encode_utf8 iv_text)) = 16.
Proof.
  destruct (proj2 (seal_fingerprint AES.encrypt_block SHA3.sha3_512 sha3_512_digest_size
                     hello TENDER_001 quiet_world) hello_response _ hello_run)
    as (payload & iv_text & doc & Hb & He & Hi & Hh & _ & Hd & Hl & Hiv).
  exists payload, iv_text, doc.
  split; [exact Hb |]. split; [exact He |]. split; [exact Hi |]. split; [exact Hh |].
  split; [exact Hd |]. split; [exact hello_hash_is_not_of_plaintext |].
  split; [exact Hl | exact Hiv].
Defined.

(** C6 refuted as stated: a secret of 5 octets, and one of 40, are accepted
    without any error; the first is filled with the digit 0, the second cut. *)
Definition short_secret_world : World :=
  set_environ {[ "ENCRYPTION_KEY"%string := "short"%string ]} quiet_world.

Definition long_secret_world : World :=
  set_environ
    {[ "ENCRYPTION_KEY"%string := "0123456789abcdefghijklmnopqrstuvwxyzABCD"%string ]}
    quiet_world.

Lemma wrong_length_secret_is_accepted :
  length (encode_utf8 "short") = 5
  ∧ get_encryption_key short_secret_world
    = (Ok (encode_utf8 "short000000000000000000000000000"), short_secret_world)
  ∧ length (encode_utf8 "0123456789abcdefghijklmnopqrstuvwxyzABCD") = 40
  ∧ get_encryption_key long_secret_world
    = (Ok (encode_utf8 "0123456789abcdefghijklmnopqrstuv"), long_secret_world).
Proof. repeat split. Qed.

(** C7 refuted as stated: sealing with no secret configured and sealing with
    the secret configured to the 32 octets of the fallback are
    indistinguishable: same outcome, same stored records, and an empty log in
    both. *)
Definition configured_world : World :=
  set_environ {[ "ENCRYPTION_KEY"%string := DEV_KEY_32 ]} quiet_world.

Lemma fallback_key_is_unmarked :
  environ quiet_world !! "ENCRYPTION_KEY"%string = None
  ∧ environ configured_world !! "ENCRYPTION_KEY"%string = Some DEV_KEY_32
  ∧ ∀ aes_encrypt_block sha3_512 file tender_id,
      let fallback := seal_bid aes_encrypt_block sha3_512 file tender_id quiet_world in
      let configured :=
        seal_bid aes_encrypt_block sha3_512 file tender_id configured_world in
      (∃ r, fallback.1 = Ok r ∧ configured.1 = Ok r)
      ∧ bids fallback.2 = bids configured.2
      ∧ log fallback.2 = [] ∧ log configured.2 = [].
Proof.
  split; [done |]. split; [done |].
  intros aes_encrypt_block sha3_512 file tender_id. cbv zeta.
  destruct (seal_bid_success aes_encrypt_block sha3_512 file tender_id quiet_world
              (λ c _, eq_refl)) as (w1 & -> & Hb1 & _ & _ & Hl1).
  destruct (seal_bid_success aes_encrypt_block sha3_512 file tender_id configured_world
              (λ c _, eq_refl)) as (w2 & -> & Hb2 & _ & _ & Hl2).
  cbn [fst snd]. split; [by eexists |]. split; [by rewrite Hb1, Hb2 |]. done.
Qed.

(** C7 at work. *)
Lemma seal_with_fallback_key_witness :
  ∃ r w',
    seal_bid AES.encrypt_block SHA3.sha3_512 hello TENDER_001 quiet_world = (Ok r, w')
    ∧ sbr_success r = true ∧ log w' = []
    ∧ ∃ w'', seal_bid AES.encrypt_block SHA3.sha3_512 hello TENDER_001 configured_world
             = (Ok r, w'')
           ∧ bids w'' = bids w'.
Proof.
  destruct (seal_with_fallback_key AES.encrypt_block SHA3.sha3_512 hello TENDER_001 quiet_world
              eq_refl (λ c _, eq_refl)) as (r & w' & Hrun & Hs & _ & Hl & Hsame).
  exists r, w'. split; [exact Hrun |]. split; [exact Hs |]. split; [exact Hl |].
  destruct (Hsame DEV_KEY_32 eq_refl) as (w'' & Hrun' & Hb & _).
  exists w''. split; [exact Hrun' | exact Hb].
Defined.

(** C8 at work: the digest library is down. *)
Definition digest_down_world : World :=
  set_faults (λ c, if decide (c = DigestLib) then Some "digest unavailable"%string else None)
    quiet_world.

Lemma seal_failure_commits_nothing_witness :
  ∃ detail w',
    seal_bid AES.encrypt_block SHA3.sha3_512 hello TENDER_001 digest_down_world
    = (Raise (HTTPException 500 detail), w')
    ∧ bids w' = [] ∧ tender_updates w' = [].
Proof.
  apply (proj1 (seal_failure_commits_nothing AES.encrypt_block SHA3.sha3_512 hello TENDER_001
                  digest_down_world)).
  exists DigestLib. split; [compute_done | by eexists].
Defined.

(** X26 at work: "hello" sealed twice in a row. *)
Definition after_hello : World :=
  (seal_bid AES.encrypt_block SHA3.sha3_512 hello TENDER_001 quiet_world).2.

Lemma hello_twice_no_collision :
  next_iv quiet_world ≠ next_iv after_hello
  ∧ ¬ collision SHA3.sha3_512
        (cbc_ciphertext AES.encrypt_block (derived_key quiet_world) (next_iv quiet_world)
           hello)
        (cbc_ciphertext AES.encrypt_block (derived_key after_hello) (next_iv after_hello)
           hello).
Proof.
  split.
  - vm_compute. discriminate.
  - intros [_ Hsame]. revert Hsame. vm_compute. discriminate.
Qed.

Lemma reseal_changes_fingerprint_witness :
  ∃ rb wb',
    seal_bid AES.encrypt_block SHA3.sha3_512 hello TENDER_001 after_hello = (Ok rb, wb')
    ∧ sbr_bidHash hello_response ≠ sbr_bidHash rb.
Proof.
  destruct (seal_bid_success AES.encrypt_block SHA3.sha3_512 hello TENDER_001 after_hello
              (λ c _, eq_refl)) as (wb' & Hrun & _).
  eexists _, wb'. split; [exact Hrun |].
  exact (proj2 (proj2 (proj2
    (reseal_changes_fingerprint AES.encrypt_block AES.decrypt_block SHA3.sha3_512
       aes_block_size aes_decrypt_block_encrypt_block hello TENDER_001 TENDER_001
       quiet_world after_hello _ wb' hello_response _ hello_run Hrun eq_refl
       (proj1 hello_twice_no_collision) (proj2 hello_twice_no_collision))))).
Defined.

(** C3 at work: the scenario of the specification. The same update twice,
    in different worlds, gives one hash; changing updatedBy to "other" gives
    another. *)
Definition deadline_by_admin : TenderUpdate :=
  parse_TenderUpdate "TENDER-001" "deadline extended" (Some "admin"%string).

Definition deadline_by_other : TenderUpdate :=
  parse_TenderUpdate "TENDER-001" "deadline extended" (Some "other"%string).

Definition after_update : World :=
  (tender_update SHA256.sha256 deadline_by_admin quiet_world).2.

Example deadline_by_admin_hash :
  (tender_update SHA256.sha256 deadline_by_admin quiet_world).1
  = Ok (mkTenderUpdateResponse true
          "a415842f9e321ed147155a7d9711b40803f367a7a5d14666267e9198bb8db3b5"
          "2024-05-01T10:00:00+00:00").
Proof. vm_compute. reflexivity. Qed.

Lemma update_hash_spec_witness :
  ∃ r1 r2 r3 w1 w2 w3,
    tender_update SHA256.sha256 deadline_by_admin quiet_world = (Ok r1, w1)
    ∧ tender_update SHA256.sha256 deadline_by_admin after_update = (Ok r2, w2)
    ∧ tender_update SHA256.sha256 deadline_by_other after_update = (Ok r3, w3)
    ∧ tur_updateHash r1 = tur_updateHash r2
    ∧ tur_updateHash r1 ≠ tur_updateHash r3.
Proof.
  destruct (update_hash_spec SHA256.sha256 deadline_by_admin deadline_by_admin
              quiet_world after_update) as [Hret1 Hsame].
  destruct (update_hash_spec SHA256.sha256 deadline_by_admin deadline_by_other
              after_update after_update) as [Hret2 Hother].
  destruct (update_hash_spec SHA256.sha256 deadline_by_other deadline_by_other
              after_update after_update) as [Hret3 _].
  destruct (Hret1 (λ c _, eq_refl)) as (r1 & w1 & Hrun1).
  destruct (Hret2 (λ c _, eq_refl)) as (r2 & w2 & Hrun2).
  destruct (Hret3 (λ c _, eq_refl)) as (r3 & w3 & Hrun3).
  exists r1, r2, r3, w1, w2, w3. repeat split; try assumption.
  - exact (proj1 (proj2 (proj2 (Hsame r1 r2 w1 w2 Hrun1 Hrun2))) eq_refl).
  - rewrite (proj1 (proj2 (proj2 (Hsame r1 r2 w1 w2 Hrun1 Hrun2))) eq_refl).
    refine (proj2 (proj2 (proj2 (Hother r2 r3 w2 w3 Hrun2 Hrun3))) _ _).
    + vm_compute. discriminate.
    + intros [_ Hcol]. revert Hcol. vm_compute. discriminate.
Defined.

(** C10 at work. *)
Lemma delimiter_collision_witness :
  ∃ r1 r2 w1 w2,
    tender_update SHA256.sha256 (mkTenderUpdate "a:b" "c" "x") quiet_world = (Ok r1, w1)
    ∧ tender_update SHA256.sha256 (mkTenderUpdate "a" "b:c" "x") quiet_world = (Ok r2, w2)
    ∧ tur_updateHash r2 = tur_updateHash r1.
Proof.
  destruct (proj2 (proj2 (delimiter_collision SHA256.sha256) quiet_world) (λ c _, eq_refl))
    as (r1 & r2 & w1 & w2 & H1 & H2 & _ & Heq).
  by exists r1, r2, w1, w2.
Defined.

(** C4 and C5 at work: the scenario of the specification. Three bids are
    sealed while the clock reads 10:00:02, then 10:00:03, then 10:00:01. *)
Definition shuffled_clock (n : nat) : string :=
  match n with
  | 0 => "2024-05-01T10:00:02+00:00"
  | 1 => "2024-05-01T10:00:03+00:00"
  | _ => "2024-05-01T10:00:01+00:00"
  end.

Definition shuffled_world : World :=
  mkWorld ∅ [] [] (entropy quiet_world) 0 shuffled_clock 0 0 (λ _, None) [].

Definition three_bids_world : World :=
  let seal tender w := (seal_bid AES.encrypt_block SHA3.sha3_512 hello tender w).2 in
  seal "T-C"%string (seal "T-B"%string (seal "T-A"%string shuffled_world)).

Example three_bids_in_insertion_order :
  (λ d : document, d !! "tenderId") <$> bids three_bids_world
  = [Some (VStr "T-A"); Some (VStr "T-B"); Some (VStr "T-C")].
Proof. vm_compute. reflexivity. Qed.

Example three_bids_listed_newest_first :
  ∃ entries,
    (audit_log_route three_bids_world).1 = Ok entries
    ∧ (λ e, (ale_tenderId e, ale_timestamp e, ale_status e)) <$> entries
      = [("T-B", "2024-05-01T10:00:03+00:00", "SEALED");
         ("T-A", "2024-05-01T10:00:02+00:00", "SEALED");
         ("T-C", "2024-05-01T10:00:01+00:00", "SEALED")]%string.
Proof. eexists. split; vm_compute; reflexivity. Qed.

Definition returned {A} (r : result A) : option A :=
  match r with
  | Ok a => Some a
  | Raise _ => None
  end.

Lemma three_bids_route_returns :
  length <$> returned (audit_log_route three_bids_world).1 = Some 3.
Proof. vm_compute. reflexivity. Qed.

Lemma audit_log_sorted_limited_pure_witness :
  ∃ entries w',
    audit_log_route three_bids_world = (Ok entries, w')
    ∧ StronglySorted newer_first entries ∧ length entries ≤ 1000
    ∧ w' = three_bids_world.
Proof.
  pose proof three_bids_route_returns as Hret.
  destruct (audit_log_route three_bids_world) as [[entries | e] w'] eqn:Hrun; [| done].
  exists entries, w'. split; [done |].
  destruct (audit_log_sorted_limited_pure three_bids_world) as (_ & Hsorted & _ & Hpure).
  destruct (Hsorted entries w' Hrun) as [Hs Hl].
  split; [exact Hs |]. split; [exact Hl |]. exact (Hpure _ _ Hrun).
Defined.

Lemma audit_entries_fields_witness :
  ∃ entries w',
    audit_log_route three_bids_world = (Ok entries, w')
    ∧ length entries = 3
    ∧ Forall (λ e, dom (dump_AuditLogEntry e) = audit_fields
                   ∧ dump_AuditLogEntry e !! "encryptedFileBase64" = None
                   ∧ dump_AuditLogEntry e !! "iv" = None) entries.
Proof.
  pose proof three_bids_route_returns as Hret.
  destruct (audit_log_route three_bids_world) as [[entries | e] w'] eqn:Hrun; [| done].
  exists entries, w'. split; [done |]. split.
  - by injection Hret.
  - exact (proj1 (proj2 (proj2 (proj2 (audit_entries_fields three_bids_world)))
                    entries w' Hrun)).
Defined.

(** ** The further properties at work *)

(** SHA-256 returns 32 octets. *)
Lemma sha256_digest_size (message : bytes) : length (SHA256.sha256 message) = 32.
Proof.
  unfold SHA256.sha256.
  destruct (foldl SHA256.compress SHA256.initial (chunks 64 (SHA256.padded message)))
    as [[[[[[[a b] c] d] e] f] g] h].
  reflexivity.
Qed.

(** ** C3 as stated, against the size of a digest *)

Lemma ascii_enum_NoDup : NoDup (ascii_of_nat <$> seq 0 256).
Proof. apply (bool_decide_unpack _). vm_compute. exact I. Qed.

Lemma ascii_enum_all (c : ascii) : c ∈ ascii_of_nat <$> seq 0 256.
Proof.
  apply list_elem_of_fmap. exists (nat_of_ascii c).
  split; [by rewrite ascii_nat_embedding |].
  apply elem_of_seq. pose proof (nat_ascii_bounded c). lia.
Qed.

Global Instance ascii_finite : Finite ascii :=
  {| enum := ascii_of_nat <$> seq 0 256;
     NoDup_enum := ascii_enum_NoDup;
     elem_of_enum := ascii_enum_all |}.

Lemma ascii_card : card ascii = 2 ^ 8.
Proof. reflexivity. Qed.

(** There are fewer digests of 32 octets than texts of 257 binary digits. *)
Lemma digests_fewer_than_texts :
  card { digest : bytes | length digest = 32 } < card (vec bool 257).
Proof.
  rewrite list_card, vec_card, bool_card, ascii_card, <- Nat.pow_mul_r.
  apply Nat.pow_lt_mono_r; lia.
Qed.

Definition binary_digit (b : bool) : ascii := if b then "1"%char else "0"%char.

Definition binary_text (v : vec bool 257) : string :=
  string_of_list_ascii (binary_digit <$> vec_to_list v).

Global Instance binary_digit_inj : Inj (=) (=) binary_digit.
Proof. by intros [] [] ?. Qed.

Lemma binary_text_inj (v1 v2 : vec bool 257) : binary_text v1 = binary_text v2 → v1 = v2.
Proof.
  unfold binary_text. intros Heq.
  apply (f_equal list_ascii_of_string) in Heq.
  rewrite !list_ascii_of_string_of_list_ascii in Heq.
  apply vec_to_list_inj2. revert Heq. apply (inj (fmap binary_digit)).
Qed.

(** The update "T1", "x" signed by a text of binary digits. *)
Definition signed_update (v : vec bool 257) : TenderUpdate :=
  mkTenderUpdate "T1" "x" (binary_text v).

Definition signed_digest (v : vec bool 257) : { digest : bytes | length digest = 32 } :=
  SHA256.sha256 (encode_utf8 (update_message (signed_update v)))
  ↾ sha256_digest_size _.

(** C3 refuted as stated. Two updates that differ in [updatedBy] alone, and
    whose concatenated texts differ, are given the same update hash: a digest
    of 256 bits cannot tell 2^257 signatures apart. *)
Lemma update_hashes_collide :
  ∃ (by1 by2 : string) r1 r2 w1 w2,
    update_message (mkTenderUpdate "T1" "x" by1)
    ≠ update_message (mkTenderUpdate "T1" "x" by2)
    ∧ tender_update SHA256.sha256 (mkTenderUpdate "T1" "x" by1) quiet_world = (Ok r1, w1)
    ∧ tender_update SHA256.sha256 (mkTenderUpdate "T1" "x" by2) quiet_world = (Ok r2, w2)
    ∧ tur_updateHash r1 = tur_updateHash r2.
Proof.
  destruct (finite_pigeonhole signed_digest digests_fewer_than_texts)
    as (v1 & v2 & Hne & Hsame).
  apply (f_equal proj1_sig) in Hsame. unfold signed_digest in Hsame. cbn [proj1_sig] in Hsame.
  exists (binary_text v1), (binary_text v2).
  rewrite !tender_update_run. cbv zeta.
  change (faults quiet_world DigestLib) with (@None string).
  change (faults quiet_world Clock) with (@None string).
  change (faults quiet_world InsertUpdate) with (@None string). cbv iota.
  eexists _, _, _, _. split; [| split; [reflexivity | split; [reflexivity |]]].
  - unfold update_message. cbn [tu_tenderId tu_updateContent tu_updatedBy].
    intros Heq. apply Hne, binary_text_inj.
    change ("T1" +:+ ":" +:+ "x" +:+ ":" +:+ ?s) with (String "T" (String "1" (String ":" (String "x" (String ":" s))))) in Heq.
    by injection Heq.
  - cbn [tur_updateHash]. unfold signed_update in Hsame. by rewrite Hsame.
Qed.

(** X2 at work: the record of the sealed "hello". *)
Lemma sealed_record_shape_witness :
  ∃ doc : document,
    bids after_hello = [doc]
    ∧ dom doc = {[ "_id"; "tenderId"; "bidHash"; "timestamp"; "bidderId"; "status";
                   "encryptedFileBase64"; "iv" ]}
    ∧ doc !! "tenderId" = Some (VStr TENDER_001)
    ∧ doc !! "bidHash" = Some (VStr (sbr_bidHash hello_response))
    ∧ doc !! "bidderId" = Some (VStr "70777e85-8c93-4aa1-a8af-b6bdc4cbd2d9")
    ∧ doc !! "status" = Some (VStr "SEALED").
Proof.
  destruct (sealed_record_shape AES.encrypt_block SHA3.sha3_512 hello TENDER_001 quiet_world
              _ hello_response hello_run)
    as (doc & payload & iv_text & Hb & Hdom & _ & Ht & Hh & Hid & _ & Hs & _).
  exists doc. split; [exact Hb |]. split; [exact Hdom |]. split; [exact Ht |].
  split; [exact Hh |]. split; [exact Hid | exact Hs].
Defined.

(** X4 and X6 at work: an offer of 1000 becomes an offer of 9000. The mask
    changes one digit of the first block. *)
Definition offer : bytes := encode_utf8 "PRICE: 1000 EUR, 30 days".

Definition altered_offer : bytes := encode_utf8 "PRICE: 9000 EUR, 30 days".

Definition digit_mask : bytes := replicate 7 zero ++ [bchr 8] ++ replicate 8 zero.

(** The quiet world, with the IV that will be drawn masked. *)
Definition masked_world : World :=
  mkWorld ∅ [] [] (λ n, xor_byte (entropy quiet_world n) (nth n digit_mask zero)) 0
    quiet_clock 0 0 (λ _, None) [].

Lemma fingerprint_ignores_iv_witness :
  ∃ ra rb wa' wb',
    seal_bid AES.encrypt_block SHA3.sha3_512 offer TENDER_001 quiet_world = (Ok ra, wa')
    ∧ seal_bid AES.encrypt_block SHA3.sha3_512 altered_offer TENDER_001 masked_world
      = (Ok rb, wb')
    ∧ altered_offer ≠ offer
    ∧ sbr_bidHash ra = sbr_bidHash rb.
Proof.
  destruct (seal_bid_success AES.encrypt_block SHA3.sha3_512 offer TENDER_001 quiet_world
              (λ c _, eq_refl)) as (wa' & Ha & _).
  destruct (seal_bid_success AES.encrypt_block SHA3.sha3_512 altered_offer TENDER_001
              masked_world (λ c _, eq_refl)) as (wb' & Hb & _).
  eexists _, _, wa', wb'. split; [exact Ha |]. split; [exact Hb |].
  destruct (fingerprint_ignores_iv AES.encrypt_block SHA3.sha3_512 offer digit_mask
              TENDER_001 TENDER_001 quiet_world masked_world wa' wb' _ _
              ltac:(vm_compute; lia) eq_refl eq_refl eq_refl Ha Hb)
    as (Hsame & Hdiffer & _).
  split; [| exact Hsame]. apply Hdiffer. discriminate.
Defined.

Lemma stored_iv_is_not_fingerprinted_witness :
  ∃ (doc : document) (iv : bytes),
    bids (seal_bid AES.encrypt_block SHA3.sha3_512 offer TENDER_001 quiet_world).2 = [doc]
    ∧ open_sealed_record AES.decrypt_block (derived_key quiet_world) doc = Ok offer
    ∧ open_sealed_record AES.decrypt_block (derived_key quiet_world)
        (<["iv" := VStr (decode_utf8 (b64encode (strxor iv digit_mask)))]> doc)
      = Ok altered_offer
    ∧ (<["iv" := VStr (decode_utf8 (b64encode (strxor iv digit_mask)))]> doc) !! "bidHash"
      = doc !! "bidHash".
Proof.
  destruct (seal_bid_success AES.encrypt_block SHA3.sha3_512 offer TENDER_001 quiet_world
              (λ c _, eq_refl)) as (w' & Hrun & _).
  destruct (stored_iv_is_not_fingerprinted AES.encrypt_block AES.decrypt_block SHA3.sha3_512
              aes_block_size aes_decrypt_block_encrypt_block offer digit_mask TENDER_001
              quiet_world w' _ ltac:(vm_compute; lia) eq_refl Hrun)
    as (doc & iv & payload & Hb & _ & _ & Hopen & _ & _ & _ & Haltered & _).
  exists doc, iv. rewrite Hrun. split; [exact Hb |]. split; [exact Hopen |].
  split; [exact Haltered |]. apply lookup_insert_ne. discriminate.
Defined.

(** X5 at work: "hello", of 5 octets, is stored as one block. *)
Lemma ciphertext_length_witness :
  ∃ ct iv w',
    encrypt_file_content AES.encrypt_block hello quiet_world = (Ok (ct, iv), w')
    ∧ length ct = 16 ∧ length iv = 16.
Proof.
  eexists _, _, _. split; [reflexivity |].
  destruct (ciphertext_length AES.encrypt_block aes_block_size hello _ _ quiet_world _
              eq_refl) as (Hct & _ & Hiv & _).
  split; [exact Hct | exact Hiv].
Defined.

(** X9 and X10 at work: the two updates of the specification's scenario. *)
Lemma deadline_updates_do_not_collide :
  ¬ collision SHA256.sha256 (encode_utf8 (update_message deadline_by_admin))
      (encode_utf8 (update_message deadline_by_other)).
Proof. intros [_ Hcol]. revert Hcol. vm_compute. discriminate. Qed.

Lemma update_hash_identifies_colon_free_witness :
  ∃ r1 r2 w1 w2,
    tender_update SHA256.sha256 deadline_by_admin quiet_world = (Ok r1, w1)
    ∧ tender_update SHA256.sha256 deadline_by_other quiet_world = (Ok r2, w2)
    ∧ tur_updateHash r1 ≠ tur_updateHash r2.
Proof.
  eexists _, _, _, _. split; [reflexivity |]. split; [reflexivity |].
  refine (proj2 (update_hash_identifies_colon_free SHA256.sha256 deadline_by_admin
                   deadline_by_other quiet_world quiet_world _ _ _ _
                   _ _ _ _ _ eq_refl eq_refl) deadline_updates_do_not_collide);
    [compute_done.. | discriminate].
Defined.

Lemma update_hash_text_witness :
  ∃ r w',
    tender_update SHA256.sha256 deadline_by_admin quiet_world = (Ok r, w')
    ∧ String.length (tur_updateHash r) = 64
    ∧ Forall lower_hex (encode_utf8 (tur_updateHash r)).
Proof.
  eexists _, _. split; [reflexivity |].
  destruct (update_hash_text SHA256.sha256 sha256_digest_size deadline_by_admin quiet_world
              _ _ eq_refl) as (Hlen & Hhex & _).
  split; [exact Hlen | exact Hhex].
Defined.

(** X11 and X13 at work: the three bids, and the sealed "hello". *)
Lemma three_bids_store_answers :
  faults three_bids_world FindBids = None ∧ length (bids three_bids_world) = 3.
Proof. split; vm_compute; reflexivity. Qed.

Lemma audit_log_keeps_newest_witness :
  ∃ docs kept,
    get_audit_log three_bids_world = (Ok docs, three_bids_world)
    ∧ bids three_bids_world ≡ₚ kept
    ∧ docs = project audit_projection <$> kept
    ∧ length docs = 3.
Proof.
  destruct three_bids_store_answers as [Hfind Hcount].
  assert (∃ docs, get_audit_log three_bids_world = (Ok docs, three_bids_world)) as [docs Hrun].
  { rewrite get_audit_log_run, Hfind. by eexists. }
  destruct (audit_log_keeps_newest three_bids_world three_bids_world docs Hrun)
    as (kept & rest & Hperm & Hdocs & Hlen & Hrest & _).
  exists docs, kept. split; [exact Hrun |].
  rewrite Hcount in Hlen, Hrest. rewrite (Hrest ltac:(lia)), app_nil_r in Hperm.
  split; [exact Hperm |]. split; [exact Hdocs | exact Hlen].
Defined.

Lemma hello_store_answers : faults after_hello FindBids = None.
Proof. vm_compute. reflexivity. Qed.

Lemma sealed_bid_is_listed_witness :
  ∃ entries,
    audit_log_route after_hello = (Ok entries, after_hello)
    ∧ length entries = 1
    ∧ mkAuditLogEntry TENDER_001 (sbr_bidHash hello_response) "2024-05-01T10:00:00+00:00"
        "70777e85-8c93-4aa1-a8af-b6bdc4cbd2d9" "SEALED" ∈ entries.
Proof.
  exact (sealed_bid_is_listed AES.encrypt_block SHA3.sha3_512 hello TENDER_001 quiet_world
           after_hello hello_response (Forall_nil_2 _) ltac:(simpl; lia) hello_run
           hello_store_answers).
Defined.

(** X12 at work: a record written by other means, without its status. *)
Definition record_without_status : document :=
  {[ "tenderId" := VStr "T-X"; "bidHash" := VStr "00"; "timestamp" := VStr "2024-05-01";
     "bidderId" := VStr "someone" ]}.

Definition unlistable_world : World := set_bids [record_without_status] quiet_world.

Lemma record_without_status_is_unlistable :
  ¬ Forall audit_ready (sorted_bids unlistable_world).
Proof.
  intros Hall. change (sorted_bids unlistable_world) with [record_without_status] in Hall.
  apply Forall_cons in Hall as [Hready _].
  destruct (Hready "status"%string ltac:(compute_done)) as [s Hs]. discriminate.
Qed.

Lemma unlistable_record_fails_route_witness :
  ∃ field docs,
    get_audit_log unlistable_world = (Ok docs, unlistable_world)
    ∧ audit_log_route unlistable_world
      = (Raise (ResponseValidationError field), unlistable_world).
Proof.
  destruct (proj2 (unlistable_record_fails_route unlistable_world eq_refl)
              record_without_status_is_unlistable) as (field & docs & _ & Hlog & Hroute).
  exists field, docs. split; [exact Hlog | exact Hroute].
Defined.

(** X15 to X19 at work. The chat library answers five lines, two of them
    bullets and one a bare hyphen; the framework prints an HTTP error as its
    status, a colon and its detail. *)
Definition framework_str (status_code : nat) (detail : string) : string :=
  pretty status_code +:+ ": " +:+ detail.

Definition chat_answer : string :=
  "Findings:" +:+ String LF
  "- Delivery in 45 days exceeds the 30 days required" +:+ String LF
  "  * ISO certificate not attached  " +:+ String LF
  "-" +:+ String LF
  "Otherwise compliant.".

Definition chat (api_key session_id system_message provider model text : string)
  : result (option string) := Ok (Some chat_answer).

Definition keyed_world : World :=
  set_environ {[ "EMERGENT_LLM_KEY"%string := "test-key"%string ]} quiet_world.

Definition sample_request : ComplianceCheckRequest :=
  mkComplianceCheckRequest "Delivery within 30 days, ISO certification"
    "Delivery in 45 days, ISO 9001".

Definition sample_response : ComplianceCheckResponse :=
  mkComplianceCheckResponse true chat_answer
    ["Delivery in 45 days exceeds the 30 days required"; "ISO certificate not attached";
     ""]%string.

Lemma sample_run :
  check_compliance framework_str chat sample_request keyed_world
  = (Ok sample_response, set_entropy_pos 16 keyed_world).
Proof. vm_compute. reflexivity. Qed.

Lemma compliance_without_key_witness :
  check_compliance framework_str chat sample_request quiet_world
  = (Raise (HTTPException 500
              "Compliance check failed: 500: EMERGENT_LLM_KEY not configured"),
     set_log ["Compliance check failed: 500: EMERGENT_LLM_KEY not configured"%string]
       quiet_world).
Proof.
  exact (compliance_without_key framework_str chat sample_request quiet_world
           (or_introl eq_refl)).
Defined.

Lemma compliance_response_shape_witness :
  ccr_success sample_response = true
  ∧ ccr_analysis sample_response ≠ ""%string
  ∧ ccr_violations sample_response ≠ [].
Proof.
  destruct (compliance_response_shape framework_str chat sample_request keyed_world _
              sample_response sample_run) as (Hs & Ha & Hv & _).
  split; [exact Hs |]. split; [exact Ha | exact Hv].
Defined.

Lemma violations_are_excerpts_witness :
  length (ccr_violations sample_response) ≤ 5
  ∧ occurs_in "ISO certificate not attached" chat_answer.
Proof.
  destruct (violations_are_excerpts framework_str chat sample_request keyed_world _
              sample_response sample_run) as [Hlen Hpart].
  split; [exact Hlen |].
  destruct (Hpart "ISO certificate not attached"%string ltac:(compute_done))
    as [Hplaceholder | (line & _ & _ & _ & Hocc)]; [discriminate | exact Hocc].
Defined.

Lemma bare_bullet_gives_empty_violation_witness :
  ""%string ∈ ccr_violations sample_response.
Proof.
  refine (proj1 (bare_bullet_gives_empty_violation framework_str chat sample_request
                   keyed_world _ sample_response "-"%string sample_run _ eq_refl _));
    compute_done.
Defined.

(** X1 at work: the empty file, sealed under the secret "short". *)
Lemma seal_bid_outcome_witness :
  ∃ r, (seal_bid AES.encrypt_block SHA3.sha3_512 [] TENDER_001 short_secret_world).1 = Ok r
       ∧ sbr_success r = true.
Proof.
  pose proof (seal_bid_outcome AES.encrypt_block SHA3.sha3_512 [] TENDER_001
                short_secret_world) as Hrun.
  change (first_fault short_secret_world seal_calls) with (@None string) in Hrun.
  cbv iota in Hrun. eexists. split.
  - apply Hrun. intros secret Hsecret. vm_compute in Hsecret.
    injection Hsecret as <-. reflexivity.
  - reflexivity.
Defined.

(** ** The tester against three servers (X21, X23, X24, X27)

    A server that refuses every connection, one whose audit log is a list
    of a text and a null, and one that answers every request with status 500
    and a detail that is a lone surrogate, U+D800. *)

Definition refusing : list BackendTest.Request → BackendTest.Request
                      → BackendTest.py_result BackendTest.Response :=
  λ _ _, BackendTest.Raised (BackendTest.RequestFailed "Connection refused").

Definition loose_log : BackendTest.json :=
  BackendTest.JArray
    [BackendTest.JString "tenderId, bidHash, timestamp, bidderId, status";
     BackendTest.JNull].

Definition loose : list BackendTest.Request → BackendTest.Request
                   → BackendTest.py_result BackendTest.Response :=
  λ _ _, BackendTest.Returned (BackendTest.ok_response loose_log "").

Definition lone_surrogate : string :=
  String (ascii_of_nat 237) (String (ascii_of_nat 160) (String (ascii_of_nat 128) "")).

Definition surrogate_answer : BackendTest.Response :=
  BackendTest.mkResponse 500
    (BackendTest.Returned (BackendTest.JObject [("detail", BackendTest.JString lone_surrogate)]))
    "".

Definition unprintable : list BackendTest.Request → BackendTest.Request
                         → BackendTest.py_result BackendTest.Response :=
  λ _ _, BackendTest.Returned surrogate_answer.

(** Equality of two texts; enough for the values these servers send. *)
Definition text_eq (a b : BackendTest.json) : bool :=
  match a, b with
  | BackendTest.JString x, BackendTest.JString y => bool_decide (x = y)
  | _, _ => false
  end.

Definition repr_unused (x : BackendTest.json) : string := "...".

Definition error_message (e : BackendTest.py_error) : string :=
  match e with
  | BackendTest.RequestFailed _ => "Connection refused"
  | BackendTest.UnicodeEncodeError =>
      "'utf-8' codec can't encode character '\ud800' in position 32: surrogates not allowed"
  | _ => "error"
  end.

Lemma error_message_valid (e : BackendTest.py_error) :
  valid_utf8 (error_message e) = true.
Proof. by destruct e. Qed.

Definition str_of_error (e : BackendTest.py_error) : { text | valid_utf8 text = true } :=
  exist _ (error_message e) (error_message_valid e).

Definition rate_in_percent (passed run : nat) : string :=
  pretty (passed * 100 / run) +:+ ".0%".

Definition writable (path : string) : BackendTest.py_result () := BackendTest.Returned ().

Definition fresh_tester : BackendTest.Run :=
  BackendTest.new_tester BackendTest.DEFAULT_BASE_URL.

Lemma main_exit_status_witness :
  ∃ status,
    (BackendTest.main refusing text_eq repr_unused str_of_error "2025-01-01T00:00:00"
       rate_in_percent writable).1 = BackendTest.Returned status
    ∧ (status ≠ 0 → status = 1).
Proof.
  destruct (BackendTest.main_exit_status refusing text_eq repr_unused str_of_error
              "2025-01-01T00:00:00" rate_in_percent writable eq_refl)
    as (status & report & Hstatus & _ & _ & _ & _ & _ & _ & _ & Hone).
  exists status. split; [exact Hstatus | exact Hone].
Defined.

Lemma audit_test_checks_first_entry_only_witness :
  (BackendTest.test_audit_log loose text_eq repr_unused str_of_error fresh_tester).1
  = BackendTest.Returned true.
Proof.
  exact (BackendTest.audit_test_checks_first_entry_only loose text_eq repr_unused
           str_of_error fresh_tester
           (BackendTest.JString "tenderId, bidHash, timestamp, bidderId, status")
           [BackendTest.JNull] "" eq_refl eq_refl).
Defined.

Definition refused_seal : BackendTest.py_result bool * BackendTest.Run :=
  BackendTest.test_seal_bid refusing repr_unused str_of_error fresh_tester.

Lemma unanswered_requests_fail_the_tests_witness :
  refused_seal.1 = BackendTest.Returned false
  ∧ BackendTest.tests_passed refused_seal.2 = 0
  ∧ length (BackendTest.requests_sent refused_seal.2) = 1
  ∧ BackendTest.test_bid_hash refused_seal.2 = None.
Proof.
  destruct (BackendTest.unanswered_requests_fail_the_tests refusing text_eq repr_unused
              str_of_error fresh_tester
              (BackendTest.test_seal_bid refusing repr_unused str_of_error) (λ _, I))
    as (Hfalse & _ & Hpassed & _ & Hsent & Hhash).
  - right. left.
  - split; [exact Hfalse |]. split; [exact Hpassed |]. split; [exact Hsent | exact Hhash].
Defined.



(** Against that server the five tests leave nine test runs counted for
    five results: the root test reports the status alone, the four others
    the detail. *)
Lemma unprintable_server_counts_nine :
  let run := BackendTest.run_all_tests unprintable text_eq repr_unused str_of_error
               fresh_tester in
  run.1 = BackendTest.Returned false
  ∧ BackendTest.tests_run run.2 = 9
  ∧ BackendTest.tests_passed run.2 = 0
  ∧ length (BackendTest.test_results run.2) = 5.
Proof. vm_compute. by repeat split. Qed.
